(** * PluginBase of the Reddit bot framework: a shallow embedding

    The development follows [src/core/baseclass.py].  Text is modelled as
    [string], instants and durations as [Z] (seconds), Python attributes
    that may be missing as [option], and the calls into PRAW, the database
    and the logger as events of a trace.  Answers of the outside world
    (clock readings, token refreshes, unread messages) come from an oracle
    [Env], indexed by the number of the call.

    Lowering, the class of word characters and matching without regard to
    case are Python's on ASCII characters; every other character is left
    as it is and is no word character, where Python, on Unicode text,
    lowers and accepts more.  A statement that holds whatever these
    functions compute is made for every text; one that depends on what
    they compute is made for ASCII text, see [ascii_text].

    The calls that may fail are the ones the methods guard against: the
    token refresh, the fetch of unread messages and marking a message read
    raise what the oracle says.  Building a session, binding a token to it,
    writing to the database, replying and logging are recorded as events
    and always return.  The plugin's own methods are arbitrary computations
    on the same object; what they emit is wrapped in [EvPlugin].

    The constructor, the bootstrap of the refresh token and the integrity
    check are in [Setup], over the plugin's section of the configuration
    file as a list of options and values.  The plugin of
    [src/plugins/LeafeatorBot.py] is in [LeafeatorBot]. *)

From Stdlib Require Import ZArith List String Ascii Bool Arith Lia.
Import ListNotations.
Open Scope string_scope.

(** ** Text helpers: [str.lower], the [in] operator, truthiness *)

(** [str.lower] on an ASCII character; any other character is left as it
    is. *)

Definition lower_ascii (c : ascii) : ascii :=
  let n := nat_of_ascii c in
  if (65 <=? n)%nat && (n <=? 90)%nat then ascii_of_nat (n + 32) else c.

Fixpoint lower (s : string) : string :=
  match s with
  | EmptyString => EmptyString
  | String c s' => String (lower_ascii c) (lower s')
  end.

(** [contains needle hay] is Python's [needle in hay] on strings. *)
Fixpoint contains (needle hay : string) : bool :=
  if prefix needle hay then true
  else match hay with
       | EmptyString => false
       | String _ hay' => contains needle hay'
       end.

(** A Python string is truthy when it is not empty. *)
Definition truthy (s : string) : bool :=
  match s with EmptyString => false | String _ _ => true end.

Definition nl : string := String (ascii_of_nat 10) EmptyString.

(** ** RE_BANMSG

    The pattern compiled in [__init__] is the literal [ban /], one character
    of the class [r|u], a slash, and a greedy run, possibly empty, of the
    class made of [\d], [\w] and [_]; the only flag is [re.UNICODE]. *)

(** [\d], [\w] and [_] among the ASCII characters: the only word
    characters of ASCII text, also under [re.UNICODE]. *)
Definition is_word (c : ascii) : bool :=
  let n := nat_of_ascii c in
  ((48 <=? n)%nat && (n <=? 57)%nat) ||
  ((65 <=? n)%nat && (n <=? 90)%nat) ||
  ((97 <=? n)%nat && (n <=? 122)%nat) ||
  (n =? 95)%nat.

(** The character class [[r|u]]: the bar is a member of the class. *)
Definition is_ban_kind (c : ascii) : bool :=
  Ascii.eqb c "r" || Ascii.eqb c "|" || Ascii.eqb c "u".

(** The greedy run of word characters at the head of [s]. *)
Fixpoint word_run (s : string) : string :=
  match s with
  | String c s' => if is_word c then String c (word_run s') else EmptyString
  | EmptyString => EmptyString
  end.

(** The literal [p] at the head of [s]; what follows it. *)
Fixpoint literal (p s : string) : option string :=
  match p, s with
  | EmptyString, _ => Some s
  | String a p', String b s' => if Ascii.eqb a b then literal p' s' else None
  | String _ _, EmptyString => None
  end.

(** A match of the pattern anchored at the head of [s]; the groups. *)
Definition RE_BANMSG_match (s : string) : option (ascii * string) :=
  match literal "ban /" s with
  | Some (String x rest) =>
      if is_ban_kind x then
        match literal "/" rest with
        | Some rest' => Some (x, word_run rest')
        | None => None
        end
      else None
  | _ => None
  end.

(** [RE_BANMSG.search(s)]: the leftmost position where the pattern matches. *)
Fixpoint RE_BANMSG_search (s : string) : option (ascii * string) :=
  match RE_BANMSG_match s with
  | Some g => Some g
  | None => match s with
            | EmptyString => None
            | String _ s' => RE_BANMSG_search s'
            end
  end.

(** ** Data *)

(** A private message as PRAW hands it over: [author] is [None] for a
    message sent by a community, [subreddit] is its [display_name] when the
    message belongs to one. *)
Record Message := mkMessage {
  author : option string;
  subreddit : option string;
  was_comment : bool;
  body : string
}.

(** What [get_info] or a posting call returns. *)
Inductive thing :=
| Submission (fullname : string) (is_self : bool) (selftext : string)
| Comment (fullname : string) (comment_body : string)
| NoThing.

Record token_dict := mkTokens {
  access_token : string;
  refresh_token : string;
  scope : string
}.

Record Session := mkSession {
  user_agent : string;
  oauth_app_info : string * string;
  access_credentials : option token_dict
}.

Inductive RedditRoverHandler := roverHandler.
Inductive DatabaseProvider := databaseProvider.

(** The attributes of a [PluginBase] object.  An attribute that
    [__init__] sets only on some paths is an [option]: reading it while it
    is [None] raises [AttributeError].  [session], [database] and [handler]
    always exist and hold Python's [None] when they are [None] here. *)
Record PluginBase := mkPlugin {
  OA_TOKEN_DURATION : Z;
  session : option Session;
  database : option DatabaseProvider;
  BOT_NAME : string;
  handler : option RedditRoverHandler;
  DESCRIPTION : option string;
  OA_APP_KEY : option string;
  OA_APP_SECRET : option string;
  OA_REFRESH_TOKEN : option string;
  OA_ACCESS_TOKEN : option string;
  OA_VALID_UNTIL : option Z
}.

(** [__init__(database, handler, bot_name, setup_from_config=False)]. *)
Definition __init__ (db : option DatabaseProvider)
    (h : option RedditRoverHandler) (bot_name : string) : PluginBase :=
  {| OA_TOKEN_DURATION := 3540;
     session := None;
     database := db;
     BOT_NAME := bot_name;
     handler := h;
     DESCRIPTION := None;
     OA_APP_KEY := None;
     OA_APP_SECRET := None;
     OA_REFRESH_TOKEN := None;
     OA_ACCESS_TOKEN := None;
     OA_VALID_UNTIL := None |}.

Inductive exn := HTTPException | AssertionError | AttributeError | TypeError.

Definition exn_eqb (a b : exn) : bool :=
  match a, b with
  | HTTPException, HTTPException | AssertionError, AssertionError
  | AttributeError, AttributeError | TypeError, TypeError => true
  | _, _ => false
  end.

Inductive handler_name :=
| h_execute_submission | h_execute_titlepost | h_execute_link
| h_execute_comment.

(** Calls that leave the object, in the order they are made. *)
Inductive event :=
| EvTime (t : Z)
| EvNewSession (agent : string)
| EvRefreshed (td : token_dict)
| EvRefreshFailed (e : exn)
| EvSetAccessCredentials (td : token_dict)
| EvGetUnread
| EvMarkAsRead (m : Message)
| EvOnNewMessage (m : Message)
| EvGetInfo (thing_id : string)
| EvExecute (h : handler_name) (t : thing)
| EvUserBan (at_ bn : string)
| EvSubredditBan (sb bn : string)
| EvReply (m : Message) (text : string)
| EvInsertIntoUpdate (fullname bn : string) (lifetime : Z)
| EvLogInfo (text : string)
| EvLogError (text : string)
| EvPlugin (e : event).

(** The object together with the position reached in each oracle. *)
Record World := mkWorld {
  self : PluginBase;
  n_time : nat;
  n_refresh : nat;
  n_unread : nat;
  n_mark : nat
}.

(** The outside world.  [maxAttempts] belongs to the retry decorator. *)
Record Env := mkEnv {
  clock : nat -> Z;
  refresh_access_information : nat -> string -> token_dict + exn;
  get_unread : nat -> list Message + exn;
  mark_as_read : nat -> Message -> option exn;
  get_info : string -> thing;
  maxAttempts : nat
}.

(** ** The monad: state, trace and exceptions *)

Inductive result (A : Type) :=
| Ok (a : A)
| Raise (e : exn)
| Unfinished.
Arguments Ok {A} a.
Arguments Raise {A} e.
Arguments Unfinished {A}.

Record out (A : Type) := mkOut {
  res : result A;
  st : World;
  tr : list event
}.
Arguments mkOut {A} res st tr.
Arguments res {A} o.
Arguments st {A} o.
Arguments tr {A} o.

Definition M (A : Type) : Type := World -> out A.

Definition ret {A} (a : A) : M A := fun w => mkOut (Ok a) w [].

Definition bind {A B} (m : M A) (f : A -> M B) : M B :=
  fun w =>
    match m w with
    | mkOut (Ok a) w1 t1 =>
        match f a w1 with
        | mkOut r w2 t2 => mkOut r w2 (t1 ++ t2)
        end
    | mkOut (Raise e) w1 t1 => mkOut (Raise e) w1 t1
    | mkOut Unfinished w1 t1 => mkOut Unfinished w1 t1
    end.

Declare Scope py_scope.
Delimit Scope py_scope with py.
Notation "x <- m ;; k" := (bind m (fun x => k))
  (at level 61, m at next level, right associativity) : py_scope.
Notation "m ;; k" := (bind m (fun _ => k))
  (at level 61, right associativity) : py_scope.
Open Scope py_scope.

Definition raise {A} (e : exn) : M A := fun w => mkOut (Raise e) w [].
Definition unfinished {A} : M A := fun w => mkOut Unfinished w [].
Definition emit (e : event) : M unit := fun w => mkOut (Ok tt) w [e].
Definition get_self : M PluginBase := fun w => mkOut (Ok (self w)) w [].
Definition set_self (f : PluginBase -> PluginBase) : M unit :=
  fun w => mkOut (Ok tt)
    (mkWorld (f (self w)) (n_time w) (n_refresh w) (n_unread w) (n_mark w)) [].

(** Reading an attribute that may be missing. *)
Definition getattr {A} (f : PluginBase -> option A) : M A :=
  fun w => match f (self w) with
           | Some a => mkOut (Ok a) w []
           | None => mkOut (Raise AttributeError) w []
           end.

(** Python's [None] is falsy, any object held is truthy. *)
Definition is_set {A} (o : option A) : bool :=
  match o with Some _ => true | None => false end.

Definition assert_ (b : bool) : M unit :=
  if b then ret tt else raise AssertionError.

(** [try: m except e: h]. *)
Definition try_except {A} (m : M A) (e : exn) (h : M A) : M A :=
  fun w =>
    match m w with
    | mkOut (Raise e') w1 t1 =>
        if exn_eqb e' e
        then match h w1 with
             | mkOut r w2 t2 => mkOut r w2 (t1 ++ t2)
             end
        else mkOut (Raise e') w1 t1
    | o => o
    end.

(** A plugin method runs on the same object; what it does outside shows in
    the trace under [EvPlugin]. *)
Definition in_plugin {A} (m : M A) : M A :=
  fun w => match m w with
           | mkOut r w1 t1 => mkOut r w1 (map EvPlugin t1)
           end.

(** ** The abstract methods every plugin overrides *)

Class PluginContract := {
  execute_submission : thing -> M unit;
  execute_link : thing -> M unit;
  execute_titlepost : thing -> M unit;
  execute_comment : thing -> M unit;
  update_procedure : string -> Z -> Z -> Z -> Z -> M unit;
  on_new_message : Message -> M unit
}.

(** ** Methods that need neither the network nor the plugin *)

(** The two acknowledgements of [standard_ban_procedure]. *)
Definition ban_reply_user (at_ bn : string) : string :=
  "Successfully banned /u/" ++ at_ ++ " from " ++ bn ++ ". " ++
  "The bot should ignore you from now on." ++ nl ++ nl ++ "Have a nice day!".

Definition ban_reply_subreddit (sb bn : string) : string :=
  "Successfully banned /r/" ++ sb ++ " from " ++ bn ++ ". " ++
  "The bot should ignore this subreddit from now on." ++
  nl ++ nl ++ "Have a nice day!".

(** Lines 214-217: the sender's lowered name and whether it is a person. *)
Definition principal (message : Message) : M (string * bool) :=
  match author message with
  | Some name => ret (lower name, true)
  | None =>
      match subreddit message with
      | Some display_name => ret (lower display_name, false)
      | None => raise AttributeError
      end
  end.

Definition message_author_name (message : Message) : M string :=
  match author message with
  | Some name => ret name
  | None => raise AttributeError
  end.

Definition message_subreddit_display_name (message : Message) : M string :=
  match subreddit message with
  | Some display_name => ret display_name
  | None => raise AttributeError
  end.

(** Line 225. *)
Definition type_consistency (sub : ascii) (human : bool) : bool :=
  (Ascii.eqb (lower_ascii sub) "r" && negb human) ||
  (Ascii.eqb (lower_ascii sub) "u" && human).

(** [standard_ban_procedure(message, subreddit_banning_allowed,
    user_banning_allowed)], lines 202-240. *)
Definition standard_ban_procedure (message : Message)
    (subreddit_banning_allowed user_banning_allowed : bool) : M unit :=
  ah <- principal message ;;
  let (author_, human) := ah in
  if negb (was_comment message) && contains author_ (lower (body message))
  then
    match RE_BANMSG_search (body message) with
    | None => ret tt
    | Some (sub, result_) =>
        if String.eqb author_ (lower result_) && type_consistency sub human
        then
          if human && user_banning_allowed then
            at_ <- message_author_name message ;;
            bn <- (s <- get_self ;; ret (BOT_NAME s)) ;;
            _ <- getattr database ;;
            emit (EvUserBan at_ bn) ;;
            emit (EvReply message (ban_reply_user at_ bn)) ;;
            emit (EvLogInfo ("Banned /u/" ++ at_ ++ " from " ++ bn ++
                             " on message request."))
          else if subreddit_banning_allowed then
            sb <- message_subreddit_display_name message ;;
            bn <- (s <- get_self ;; ret (BOT_NAME s)) ;;
            _ <- getattr database ;;
            emit (EvSubredditBan sb bn) ;;
            emit (EvReply message (ban_reply_subreddit sb bn)) ;;
            emit (EvLogInfo ("Banned /r/" ++ sb ++ " from " ++ bn ++
                             " on message request"))
          else ret tt
        else ret tt
    end
  else ret tt.

(** [isinstance(response_object, praw.objects.Submission)]. *)
Definition is_submission (t : thing) : bool :=
  match t with Submission _ _ _ => true | _ => false end.

(** [isinstance(praw.objects.Comment)]: the built-in is called with one
    argument, which is a [TypeError] whenever the call is evaluated. *)
Definition isinstance_one_argument : M bool := raise TypeError.

Definition thing_fullname (t : thing) : M string :=
  match t with
  | Submission fullname _ _ => ret fullname
  | Comment fullname _ => ret fullname
  | NoThing => raise AttributeError
  end.

(** [to_update(response_object, lifetime)]. *)
Definition to_update (response_object : thing) (lifetime : Z) : M unit :=
  s <- get_self ;;
  match database s with
  | None =>
      emit (EvLogError (BOT_NAME s ++
                        " does not have a valid database connection."))
  | Some _ =>
      ok <- (if is_submission response_object then ret true
             else isinstance_one_argument) ;;
      if ok then
        fullname <- thing_fullname response_object ;;
        emit (EvInsertIntoUpdate fullname (BOT_NAME s) lifetime)
      else emit (EvLogError "response_object has an invalid object type.")
  end.

(** ** Methods that talk to the network or to the plugin *)

Section PluginBase.

Variable E : Env.
Context {P : PluginContract}.

(** [time()]. *)
Definition time : M Z :=
  fun w =>
    let t := clock E (n_time w) in
    mkOut (Ok t)
      (mkWorld (self w) (S (n_time w)) (n_refresh w) (n_unread w) (n_mark w))
      [EvTime t].

(** [self.session.refresh_access_information(token)]. *)
Definition session_refresh_access_information (token : string)
  : M token_dict :=
  fun w =>
    match session (self w) with
    | None => mkOut (Raise AttributeError) w []
    | Some _ =>
        let w' := mkWorld (self w) (n_time w) (S (n_refresh w))
                          (n_unread w) (n_mark w) in
        match refresh_access_information E (n_refresh w) token with
        | inl td => mkOut (Ok td) w' [EvRefreshed td]
        | inr e => mkOut (Raise e) w' [EvRefreshFailed e]
        end
    end.

(** [self.session.set_access_credentials( **token_dict)]: binds the token to
    the session. *)
Definition session_set_access_credentials (td : token_dict) : M unit :=
  s <- get_self ;;
  match session s with
  | None => raise AttributeError
  | Some sess =>
      set_self (fun s =>
        mkPlugin (OA_TOKEN_DURATION s)
          (Some (mkSession (user_agent sess) (oauth_app_info sess) (Some td)))
          (database s) (BOT_NAME s) (handler s) (DESCRIPTION s)
          (OA_APP_KEY s) (OA_APP_SECRET s) (OA_REFRESH_TOKEN s)
          (OA_ACCESS_TOKEN s) (OA_VALID_UNTIL s)) ;;
      emit (EvSetAccessCredentials td)
  end.

Definition set_token (tok : string) (until : Z) : M unit :=
  set_self (fun s =>
    mkPlugin (OA_TOKEN_DURATION s) (session s) (database s) (BOT_NAME s)
      (handler s) (DESCRIPTION s) (OA_APP_KEY s) (OA_APP_SECRET s)
      (OA_REFRESH_TOKEN s) (Some tok) (Some until)).

Definition set_session (sess : Session) : M unit :=
  set_self (fun s =>
    mkPlugin (OA_TOKEN_DURATION s) (Some sess) (database s) (BOT_NAME s)
      (handler s) (DESCRIPTION s) (OA_APP_KEY s) (OA_APP_SECRET s)
      (OA_REFRESH_TOKEN s) (OA_ACCESS_TOKEN s) (OA_VALID_UNTIL s)).

(** Modelled from the spec: the decorator [retry] of [core.decorators],
    whose file is not part of the sources.  The operation is executed; a
    failure of the designated class is retried up to [maxAttempts - 1]
    additional times, any other error propagates at once, and exhausting
    the attempts propagates the last error. *)
Fixpoint retry_loop {A} (additional : nat) (e : exn) (m : M A) : M A :=
  match additional with
  | O => m
  | S n => try_except m e (retry_loop n e m)
  end.

(** Modelled from the spec: [retry(e)] applied to a method, with the
    bound [maxAttempts] of the missing decorator taken from the
    environment. *)
Definition retry {A} (e : exn) (m : M A) : M A :=
  retry_loop (maxAttempts E - 1) e m.

(** The body of [_oa_refresh(force)], lines 173-179. *)
Definition _oa_refresh_body (force : bool) : M unit :=
  token <- getattr OA_REFRESH_TOKEN ;;
  s <- get_self ;;
  assert_ (truthy token && is_set (session s)) ;;
  due <- (if force then ret true
          else now <- time ;;
               until <- getattr OA_VALID_UNTIL ;;
               ret (until <? now)%Z) ;;
  if due then
    td <- session_refresh_access_information token ;;
    now <- time ;;
    s <- get_self ;;
    set_token (access_token td) (now + OA_TOKEN_DURATION s) ;;
    session_set_access_credentials td
  else ret tt.

(** [_oa_refresh], decorated with [@retry(HTTPException)]. *)
Definition _oa_refresh (force : bool) : M unit :=
  retry HTTPException (_oa_refresh_body force).

(** [factory_reddit] up to its last line, which calls [oa_refresh]. *)
Definition factory_reddit_session : M unit :=
  d <- getattr DESCRIPTION ;;
  s <- get_self ;;
  assert_ (truthy d && is_set (handler s)) ;;
  k <- getattr OA_APP_KEY ;;
  assert_ (truthy k) ;;
  sec <- getattr OA_APP_SECRET ;;
  assert_ (truthy sec) ;;
  set_session (mkSession d (k, sec) None) ;;
  emit (EvNewSession d).

(** [oa_refresh(force)] and [factory_reddit()] call each other; [fuel]
    bounds the depth of that nesting. *)
Fixpoint oa_refresh (fuel : nat) (force : bool) : M unit :=
  match fuel with
  | O => unfinished
  | S fuel' =>
      try_except (_oa_refresh force) HTTPException
        (factory_reddit_session ;;
         oa_refresh fuel' true ;;
         _oa_refresh force)
  end.

Definition factory_reddit (fuel : nat) : M unit :=
  factory_reddit_session ;; oa_refresh fuel true.

(** [self.session.get_unread()]. *)
Definition session_get_unread : M (list Message) :=
  fun w =>
    match session (self w) with
    | None => mkOut (Raise AttributeError) w []
    | Some _ =>
        let w' := mkWorld (self w) (n_time w) (n_refresh w)
                          (S (n_unread w)) (n_mark w) in
        match get_unread E (n_unread w) with
        | inl msgs => mkOut (Ok msgs) w' [EvGetUnread]
        | inr e => mkOut (Raise e) w' [EvGetUnread]
        end
    end.

(** [msg.mark_as_read()]. *)
Definition msg_mark_as_read (msg : Message) : M unit :=
  fun w =>
    let w' := mkWorld (self w) (n_time w) (n_refresh w) (n_unread w)
                      (S (n_mark w)) in
    match mark_as_read E (n_mark w) msg with
    | None => mkOut (Ok tt) w' [EvMarkAsRead msg]
    | Some e => mkOut (Raise e) w' [EvMarkAsRead msg]
    end.

(** One turn of the [for] loop, lines 197-198. *)
Definition unread_step (msg : Message) : M unit :=
  msg_mark_as_read msg ;;
  emit (EvOnNewMessage msg) ;;
  in_plugin (on_new_message msg).

(** The [for] loop of lines 196-198. *)
Fixpoint message_loop (msgs : list Message) : M unit :=
  match msgs with
  | [] => ret tt
  | msg :: msgs' => unread_step msg ;; message_loop msgs'
  end.

(** Lines 195-198, the statements under [try]. *)
Definition unread_block : M unit :=
  msgs <- session_get_unread ;; message_loop msgs.

(** Lines 194-200: the [try] with its [except AssertionError: pass]. *)
Definition unread_try : M unit :=
  try_except unread_block AssertionError (ret tt).

(** The body of [get_unread_messages]; [hasattr(self, "session")] holds for
    every object, [__init__] assigns the attribute on all paths. *)
Definition get_unread_messages_body (fuel : nat) : M unit :=
  oa_refresh fuel false ;; unread_try.

(** [get_unread_messages], decorated with [@retry(HTTPException)]. *)
Definition get_unread_messages (fuel : nat) : M unit :=
  retry HTTPException (get_unread_messages_body fuel).

(** [__test_single_thing(thing_id)]. *)
Definition __test_single_thing (thing_id : string) : M unit :=
  emit (EvGetInfo thing_id) ;;
  let thing_ := get_info E thing_id in
  match thing_ with
  | Submission _ is_self selftext =>
      if is_self && truthy selftext then
        emit (EvExecute h_execute_submission thing_) ;;
        in_plugin (execute_submission thing_)
      else if is_self then
        emit (EvExecute h_execute_titlepost thing_) ;;
        in_plugin (execute_titlepost thing_)
      else
        emit (EvExecute h_execute_link thing_) ;;
        in_plugin (execute_link thing_)
  | _ =>
      emit (EvExecute h_execute_comment thing_) ;;
      in_plugin (execute_comment thing_)
  end.

Definition test_single_submission (submission_id : string) : M unit :=
  __test_single_thing ("t3_" ++ submission_id).

Definition test_single_comment (comment_id : string) : M unit :=
  __test_single_thing ("t1_" ++ comment_id).

End PluginBase.

(** * Predicates of the statements *)

(** A write to the ban store or a reply to the sender. *)
Definition is_write_or_reply (e : event) : bool :=
  match e with
  | EvUserBan _ _ | EvSubredditBan _ _ | EvReply _ _ => true
  | _ => false
  end.

(** The sender of a message: its identifier and whether it is a person. *)
Definition sender_is (m : Message) (name : string) (human : bool) : Prop :=
  (author m = Some name /\ human = true) \/
  (author m = None /\ subreddit m = Some name /\ human = false).

(** Everything that has to hold of a message for a ban to be recorded:
    top-level message, own name in the lowered body, the pattern extracts
    [(X, Y)], [X] fits the kind of sender, [Y] is the sender's name up to
    letter case. *)
Definition ban_conditions (m : Message) : Prop :=
  was_comment m = false /\
  exists name human,
    sender_is m name human /\
    contains (lower name) (lower (body m)) = true /\
    exists X Y,
      RE_BANMSG_search (body m) = Some (X, Y) /\
      ((X = "r"%char /\ human = false) \/ (X = "u"%char /\ human = true)) /\
      lower Y = lower name.

(** The classification in the words of the specification: a comment goes
    to the comment handler, a self post with text to the self-text handler,
    a self post without text to the title-only handler and any other post to
    the link handler.  [NoThing] is not a content item. *)
Definition spec_classify (t : thing) : option handler_name :=
  match t with
  | Comment _ _ => Some h_execute_comment
  | Submission _ true (String _ _) => Some h_execute_submission
  | Submission _ true EmptyString => Some h_execute_titlepost
  | Submission _ false _ => Some h_execute_link
  | NoThing => None
  end.

(** The method of the plugin behind a handler name. *)
Definition method_of {P : PluginContract} (h : handler_name)
  : thing -> M unit :=
  match h with
  | h_execute_submission => execute_submission
  | h_execute_titlepost => execute_titlepost
  | h_execute_link => execute_link
  | h_execute_comment => execute_comment
  end.

(** The handlers the framework itself called, in order. *)
Fixpoint handler_calls (l : list event) : list (handler_name * thing) :=
  match l with
  | [] => []
  | EvExecute h t :: l' => (h, t) :: handler_calls l'
  | _ :: l' => handler_calls l'
  end.

(** The events the framework emitted itself, without what the plugin's
    methods did. *)
Fixpoint top_level (l : list event) : list event :=
  match l with
  | [] => []
  | EvPlugin _ :: l' => top_level l'
  | e :: l' => e :: top_level l'
  end.

(** Every message marked read and then handed to [on_new_message], in the
    order fetched. *)
Definition marked_then_dispatched (msgs : list Message) : list event :=
  flat_map (fun m => [EvMarkAsRead m; EvOnNewMessage m]) msgs.

(** The world right after [get_unread] answered. *)
Definition after_fetch (w : World) : World :=
  mkWorld (self w) (n_time w) (n_refresh w) (S (n_unread w)) (n_mark w).

(** The world right after [mark_as_read] answered. *)
Definition after_mark (w : World) : World :=
  mkWorld (self w) (n_time w) (n_refresh w) (n_unread w) (S (n_mark w)).

(** [m] respects [R]: the world before, the trace and the world after
    are always related. *)
Definition respects (R : World -> list event -> World -> Prop)
    {A} (m : M A) : Prop :=
  forall w, R w (tr (m w)) (st (m w)).

(** The count of refresh calls never goes down. *)
Definition refresh_grows (a : World) (_ : list event) (b : World) : Prop :=
  (n_refresh a <= n_refresh b)%nat.



(** The call behind an event, whoever made it: the framework or, somewhere
    below [EvPlugin], a method of the plugin. *)
Fixpoint bare (e : event) : event :=
  match e with
  | EvPlugin e' => bare e'
  | _ => e
  end.

(** The history shows the token [td] issued at the instant [t]: a refresh
    that returned [td], and the clock reading taken right after it.  Calls
    made by the plugin's methods count like the framework's own. *)
Definition issued (hist : list event) (td : token_dict) (t : Z) : Prop :=
  exists before after,
    map bare hist = (before ++ EvRefreshed td :: EvTime t :: after)%list.

(** Whenever an access token is set, a successful refresh of the history
    issued it and the expiry is the instant of that refresh plus the
    validity duration. *)
Definition credential_invariant (hist : list event) (s : PluginBase) : Prop :=
  forall tok, OA_ACCESS_TOKEN s = Some tok ->
  exists td t,
    issued hist td t /\
    tok = access_token td /\
    OA_VALID_UNTIL s = Some (t + OA_TOKEN_DURATION s)%Z.

Definition credentials (s : PluginBase) : option string * option Z :=
  (OA_ACCESS_TOKEN s, OA_VALID_UNTIL s).

(** A refresh that returned is among the calls of the trace. *)
Definition refreshed_in (t : list event) : Prop :=
  exists td, In (EvRefreshed td) (map bare t).

(** What every operation does to the credentials: the duration stays, the
    invariant carries over from any history to that history with the
    trace of the run added, and the pair of token and expiry changes only
    when the trace holds a successful refresh. *)
Definition keeps_credentials (w : World) (t : list event) (w' : World)
  : Prop :=
  OA_TOKEN_DURATION (self w') = OA_TOKEN_DURATION (self w) /\
  (forall hist, credential_invariant hist (self w) ->
                credential_invariant (hist ++ t)%list (self w')) /\
  (credentials (self w') = credentials (self w) \/ refreshed_in t).

(** A plugin method that does not touch token, expiry and duration. *)
Definition leaves_credentials {A} (m : M A) : Prop :=
  forall w,
    credentials (self (st (m w))) = credentials (self w) /\
    OA_TOKEN_DURATION (self (st (m w))) = OA_TOKEN_DURATION (self w).

Definition plugin_leaves_credentials (P : PluginContract) : Prop :=
  (forall m, leaves_credentials (on_new_message m)) /\
  (forall t, leaves_credentials (execute_submission t)) /\
  (forall t, leaves_credentials (execute_titlepost t)) /\
  (forall t, leaves_credentials (execute_link t)) /\
  (forall t, leaves_credentials (execute_comment t)).

(** What is asked of the plugin: each of its methods does to the
    credentials what the operations of the base class do.  A method that
    does not touch them does, whatever it calls, and so does one that
    calls [oa_refresh], [factory_reddit], [get_unread_messages] or any
    other operation of the base class.  Only a method that assigns
    token, expiry or duration itself does not. *)
Definition plugin_keeps_credentials (P : PluginContract) : Prop :=
  (forall m, respects keeps_credentials (on_new_message m)) /\
  (forall t, respects keeps_credentials (execute_submission t)) /\
  (forall t, respects keeps_credentials (execute_titlepost t)) /\
  (forall t, respects keeps_credentials (execute_link t)) /\
  (forall t, respects keeps_credentials (execute_comment t)).

(** The operations of the base class on an object that exists. *)
Inductive operation :=
| call__oa_refresh (force : bool)
| call_oa_refresh (force : bool)
| call_factory_reddit
| call_get_unread_messages
| call_standard_ban_procedure (m : Message) (sa ua : bool)
| call_to_update (t : thing) (lifetime : Z)
| call_test_single_thing (thing_id : string)
| call_test_single_submission (submission_id : string)
| call_test_single_comment (comment_id : string).

Definition run (E : Env) (P : PluginContract) (fuel : nat) (op : operation)
  : M unit :=
  match op with
  | call__oa_refresh force => _oa_refresh E force
  | call_oa_refresh force => oa_refresh E fuel force
  | call_factory_reddit => factory_reddit E fuel
  | call_get_unread_messages => get_unread_messages E fuel
  | call_standard_ban_procedure m sa ua => standard_ban_procedure m sa ua
  | call_to_update t lifetime => to_update t lifetime
  | call_test_single_thing thing_id => __test_single_thing E thing_id
  | call_test_single_submission submission_id =>
      test_single_submission E submission_id
  | call_test_single_comment comment_id => test_single_comment E comment_id
  end.

(** * Fixtures for the examples *)

(** A plugin whose six methods do nothing, as [on_new_message],
    [execute_titlepost], [execute_link] and [update_procedure] of
    LeafeatorBot do. *)
Definition idle_plugin : PluginContract :=
  {| execute_submission := fun _ => ret tt;
     execute_link := fun _ => ret tt;
     execute_titlepost := fun _ => ret tt;
     execute_comment := fun _ => ret tt;
     update_procedure := fun _ _ _ _ _ => ret tt;
     on_new_message := fun _ => ret tt |}.

(** A plugin object right after [__init__] without configuration. *)
Definition fresh_plugin : PluginBase :=
  __init__ (Some databaseProvider) (Some roverHandler) "LeafeatorBot".

Definition fresh_world : World := mkWorld fresh_plugin 0 0 0 0.

(** alice writes [ban /u/alice please] as a top-level message. *)
Definition msg_alice : Message :=
  mkMessage (Some "alice") None false "ban /u/alice please".

(** The same request in capital letters. *)
Definition msg_alice_caps : Message :=
  mkMessage (Some "alice") None false "BAN /U/alice".

(** alice writes her request through the modmail of dota2: the message has
    both an author and a subreddit. *)
Definition msg_alice_modmail : Message :=
  mkMessage (Some "alice") (Some "dota2") false "ban /u/alice".

(** The answers of the platform to the first and to a later refresh. *)
Definition tokens0 : token_dict :=
  mkTokens "access-0" "refresh-0" "identity".

Definition tokens1 : token_dict :=
  mkTokens "access-1" "refresh-0" "identity".

(** The platform answers every refresh; the clock starts at 1000 and
    advances one second per reading. *)
Definition env_up (unread : list Message) : Env :=
  {| clock := fun k => (1000 + Z.of_nat k)%Z;
     refresh_access_information := fun _ _ => inl tokens1;
     get_unread := fun _ => inl unread;
     mark_as_read := fun _ _ => None;
     get_info := fun _ => NoThing;
     maxAttempts := 4 |}.

(** The platform fails every refresh with [HTTPException]. *)
Definition env_down : Env :=
  {| clock := fun k => (1000 + Z.of_nat k)%Z;
     refresh_access_information := fun _ _ => inr HTTPException;
     get_unread := fun _ => inl [];
     mark_as_read := fun _ _ => None;
     get_info := fun _ => NoThing;
     maxAttempts := 4 |}.

(** An object configured for login, with a session and a refresh token
    but no access token yet. *)
Definition configured_plugin : PluginBase :=
  {| OA_TOKEN_DURATION := 3540;
     session := Some (mkSession "Leafeator" ("key", "secret") None);
     database := Some databaseProvider;
     BOT_NAME := "LeafeatorBot";
     handler := Some roverHandler;
     DESCRIPTION := Some "Leafeator";
     OA_APP_KEY := Some "key";
     OA_APP_SECRET := Some "secret";
     OA_REFRESH_TOKEN := Some "refresh-0";
     OA_ACCESS_TOKEN := None;
     OA_VALID_UNTIL := None |}.

Definition configured_world : World := mkWorld configured_plugin 0 0 0 0.

(** The same object holding an access token that expires at [until]. *)
Definition authenticated_plugin (until : Z) : PluginBase :=
  {| OA_TOKEN_DURATION := 3540;
     session := Some (mkSession "Leafeator" ("key", "secret") None);
     database := Some databaseProvider;
     BOT_NAME := "LeafeatorBot";
     handler := Some roverHandler;
     DESCRIPTION := Some "Leafeator";
     OA_APP_KEY := Some "key";
     OA_APP_SECRET := Some "secret";
     OA_REFRESH_TOKEN := Some "refresh-0";
     OA_ACCESS_TOKEN := Some "access-0";
     OA_VALID_UNTIL := Some until |}.

Definition authenticated_world (until : Z) : World :=
  mkWorld (authenticated_plugin until) 0 0 0 0.

(** Everything [_oa_refresh] and [factory_reddit] assert is in place. *)
Definition ready_for_login (s : PluginBase) : bool :=
  match OA_REFRESH_TOKEN s, session s, DESCRIPTION s, handler s,
        OA_APP_KEY s, OA_APP_SECRET s with
  | Some tok, Some _, Some d, Some _, Some k, Some sec =>
      truthy tok && truthy d && truthy k && truthy sec
  | _, _, _, _, _, _ => false
  end.

(** Every refresh attempt fails with [HTTPException]. *)
Definition platform_down (E : Env) : Prop :=
  forall k token, refresh_access_information E k token = inr HTTPException.

(** The number of times the retry decorator runs an operation that keeps
    failing. *)
Definition attempts (E : Env) : nat := S (maxAttempts E - 1).

(** A plugin that insists on top-level messages and hands them to the
    standard ban procedure. *)
Definition strict_plugin : PluginContract :=
  {| execute_submission := fun _ => ret tt;
     execute_link := fun _ => ret tt;
     execute_titlepost := fun _ => ret tt;
     execute_comment := fun _ => ret tt;
     update_procedure := fun _ _ _ _ _ => ret tt;
     on_new_message := fun m =>
       assert_ (negb (was_comment m)) ;;
       standard_ban_procedure m true true |}.

(** A reply to a comment of the bot. *)
Definition msg_reply : Message :=
  mkMessage (Some "bob") None true "nice bot".

(** * Further predicates *)

(** Every character of [s] is a word character. *)
Fixpoint all_word (s : string) : bool :=
  match s with
  | EmptyString => true
  | String c s' => is_word c && all_word s'
  end.

(** [s] starts with a word character. *)
Definition starts_with_word (s : string) : bool :=
  match s with
  | EmptyString => false
  | String c _ => is_word c
  end.

(** The text of a ban request of kind [x] for the identifier [y]. *)
Definition ban_text (x : ascii) (y : string) : string :=
  "ban /" ++ String x ("/" ++ y).

(** The object after lines 176-178 stored the token [td] at the clock
    reading [now] and bound it to the session [sess]. *)
Definition with_token (s : PluginBase) (sess : Session) (td : token_dict)
    (now : Z) : PluginBase :=
  {| OA_TOKEN_DURATION := OA_TOKEN_DURATION s;
     session := Some (mkSession (user_agent sess) (oauth_app_info sess)
                                (Some td));
     database := database s;
     BOT_NAME := BOT_NAME s;
     handler := handler s;
     DESCRIPTION := DESCRIPTION s;
     OA_APP_KEY := OA_APP_KEY s;
     OA_APP_SECRET := OA_APP_SECRET s;
     OA_REFRESH_TOKEN := OA_REFRESH_TOKEN s;
     OA_ACCESS_TOKEN := Some (access_token td);
     OA_VALID_UNTIL := Some (now + OA_TOKEN_DURATION s)%Z |}.

(** The object after line 135-136 replaced the session. *)
Definition with_session (s : PluginBase) (sess : Session) : PluginBase :=
  {| OA_TOKEN_DURATION := OA_TOKEN_DURATION s;
     session := Some sess;
     database := database s;
     BOT_NAME := BOT_NAME s;
     handler := handler s;
     DESCRIPTION := DESCRIPTION s;
     OA_APP_KEY := OA_APP_KEY s;
     OA_APP_SECRET := OA_APP_SECRET s;
     OA_REFRESH_TOKEN := OA_REFRESH_TOKEN s;
     OA_ACCESS_TOKEN := OA_ACCESS_TOKEN s;
     OA_VALID_UNTIL := OA_VALID_UNTIL s |}.

(** What [factory_reddit] asserts before it builds a session. *)
Definition app_configured (s : PluginBase) (d k sec : string) : Prop :=
  DESCRIPTION s = Some d /\ truthy d = true /\
  handler s <> None /\
  OA_APP_KEY s = Some k /\ truthy k = true /\
  OA_APP_SECRET s = Some sec /\ truthy sec = true.

(** An error log. *)
Definition is_log_error (e : event) : bool :=
  match e with EvLogError _ => true | _ => false end.

(** The platform fails the refresh calls number [from], ..., [from + n - 1]
    with [HTTPException]. *)
Definition fails_between (E : Env) (from n : nat) : Prop :=
  forall k token, (from <= k < from + n)%nat ->
                  refresh_access_information E k token = inr HTTPException.

(** The platform fails the first four refresh calls and answers from the
    fifth on. *)
Definition env_flaky : Env :=
  {| clock := fun k => (1000 + Z.of_nat k)%Z;
     refresh_access_information := fun k _ =>
       if (k <? 4)%nat then inr HTTPException
       else if (k =? 4)%nat then inl tokens0 else inl tokens1;
     get_unread := fun _ => inl [];
     mark_as_read := fun _ _ => None;
     get_info := fun _ => NoThing;
     maxAttempts := 4 |}.

(** A plugin whose message handler trips over a missing attribute. *)
Definition broken_plugin : PluginContract :=
  {| execute_submission := fun _ => ret tt;
     execute_link := fun _ => ret tt;
     execute_titlepost := fun _ => ret tt;
     execute_comment := fun _ => ret tt;
     update_procedure := fun _ _ _ _ _ => ret tt;
     on_new_message := fun _ => raise AttributeError |}.

(** ** _get_keys_manually: the code in the redirect *)

(** [s.split(sep)] for a separator that is not empty: the pieces between
    the occurrences of [sep], found from the left without overlap.  [skip]
    counts the characters of a separator just found that are still to be
    passed over. *)
Fixpoint split_from (sep : string) (skip : nat) (s : string) : list string :=
  match s with
  | EmptyString => [EmptyString]
  | String c s' =>
      match skip with
      | S k => split_from sep k s'
      | O =>
          if prefix sep (String c s')
          then EmptyString :: split_from sep (String.length sep - 1) s'
          else match split_from sep 0 s' with
               | piece :: pieces => String c piece :: pieces
               | [] => [String c EmptyString]
               end
      end
  end.

Definition split (s sep : string) : list string := split_from sep 0 s.

(** Line 162: [code = return_url.split('code=')[-1]]. *)
Definition authorization_code (return_url : string) : string :=
  last (split return_url "code=") EmptyString.

(** [s] without its first [n] characters. *)
Fixpoint drop (n : nat) (s : string) : string :=
  match n, s with
  | O, _ => s
  | S k, String _ s' => drop k s'
  | S k, EmptyString => EmptyString
  end.

(** ** Construction from the configuration, bootstrap and integrity check

    [__init__] with [setup_from_config], [_get_keys_manually] and
    [integrity_check] read and write attributes beyond the ones of
    [PluginBase], talk to the operator and to the configuration, and can
    end in errors of the configuration parser.  They are modelled on a
    larger state with a trace of their own.  The configuration is the
    section of the plugin as the parser presents it: a list of options with
    their values. *)
Module Setup.

(** [USERNAME] holds a name, or [False] when a plugin stores that. *)
Inductive username_value :=
| UFalse
| UName (name : string).

(** The object with the attributes beyond those of [PluginBase].
    [session] may hold [False] instead of [None], when a plugin that does
    not log in stores that: the two behave alike everywhere but under
    [is False] of line 122, so the base object has [None] for both and
    [session_holds_False] tells them apart while it has. *)
Record Plugin := mkObject {
  base : World;
  config : option (list (string * string));
  IS_LOGGED_IN : option bool;
  SELF_IGNORE : option bool;
  USERNAME : option username_value;
  session_holds_False : bool
}.

(** An object whose [session] is not [False]. *)
Definition mkFull (base : World) (config : option (list (string * string)))
    (IS_LOGGED_IN SELF_IGNORE : option bool)
    (USERNAME : option username_value) : Plugin :=
  mkObject base config IS_LOGGED_IN SELF_IGNORE USERNAME false.

(** The operator at the prompt and the platform's side of the exchange:
    the address to visit, the address typed in, the answer to the exchange
    of a code, and the account a bound token belongs to. *)
Record Operator := mkOperator {
  authorize_url : string;
  typed_url : string;
  get_access_information : string -> token_dict + exn;
  account : string
}.

Inductive setup_exn :=
| Base (e : exn)
| NoOptionError (option_ : string)
| ValueError (value : string).

Inductive setup_event :=
| SetupBase (e : event)
| SetupAuthorizeUrl (state : string)
| SetupInput
| SetupAccessInformation (code : string)
| SetupConfigSet (option_ value : string)
| SetupConfigWrite.

Inductive sresult (A : Type) :=
| SOk (a : A)
| SRaise (e : setup_exn)
| SUnfinished.
Arguments SOk {A} a.
Arguments SRaise {A} e.
Arguments SUnfinished {A}.

Record sout (A : Type) := mkSout {
  sres : sresult A;
  sst : Plugin;
  str : list setup_event
}.
Arguments mkSout {A} sres sst str.
Arguments sres {A} s.
Arguments sst {A} s.
Arguments str {A} s.

Definition MS (A : Type) : Type := Plugin -> sout A.

Definition sret {A} (a : A) : MS A := fun p => mkSout (SOk a) p [].

Definition sbind {A B} (m : MS A) (f : A -> MS B) : MS B :=
  fun p =>
    match m p with
    | mkSout (SOk a) p1 t1 =>
        match f a p1 with
        | mkSout r p2 t2 => mkSout r p2 (t1 ++ t2)
        end
    | mkSout (SRaise e) p1 t1 => mkSout (SRaise e) p1 t1
    | mkSout SUnfinished p1 t1 => mkSout SUnfinished p1 t1
    end.

Declare Scope setup_scope.
Notation "x <- m ;; k" := (sbind m (fun x => k))
  (at level 61, m at next level, right associativity) : setup_scope.
Notation "m ;; k" := (sbind m (fun _ => k))
  (at level 61, right associativity) : setup_scope.
Local Open Scope setup_scope.

Definition sraise {A} (e : setup_exn) : MS A :=
  fun p => mkSout (SRaise e) p [].

Definition semit (e : setup_event) : MS unit :=
  fun p => mkSout (SOk tt) p [e].

Definition sget : MS Plugin := fun p => mkSout (SOk p) p [].

Definition sput (f : Plugin -> Plugin) : MS unit :=
  fun p => mkSout (SOk tt) (f p) [].

Definition lift_result {A} (r : result A) : sresult A :=
  match r with
  | Ok a => SOk a
  | Raise e => SRaise (Base e)
  | Unfinished => SUnfinished
  end.

(** A method of the base class run on the larger state. *)
Definition lift {A} (m : M A) : MS A :=
  fun p =>
    match m (base p) with
    | mkOut r w1 t1 =>
        mkSout (lift_result r)
               (mkObject w1 (config p) (IS_LOGGED_IN p) (SELF_IGNORE p)
                         (USERNAME p) (session_holds_False p))
               (map SetupBase t1)
    end.

Definition sassert (b : bool) : MS unit :=
  if b then sret tt else sraise (Base AssertionError).

(** Reading an attribute that may be missing. *)
Definition sgetattr {A} (f : Plugin -> option A) : MS A :=
  fun p => match f p with
           | Some a => mkSout (SOk a) p []
           | None => mkSout (SRaise (Base AttributeError)) p []
           end.

(** Assignments to attributes of the object. *)
Definition assign (f : PluginBase -> PluginBase) : MS unit := lift (set_self f).

Definition set_DESCRIPTION (d : string) (s : PluginBase) : PluginBase :=
  mkPlugin (OA_TOKEN_DURATION s) (session s) (database s) (BOT_NAME s)
    (handler s) (Some d) (OA_APP_KEY s) (OA_APP_SECRET s)
    (OA_REFRESH_TOKEN s) (OA_ACCESS_TOKEN s) (OA_VALID_UNTIL s).

Definition set_OA_APP_KEY (k : string) (s : PluginBase) : PluginBase :=
  mkPlugin (OA_TOKEN_DURATION s) (session s) (database s) (BOT_NAME s)
    (handler s) (DESCRIPTION s) (Some k) (OA_APP_SECRET s)
    (OA_REFRESH_TOKEN s) (OA_ACCESS_TOKEN s) (OA_VALID_UNTIL s).

Definition set_OA_APP_SECRET (sec : string) (s : PluginBase) : PluginBase :=
  mkPlugin (OA_TOKEN_DURATION s) (session s) (database s) (BOT_NAME s)
    (handler s) (DESCRIPTION s) (OA_APP_KEY s) (Some sec)
    (OA_REFRESH_TOKEN s) (OA_ACCESS_TOKEN s) (OA_VALID_UNTIL s).

Definition set_OA_REFRESH_TOKEN (t : string) (s : PluginBase) : PluginBase :=
  mkPlugin (OA_TOKEN_DURATION s) (session s) (database s) (BOT_NAME s)
    (handler s) (DESCRIPTION s) (OA_APP_KEY s) (OA_APP_SECRET s)
    (Some t) (OA_ACCESS_TOKEN s) (OA_VALID_UNTIL s).

Definition set_config (cfg : list (string * string)) (p : Plugin) : Plugin :=
  mkObject (base p) (Some cfg) (IS_LOGGED_IN p) (SELF_IGNORE p) (USERNAME p)
           (session_holds_False p).

Definition set_IS_LOGGED_IN (b : bool) (p : Plugin) : Plugin :=
  mkObject (base p) (config p) (Some b) (SELF_IGNORE p) (USERNAME p)
           (session_holds_False p).

Definition set_SELF_IGNORE (b : bool) (p : Plugin) : Plugin :=
  mkObject (base p) (config p) (IS_LOGGED_IN p) (Some b) (USERNAME p)
           (session_holds_False p).

Definition set_USERNAME (u : string) (p : Plugin) : Plugin :=
  mkObject (base p) (config p) (IS_LOGGED_IN p) (SELF_IGNORE p)
           (Some (UName u)) (session_holds_False p).

(** [config.get(bot_name, x)] on the section. *)
Fixpoint config_get (cfg : list (string * string)) (x : string)
  : option string :=
  match cfg with
  | [] => None
  | (o, v) :: cfg' => if String.eqb o x then Some v else config_get cfg' x
  end.

(** [config.set(bot_name, x, v)] on the section: the value of an option
    that exists is replaced, a new option goes to the end. *)
Fixpoint config_set (cfg : list (string * string)) (x v : string)
  : list (string * string) :=
  match cfg with
  | [] => [(x, v)]
  | (o, v') :: cfg' =>
      if String.eqb o x then (o, v) :: cfg' else (o, v') :: config_set cfg' x v
  end.

(** The words [getboolean] accepts, compared after lowering. *)
Definition boolean_word (v : string) : option bool :=
  let l := lower v in
  if String.eqb l "1" || String.eqb l "yes" || String.eqb l "true" ||
     String.eqb l "on" then Some true
  else if String.eqb l "0" || String.eqb l "no" || String.eqb l "false" ||
          String.eqb l "off" then Some false
  else None.

Definition get (x : string) : MS string :=
  cfg <- sgetattr config ;;
  match config_get cfg x with
  | Some v => sret v
  | None => sraise (NoOptionError x)
  end.

Definition getboolean (x : string) : MS bool :=
  v <- get x ;;
  match boolean_word v with
  | Some b => sret b
  | None => sraise (ValueError v)
  end.

(** The options of the section, [items] without the values. *)
Definition options_of (cfg : list (string * string)) : list string :=
  map fst cfg.

Definition in_options (x : string) (options : list string) : bool :=
  existsb (String.eqb x) options.

Definition check_values : list string :=
  ["app_key"; "app_secret"; "self_ignore"; "username"].

(** [self.session is False]: a session object is not [False], and where
    the base object has no session the attribute holds [None] or
    [False]. *)
Definition session_is_False (p : Plugin) : bool :=
  match session (self (base p)) with
  | Some _ => false
  | None => session_holds_False p
  end.

Section WithOperator.

Variable E : Env.
Variable O : Operator.

(** [_get_keys_manually], lines 148-169. *)
Definition _get_keys_manually (fuel : nat) : MS unit :=
  k <- sgetattr (fun p => OA_APP_KEY (self (base p))) ;;
  sec <- (if truthy k
          then sec <- sgetattr (fun p => OA_APP_SECRET (self (base p))) ;;
               sassert (truthy sec) ;;
               sret sec
          else sraise (Base AssertionError)) ;;
  semit (SetupBase (EvLogInfo
    "Bot on hold, you need to input some data first to continue!")) ;;
  d <- sgetattr (fun p => DESCRIPTION (self (base p))) ;;
  lift (set_session (mkSession d (k, sec) None)) ;;
  semit (SetupBase (EvNewSession d)) ;;
  p <- sget ;;
  semit (SetupAuthorizeUrl (BOT_NAME (self (base p)))) ;;
  semit (SetupBase (EvLogInfo
    ("Please login with your bot account in reddit and open the following URL: "
     ++ authorize_url O))) ;;
  semit (SetupBase (EvLogInfo
    "After you've opened and accepted the OAuth prompt, enter the full URL it redirects you to.")) ;;
  semit SetupInput ;;
  let code := authorization_code (typed_url O) in
  semit (SetupAccessInformation code) ;;
  match get_access_information O code with
  | inr e => sraise (Base e)
  | inl access_information =>
      assign (set_OA_REFRESH_TOKEN (refresh_token access_information)) ;;
      cfg <- sgetattr config ;;
      sput (set_config (config_set cfg "refresh_token"
                          (refresh_token access_information))) ;;
      semit (SetupConfigSet "refresh_token"
               (refresh_token access_information)) ;;
      semit SetupConfigWrite ;;
      lift (oa_refresh E fuel true)
  end.

(** The body of [__init__(database, handler, bot_name)] from line 84 on,
    for the section [cfg] that [factory_config] read. *)
Definition setup_from_config (fuel : nat) (cfg : list (string * string))
  : MS unit :=
  sput (set_config cfg) ;;
  d <- get "description" ;;
  assign (set_DESCRIPTION d) ;;
  b <- getboolean "is_logged_in" ;;
  sput (set_IS_LOGGED_IN b) ;;
  let options := options_of cfg in
  if b then
    if forallb (fun value => in_options value options) check_values then
      si <- getboolean "self_ignore" ;;
      sput (set_SELF_IGNORE si) ;;
      u <- get "username" ;;
      sput (set_USERNAME u) ;;
      k <- get "app_key" ;;
      assign (set_OA_APP_KEY k) ;;
      sec <- get "app_secret" ;;
      assign (set_OA_APP_SECRET sec) ;;
      (if in_options "refresh_token" options
       then t <- get "refresh_token" ;; assign (set_OA_REFRESH_TOKEN t)
       else _get_keys_manually fuel) ;;
      lift (factory_reddit E fuel)
    else sraise (Base AttributeError)
  else sret tt.

(** [__init__(database, handler, bot_name, setup_from_config=True)]. *)
Definition __init__ (fuel : nat) (db : option DatabaseProvider)
    (h : option RedditRoverHandler) (bot_name : string)
    (cfg : list (string * string)) : sout unit :=
  setup_from_config fuel cfg
    (mkFull (mkWorld (__init__ db h bot_name) 0 0 0 0) None None None None).

(** [self.session.user.name]: the account of the token bound to the
    session; a session without a token has no user. *)
Definition session_user_name (sess : Session) : MS string :=
  match access_credentials sess with
  | Some _ => sret (account O)
  | None => sraise (Base AttributeError)
  end.

(** [integrity_check()], lines 105-124.  [BOT_NAME] and [session] exist on
    every object. *)
Definition integrity_check : MS bool :=
  p <- sget ;;
  sassert (is_set (DESCRIPTION (self (base p))) &&
           is_set (IS_LOGGED_IN p)) ;;
  logged_in <- sgetattr IS_LOGGED_IN ;;
  if logged_in then
    sassert (match USERNAME p with
             | Some (UName name) => truthy name
             | _ => false
             end && is_set (session (self (base p)))) ;;
    sess <- sgetattr (fun p => session (self (base p))) ;;
    user <- session_user_name sess ;;
    u <- sgetattr USERNAME ;;
    match u with
    | UName name =>
        sassert (String.eqb (lower user) (lower name)) ;;
        sret true
    | UFalse => sraise (Base AttributeError)
    end
  else
    sassert (match USERNAME p with
             | Some UFalse => true
             | _ => false
             end && session_is_False p) ;;
    sret true.

End WithOperator.

End Setup.

(** Sections of a configuration file and an operator for the examples. *)
Definition cfg_login : list (string * string) :=
  [("description", "Leafeator"); ("is_logged_in", "True");
   ("self_ignore", "yes"); ("username", "LeafeatorBot");
   ("app_key", "key"); ("app_secret", "secret");
   ("refresh_token", "refresh-0")].

Definition cfg_bootstrap : list (string * string) :=
  [("description", "Leafeator"); ("is_logged_in", "True");
   ("self_ignore", "yes"); ("username", "LeafeatorBot");
   ("app_key", "key"); ("app_secret", "secret")].

Definition cfg_anonymous : list (string * string) :=
  [("description", "Leafeator"); ("is_logged_in", "off")].

Definition cfg_incomplete : list (string * string) :=
  [("description", "Leafeator"); ("is_logged_in", "1");
   ("username", "LeafeatorBot"); ("app_key", "key")].

Definition operator0 : Setup.Operator :=
  {| Setup.authorize_url := "https://platform/authorize";
     Setup.typed_url :=
       "http://127.0.0.1:65010/authorize_callback?state=LeafeatorBot&code=q7";
     Setup.get_access_information := fun code =>
       inl (mkTokens "access-b" ("refresh-" ++ code) "identity");
     Setup.account := "leafeatorbot" |}.

(** An operator whose code the platform rejects. *)
Definition operator_rejected : Setup.Operator :=
  {| Setup.authorize_url := "https://platform/authorize";
     Setup.typed_url := "no marker in here";
     Setup.get_access_information := fun _ => inr HTTPException;
     Setup.account := "leafeatorbot" |}.

(** The events of a setup trace that build a session. *)
Definition is_new_session (e : Setup.setup_event) : bool :=
  match e with
  | Setup.SetupBase (EvNewSession _) => true
  | _ => false
  end.

(** ** A plugin: LeafeatorBot

    [src/plugins/LeafeatorBot.py].  Its base class, an earlier [Base], is
    not among the sources: the calls into it ([oauth.refresh],
    [session._add_comment], the database, the logger) are events, and the
    answers of the database and the failures of the two network calls come
    from an oracle. *)
Module LeafeatorBot.

(** *** The pattern language of [REGEX]

    Literals compared without regard to letter case, the dot-star that
    stays on one line, negative lookahead, sequence and alternative.
    Groups do not matter: only whether there is a match is used. *)
Inductive regex :=
| Lit (text : string)
| DotStar
| NegLook (r : regex)
| Seq (a b : regex)
| Alt (a b : regex).

(** The literal [p] at the head of [s], the case of ASCII letters
    ignored, as [re.IGNORECASE] does on ASCII text; what follows it. *)
Fixpoint lit_ci (p s : string) : option string :=
  match p, s with
  | EmptyString, _ => Some s
  | String a p', String b s' =>
      if Ascii.eqb (lower_ascii a) (lower_ascii b) then lit_ci p' s' else None
  | String _ _, EmptyString => None
  end.

Definition is_newline (c : ascii) : bool := Ascii.eqb c (ascii_of_nat 10).

(** [.*] followed by [k]: some run of characters other than the newline,
    after which [k] accepts. *)
Fixpoint dotstar (s : string) (k : string -> bool) : bool :=
  k s ||
  match s with
  | EmptyString => false
  | String c s' => if is_newline c then false else dotstar s' k
  end.

(** [r] matches at the head of [s] in a way that lets [k] accept the
    rest: the backtracking matcher finds a match exactly when there is
    one. *)
Fixpoint matches (r : regex) (s : string) (k : string -> bool) : bool :=
  match r with
  | Lit p => match lit_ci p s with Some rest => k rest | None => false end
  | DotStar => dotstar s k
  | NegLook a => negb (matches a s (fun _ => true)) && k s
  | Seq a b => matches a s (fun rest => matches b rest k)
  | Alt a b => matches a s k || matches b s k
  end.

(** [r.search(s)] as a truth value: a match at some position. *)
Fixpoint search (r : regex) (s : string) : bool :=
  matches r s (fun _ => true) ||
  match s with
  | EmptyString => false
  | String _ s' => search r s'
  end.

(** The pattern of line 12, compiled with [re.IGNORECASE]. *)
Definition REGEX : regex :=
  Alt (Seq (Lit "ancient")
        (Seq (NegLook (Seq DotStar (Lit "apparition")))
          (Seq DotStar (Seq (Lit "necro") (NegLook (Lit "s"))))))
   (Alt (Seq (Lit "necro")
          (Seq DotStar
            (Seq (Lit "ancient") (NegLook (Seq DotStar (Lit "apparition"))))))
        (Lit "leafeator-bot")).

(** *** Values and things *)

(** What the membership test of line 31 compares: names are strings,
    [display_name.lower] without a call is a bound method. *)
Inductive pyvalue :=
| PyStr (s : string)
| PyBoundMethod (method_name receiver : string).

Definition py_eq (a b : pyvalue) : bool :=
  match a, b with
  | PyStr x, PyStr y => String.eqb x y
  | PyBoundMethod m x, PyBoundMethod n y => String.eqb m n && String.eqb x y
  | _, _ => false
  end.

(** [x in l]. *)
Definition py_in (x : pyvalue) (l : list pyvalue) : bool :=
  existsb (py_eq x) l.

Definition APPROVE : list pyvalue :=
  [PyStr "dota2circlejerk"; PyStr "dota2"; PyStr "dotamasterrace"].

Definition BOT_NAME : string := "LeafeatorBot".

(** A comment or a submission as the methods read it: [author] is [None]
    when the account is deleted; [submission_name] is the name of the
    thread of a comment. *)
Record Thing := mkThing {
  author : option string;
  display_name : string;
  name : string;
  text : string;
  submission_name : string
}.

Inductive call :=
| RetrieveThing (thread_id bot : string)
| LogInfo (message : string)
| OauthRefresh
| AddComment (thing_name response : string)
| InsertIntoStorage (thread_id bot : string).

(** The database's memory of threads, the configured response, and
    whether the two network calls fail. *)
Record Collaborators := mkCollaborators {
  retrieve_thing : string -> string -> bool;
  RESPONSE : string;
  oauth_refresh : option exn;
  add_comment : option exn
}.

Record lout := mkLout {
  lres : result bool;
  ltr : list call
}.

Section WithCollaborators.

Variable C : Collaborators.

(** [general_action(body, thing, is_comment)], lines 30-49. *)
Definition general_action (body : string) (thing : Thing)
    (is_comment : bool) : lout :=
  match author thing with
  | None => mkLout (Raise AttributeError) []
  | Some author_name =>
      if contains "leafeator" (lower author_name) &&
         negb (py_in (PyBoundMethod "lower" (display_name thing)) APPROVE)
      then mkLout (Ok false) []
      else if search REGEX body then
        let thread_id :=
          if negb is_comment then name thing else submission_name thing in
        if retrieve_thing C thread_id BOT_NAME then
          mkLout (Ok false)
            [RetrieveThing thread_id BOT_NAME;
             LogInfo "Skipped - already commented in thread."]
        else
          match oauth_refresh C with
          | Some e =>
              mkLout (Raise e) [RetrieveThing thread_id BOT_NAME; OauthRefresh]
          | None =>
              match add_comment C with
              | Some e =>
                  mkLout (Raise e)
                    [RetrieveThing thread_id BOT_NAME; OauthRefresh;
                     AddComment (name thing) (RESPONSE C)]
              | None =>
                  mkLout (Ok true)
                    [RetrieveThing thread_id BOT_NAME; OauthRefresh;
                     AddComment (name thing) (RESPONSE C);
                     InsertIntoStorage thread_id BOT_NAME]
              end
          end
      else mkLout (Ok false) []
  end.

(** [execute_comment(comment)]. *)
Definition execute_comment (comment : Thing) : lout :=
  general_action (text comment) comment true.

(** [execute_submission(submission)]. *)
Definition execute_submission (submission : Thing) : lout :=
  general_action (text submission) submission false.

End WithCollaborators.

End LeafeatorBot.

(** A database that has seen no thread, and calls that go through. *)
Definition leaf_collaborators : LeafeatorBot.Collaborators :=
  {| LeafeatorBot.retrieve_thing := fun _ _ => false;
     LeafeatorBot.RESPONSE := "Did someone say necro?";
     LeafeatorBot.oauth_refresh := None;
     LeafeatorBot.add_comment := None |}.

(** A comment in a thread of dota2. *)
Definition leaf_comment (author_name : option string) (text : string)
  : LeafeatorBot.Thing :=
  {| LeafeatorBot.author := author_name;
     LeafeatorBot.display_name := "dota2";
     LeafeatorBot.name := "t1_c1";
     LeafeatorBot.text := text;
     LeafeatorBot.submission_name := "t3_s1" |}.

(** No newline in [s]. *)
Fixpoint one_line (s : string) : bool :=
  match s with
  | EmptyString => true
  | String c s' => negb (LeafeatorBot.is_newline c) && one_line s'
  end.

(** The thread a reply is filed under: the submission itself, or the
    submission of the comment. *)
Definition thread_of (thing : LeafeatorBot.Thing) (is_comment : bool)
  : string :=
  if is_comment then LeafeatorBot.submission_name thing
  else LeafeatorBot.name thing.

(** A message whose sender has deleted the account: the platform gives it
    neither an author nor a subreddit. *)
Definition msg_deleted : Message :=
  mkMessage None None false "ban /u/alice".




(** The world in which the attempt number [k] of a retried method starts,
    counting from 0, when every attempt before it failed: each attempt
    starts where the one before it stopped. *)
Fixpoint attempt_start {A} (m : M A) (k : nat) (w : World) : World :=
  match k with
  | O => w
  | S k' => st (m (attempt_start m k' w))
  end.

(** What the attempts before the attempt number [k] emitted. *)
Fixpoint attempts_trace {A} (m : M A) (k : nat) (w : World) : list event :=
  match k with
  | O => []
  | S k' => attempts_trace m k' w ++ tr (m (attempt_start m k' w))
  end.

(** Every attempt before the attempt number [k] ended in [e]. *)
Definition attempts_failed {A} (m : M A) (e : exn) (k : nat) (w : World)
  : Prop :=
  forall j, (j < k)%nat -> res (m (attempt_start m j w)) = Raise e.

(** The platform fails the first fetch of unread messages with
    [HTTPException] and answers the second with [unread]. *)
Definition env_fetch_flaky (unread : list Message) : Env :=
  {| clock := fun k => (1000 + Z.of_nat k)%Z;
     refresh_access_information := fun _ _ => inl tokens1;
     get_unread := fun k =>
       if (k =? 0)%nat then inr HTTPException else inl unread;
     mark_as_read := fun _ _ => None;
     get_info := fun _ => NoThing;
     maxAttempts := 4 |}.

(** An object that declares itself not logged in the way
    [integrity_check] asks for it: it has a description, and [USERNAME]
    and [session] hold [False]. *)
Definition anonymous_object : Setup.Plugin :=
  Setup.mkObject
    (mkWorld (Setup.set_DESCRIPTION "Leafeator" fresh_plugin) 0 0 0 0)
    None (Some false) None (Some Setup.UFalse) true.

(** ** Every operation on an object, and the life of an object *)

(** The calls on the base object among the events of the larger state. *)
Definition base_events (l : list Setup.setup_event) : list event :=
  flat_map (fun e => match e with
                     | Setup.SetupBase b => [b]
                     | _ => []
                     end) l.

(** Every operation of the class on an object that exists: those of
    [run], the bootstrap of the refresh token and the integrity check. *)
Inductive object_operation :=
| call_base (op : operation)
| call__get_keys_manually
| call_integrity_check.

Definition run_object (E : Env) (O : Setup.Operator) (P : PluginContract)
    (fuel : nat) (op : object_operation) : Setup.MS unit :=
  match op with
  | call_base op => Setup.lift (run E P fuel op)
  | call__get_keys_manually => Setup._get_keys_manually E O fuel
  | call_integrity_check =>
      Setup.sbind (Setup.integrity_check O) (fun _ => Setup.sret tt)
  end.

(** Operations called one after the other on the same object, whatever
    each of them ends in: the object at the end and everything emitted. *)
Fixpoint then_run (E : Env) (O : Setup.Operator) (P : PluginContract)
    (fuel : nat) (ops : list object_operation) (p : Setup.Plugin)
  : Setup.Plugin * list Setup.setup_event :=
  match ops with
  | [] => (p, [])
  | op :: ops' =>
      let o := run_object E O P fuel op p in
      let rest := then_run E O P fuel ops' (Setup.sst o) in
      (fst rest, (Setup.str o ++ snd rest)%list)
  end.

(** The life of an object: the constructor, then operations. *)
Definition life (E : Env) (O : Setup.Operator) (P : PluginContract)
    (fuel : nat) (db : option DatabaseProvider)
    (h : option RedditRoverHandler) (bot_name : string)
    (cfg : list (string * string)) (ops : list object_operation)
  : Setup.Plugin * list Setup.setup_event :=
  let born := Setup.__init__ E O fuel db h bot_name cfg in
  let rest := then_run E O P fuel ops (Setup.sst born) in
  (fst rest, (Setup.str born ++ snd rest)%list).

(** A method on the larger state does to the credentials what the
    operations of the base class do. *)
Definition object_keeps_credentials {A} (m : Setup.MS A) : Prop :=
  forall p,
    keeps_credentials (Setup.base p) (base_events (Setup.str (m p)))
                      (Setup.base (Setup.sst (m p))).

(** A plugin whose message handler forces a refresh of the token before
    it hands the message to the standard ban procedure. *)
Definition refreshing_plugin (E : Env) : PluginContract :=
  {| execute_submission := fun _ => ret tt;
     execute_link := fun _ => ret tt;
     execute_titlepost := fun _ => ret tt;
     execute_comment := fun _ => ret tt;
     update_procedure := fun _ _ _ _ _ => ret tt;
     on_new_message := fun m =>
       oa_refresh E 1 true ;;
       standard_ban_procedure m true true |}.

(** Every character of [s] is an ASCII character.  On such text [lower],
    [is_word] and the literal compared without regard to case are what
    [str.lower], the word class under [re.UNICODE] and [re.IGNORECASE] are
    in Python; on other characters they are not, and a statement that
    depends on them is made for ASCII text. *)
Fixpoint ascii_text (s : string) : bool :=
  match s with
  | EmptyString => true
  | String c s' => (nat_of_ascii c <? 128)%nat && ascii_text s'
  end.

(** * Properties *)

Open Scope list_scope.

(** ** The ban pattern *)

Lemma RE_BANMSG_match_kind (s : string) (x : ascii) (y : string) :
  RE_BANMSG_match s = Some (x, y) -> is_ban_kind x = true.
Proof.
  unfold RE_BANMSG_match.
  destruct (literal "ban /" s) as [[|c rest]|]; try discriminate.
  destruct (is_ban_kind c) eqn:Hk; try discriminate.
  destruct (literal "/" rest); try discriminate.
  intros H; inversion H; subst; exact Hk.
Qed.

Lemma RE_BANMSG_search_kind (s : string) (x : ascii) (y : string) :
  RE_BANMSG_search s = Some (x, y) -> is_ban_kind x = true.
Proof.
  induction s as [|c s IH]; simpl.
  - discriminate.
  - destruct (RE_BANMSG_match (String c s)) as [[x' y']|] eqn:Hm.
    + intros H; inversion H; subst. eapply RE_BANMSG_match_kind; eauto.
    + exact IH.
Qed.

Lemma is_ban_kind_cases (x : ascii) :
  is_ban_kind x = true -> x = "r"%char \/ x = "|"%char \/ x = "u"%char.
Proof.
  unfold is_ban_kind; intros H.
  apply orb_true_iff in H; destruct H as [H|H].
  - apply orb_true_iff in H; destruct H as [H|H];
      apply Ascii.eqb_eq in H; auto.
  - apply Ascii.eqb_eq in H; auto.
Qed.

(** For a character of the class, the check of line 225 holds exactly for
    [r] with a community and [u] with a person. *)
Lemma type_consistency_kind (x : ascii) (human : bool) :
  is_ban_kind x = true -> type_consistency x human = true ->
  (x = "r"%char /\ human = false) \/ (x = "u"%char /\ human = true).
Proof.
  intros Hk Ht. destruct (is_ban_kind_cases x Hk) as [-> | [-> | ->]];
    destruct human; simpl in Ht; try discriminate; auto.
Qed.

(** ** standard_ban_procedure *)

Lemma standard_ban_procedure_cases (m : Message) (sa ua : bool) (w : World) :
  (tr (standard_ban_procedure m sa ua w) = [] /\
   st (standard_ban_procedure m sa ua w) = w) \/
  ban_conditions m.
Proof.
  destruct m as [a sr wc b].
  unfold standard_ban_procedure, ban_conditions, sender_is, principal.
  destruct a as [name|]; [|destruct sr as [name|]]; cbn.
  3: { left; split; reflexivity. }
  all: destruct wc; cbn; [left; split; reflexivity|].
  all: destruct (contains (lower name) (lower b)) eqn:Hin; cbn;
    [|left; split; reflexivity].
  all: destruct (RE_BANMSG_search b) as [[X Y]|] eqn:Hre; cbn;
    [|left; split; reflexivity].
  all: destruct (String.eqb (lower name) (lower Y)) eqn:Heq; cbn;
    [|left; split; reflexivity].
  all: apply String.eqb_eq in Heq.
  all: match goal with
       | |- context [type_consistency ?x ?h] =>
           destruct (type_consistency x h) eqn:Htc; cbn;
           [|left; split; reflexivity]
       end.
  all: right; split; [reflexivity|].
  all: apply RE_BANMSG_search_kind in Hre as Hkind.
  all: pose proof (type_consistency_kind _ _ Hkind Htc) as Hk.
  - exists name, true. split; [left; auto|]. split; [exact Hin|].
    exists X, Y. repeat split; auto.
  - exists name, false. split; [right; auto|]. split; [exact Hin|].
    exists X, Y. repeat split; auto.
Qed.

(** The outcome of the procedure where the conditions do not hold: with a
    sender it returns having done nothing; a message with neither author
    nor subreddit stops at line 217. *)
Lemma standard_ban_procedure_otherwise
    (m : Message) (sa ua : bool) (w : World) :
  ~ ban_conditions m ->
  standard_ban_procedure m sa ua w =
    mkOut (match author m, subreddit m with
           | None, None => Raise AttributeError
           | _, _ => Ok tt
           end) w [].
Proof.
  intros Hn. destruct m as [a sr wc b].
  unfold standard_ban_procedure, principal. cbn [author subreddit].
  assert (Hc : forall name human,
             sender_is (mkMessage a sr wc b) name human ->
             (negb wc && contains (lower name) (lower b))%bool = true ->
             forall X Y, RE_BANMSG_search b = Some (X, Y) ->
             (String.eqb (lower name) (lower Y) &&
              type_consistency X human)%bool = true -> False).
  { intros name human Hs Hin X Y Hre Hck. apply Hn.
    apply andb_true_iff in Hin. destruct Hin as [Hwc Hin].
    apply andb_true_iff in Hck. destruct Hck as [Heq Htc].
    apply String.eqb_eq in Heq. apply negb_true_iff in Hwc.
    pose proof (type_consistency_kind _ _ (RE_BANMSG_search_kind _ _ _ Hre)
                  Htc) as Hk.
    split; [exact Hwc|]. exists name, human.
    split; [exact Hs|]. split; [exact Hin|].
    exists X, Y. repeat split; auto. }
  destruct a as [name|]; [|destruct sr as [name|]]; cbn; [| |reflexivity].
  - assert (Hs : sender_is (mkMessage (Some name) sr wc b) name true)
      by (left; auto).
    destruct (negb wc && contains (lower name) (lower b))%bool eqn:Hin;
      [|destruct sr; reflexivity].
    destruct (RE_BANMSG_search b) as [[X Y]|] eqn:Hre;
      [|destruct sr; reflexivity].
    destruct (String.eqb (lower name) (lower Y) &&
              type_consistency X true)%bool eqn:Hck;
      [|destruct sr; reflexivity].
    destruct (Hc name true Hs Hin X Y eq_refl Hck).
  - assert (Hs : sender_is (mkMessage None (Some name) wc b) name false)
      by (right; auto).
    destruct (negb wc && contains (lower name) (lower b))%bool eqn:Hin;
      [|reflexivity].
    destruct (RE_BANMSG_search b) as [[X Y]|] eqn:Hre; [|reflexivity].
    destruct (String.eqb (lower name) (lower Y) &&
              type_consistency X false)%bool eqn:Hck; [|reflexivity].
    destruct (Hc name false Hs Hin X Y eq_refl Hck).
Qed.

(** C1: [standard_ban_procedure] writes to the ban store or replies only
    for a top-level message whose lowered body contains the sender's lowered
    name, from which the ban pattern extracts [(X, Y)] with [X] fitting the
    kind of sender and [Y] equal to the sender's name up to letter case.  In
    every other case it emits nothing at all and leaves the object as it
    was; it then returns normally exactly when the message has an author
    or a subreddit.  A message with neither, as the platform delivers it
    when the sender's account is deleted, ends in [AttributeError] at
    line 217, whatever its body and the toggles: the silent return the
    specification asks for is missed there. *)
Theorem standard_ban_only_when_authorized
    (m : Message) (sa ua : bool) (w : World) :
  ((exists e, In e (tr (standard_ban_procedure m sa ua w)) /\
              is_write_or_reply e = true) ->
   ban_conditions m) /\
  (~ ban_conditions m ->
   tr (standard_ban_procedure m sa ua w) = [] /\
   st (standard_ban_procedure m sa ua w) = w /\
   (author m <> None \/ subreddit m <> None ->
    res (standard_ban_procedure m sa ua w) = Ok tt)) /\
  (author m = None -> subreddit m = None ->
   ~ ban_conditions m /\
   standard_ban_procedure m sa ua w = mkOut (Raise AttributeError) w []).
Proof.
  split; [|split].
  - destruct (standard_ban_procedure_cases m sa ua w) as [[Ht Hs]|Hc].
    + intros [e [Hin _]]. rewrite Ht in Hin. destruct Hin.
    + intros _. exact Hc.
  - intros Hn. rewrite (standard_ban_procedure_otherwise m sa ua w Hn).
    cbn [tr st res]. repeat split.
    intros [Ha|Hs].
    + destruct (author m); [reflexivity | contradiction].
    + destruct (author m); [reflexivity|].
      destruct (subreddit m); [reflexivity | contradiction].
  - intros Ha Hs.
    assert (Hn : ~ ban_conditions m).
    { intros (_ & name & human & [[Hsome _] | (_ & Hsome & _)] & _);
        congruence. }
    split; [exact Hn|].
    rewrite (standard_ban_procedure_otherwise m sa ua w Hn), Ha, Hs.
    reflexivity.
Qed.

Lemma standard_ban_only_when_authorized_witness :
  ((exists e, In e (tr (standard_ban_procedure msg_alice true true
                          fresh_world)) /\
              is_write_or_reply e = true) /\
   ban_conditions msg_alice) /\
  standard_ban_procedure msg_deleted true true fresh_world =
    mkOut (Raise AttributeError) fresh_world [].
Proof.
  assert (H : exists e,
             In e (tr (standard_ban_procedure msg_alice true true
                         fresh_world)) /\
             is_write_or_reply e = true).
  { exists (EvUserBan "alice" "LeafeatorBot"). split.
    - left. reflexivity.
    - reflexivity. }
  split.
  - split.
    + exact H.
    + exact (proj1 (standard_ban_only_when_authorized msg_alice true true
                      fresh_world) H).
  - exact (proj2 (proj2 (proj2 (standard_ban_only_when_authorized
                                  msg_deleted true true fresh_world))
                          eq_refl eq_refl)).
Defined.

(** The scenarios of the specification. *)
Example community_bans_itself :
  tr (standard_ban_procedure
        (mkMessage None (Some "dota2") false "ban /r/dota2") true true
        fresh_world) =
    [EvSubredditBan "dota2" "LeafeatorBot";
     EvReply (mkMessage None (Some "dota2") false "ban /r/dota2")
             (ban_reply_subreddit "dota2" "LeafeatorBot");
     EvLogInfo "Banned /r/dota2 from LeafeatorBot on message request"].
Proof. reflexivity. Qed.

Example person_cannot_ban_as_community :
  tr (standard_ban_procedure
        (mkMessage (Some "alice") None false "ban /r/alice") true true
        fresh_world) = [].
Proof. reflexivity. Qed.

Example comment_reply_is_ignored :
  tr (standard_ban_procedure
        (mkMessage (Some "alice") None true "ban /u/alice") true true
        fresh_world) = [].
Proof. reflexivity. Qed.

(** Each kind of ban needs its own toggle: a user ban is stored only with
    [user_banning_allowed], a subreddit ban only with
    [subreddit_banning_allowed]. *)
Lemma ban_kind_needs_its_toggle (m : Message) (sa ua : bool) (w : World) :
  (forall a b, In (EvUserBan a b) (tr (standard_ban_procedure m sa ua w)) ->
               ua = true) /\
  (forall a b,
     In (EvSubredditBan a b) (tr (standard_ban_procedure m sa ua w)) ->
     sa = true).
Proof.
  destruct m as [a sr wc b].
  unfold standard_ban_procedure, principal, message_author_name,
    message_subreddit_display_name, bind, getattr, get_self, emit, ret,
    raise; simpl.
  destruct a as [name|]; destruct sr as [sub|]; simpl;
    destruct wc; simpl;
    try (split; intros ? ? []).
  all: match goal with
       | |- context [contains ?x ?y] => destruct (contains x y)
       end; simpl; try (split; intros ? ? []).
  all: destruct (RE_BANMSG_search b) as [[X Y]|]; simpl;
    try (split; intros ? ? []).
  all: match goal with
       | |- context [String.eqb ?x ?y] => destruct (String.eqb x y)
       end; simpl; try (split; intros ? ? []).
  all: match goal with
       | |- context [type_consistency ?x ?y] =>
           destruct (type_consistency x y)
       end; simpl; try (split; intros ? ? []).
  all: destruct ua, sa; simpl; try (split; intros ? ? []).
  all: destruct (database (self w)); simpl;
    split; intros ? ? H;
    repeat (destruct H as [H|H]; try discriminate); auto.
Qed.

(** C6: with user banning switched off and subreddit banning left on, a
    request of the person alice that passes both checks falls into the
    subreddit branch: a subreddit ban of dota2 is stored and acknowledged;
    when the message carries no subreddit the same request ends in an
    [AttributeError]. *)
Theorem user_toggle_off_records_subreddit_ban :
  tr (standard_ban_procedure msg_alice_modmail true false fresh_world) =
    [EvSubredditBan "dota2" "LeafeatorBot";
     EvReply msg_alice_modmail (ban_reply_subreddit "dota2" "LeafeatorBot");
     EvLogInfo "Banned /r/dota2 from LeafeatorBot on message request"] /\
  res (standard_ban_procedure msg_alice_modmail true false fresh_world) =
    Ok tt /\
  res (standard_ban_procedure msg_alice true false fresh_world) =
    Raise AttributeError.
Proof. repeat split; reflexivity. Qed.

(** C7: the pattern is matched with the case of the letters as written:
    the request in capitals is not recognised, where its lowered form
    yields [("u", "alice")], and no ban follows from it; the bar is accepted
    as a kind and the identifier may be empty. *)
Theorem RE_BANMSG_is_case_sensitive :
  RE_BANMSG_search "BAN /U/alice" = None /\
  RE_BANMSG_search (lower "BAN /U/alice") = Some ("u"%char, "alice") /\
  tr (standard_ban_procedure msg_alice_caps true true fresh_world) = [] /\
  RE_BANMSG_search "ban /|/alice" = Some ("|"%char, "alice") /\
  RE_BANMSG_search "ban /u/" = Some ("u"%char, EmptyString).
Proof. repeat split; reflexivity. Qed.

(** ** to_update *)

(** C9: with a database present, [to_update] on a comment raises
    [TypeError] and records nothing; on a submission it records the
    fullname, the plugin name and the lifetime. *)
Theorem to_update_comment_raises
    (fullname text : string) (lifetime : Z) :
  res (to_update (Comment fullname text) lifetime fresh_world) =
    Raise TypeError /\
  tr (to_update (Comment fullname text) lifetime fresh_world) = [] /\
  tr (to_update (Submission fullname true text) lifetime fresh_world) =
    [EvInsertIntoUpdate fullname "LeafeatorBot" lifetime].
Proof. repeat split; reflexivity. Qed.

(** ** __test_single_thing *)

Lemma handler_calls_plugin (l : list event) :
  handler_calls (map EvPlugin l) = [].
Proof. induction l as [|e l IH]; simpl; auto. Qed.

(** C5: for every content item the framework calls exactly one handler, the
    one the specification names for it: the comment handler for a comment,
    the self-text handler for a self post with text, the title-only handler
    for a self post without text, the link handler for any other post; the
    call runs that method of the plugin and nothing else. *)
Theorem content_classification
    (E : Env) (P : PluginContract) (thing_id : string) (w : World) :
  match spec_classify (get_info E thing_id) with
  | Some h =>
      __test_single_thing E thing_id w =
        (emit (EvGetInfo thing_id) ;;
         emit (EvExecute h (get_info E thing_id)) ;;
         in_plugin (method_of h (get_info E thing_id))) w /\
      handler_calls (tr (__test_single_thing E thing_id w)) =
        [(h, get_info E thing_id)]
  | None => True
  end.
Proof.
  unfold __test_single_thing.
  destruct (get_info E thing_id) as [fn [|] [|c txt]|fn txt|]; simpl;
    try exact I; (split; [reflexivity|]);
    unfold bind, emit, in_plugin; simpl;
    match goal with
    | |- context [execute_submission ?t ?v] =>
        destruct (execute_submission t v) as [r w1 t1]
    | |- context [execute_titlepost ?t ?v] =>
        destruct (execute_titlepost t v) as [r w1 t1]
    | |- context [execute_link ?t ?v] =>
        destruct (execute_link t v) as [r w1 t1]
    | |- context [execute_comment ?t ?v] =>
        destruct (execute_comment t v) as [r w1 t1]
    end; simpl; rewrite handler_calls_plugin; reflexivity.
Qed.

(** ** Laws of the monad *)

Lemma bind_ok {A B} (m : M A) (f : A -> M B) (w : World) (a : A) :
  res (m w) = Ok a ->
  bind m f w =
    mkOut (res (f a (st (m w)))) (st (f a (st (m w))))
          (tr (m w) ++ tr (f a (st (m w)))).
Proof.
  unfold bind; destruct (m w) as [r w1 t1]; simpl; intros ->.
  destruct (f a w1); reflexivity.
Qed.

Lemma bind_raise {A B} (m : M A) (f : A -> M B) (w : World) (e : exn) :
  res (m w) = Raise e ->
  bind m f w = mkOut (Raise e) (st (m w)) (tr (m w)).
Proof.
  unfold bind; destruct (m w) as [r w1 t1]; simpl; intros ->; reflexivity.
Qed.

Lemma bind_unfinished {A B} (m : M A) (f : A -> M B) (w : World) :
  res (m w) = Unfinished ->
  bind m f w = mkOut Unfinished (st (m w)) (tr (m w)).
Proof.
  unfold bind; destruct (m w) as [r w1 t1]; simpl; intros ->; reflexivity.
Qed.

Lemma try_except_caught {A} (m h : M A) (e : exn) (w : World) :
  res (m w) = Raise e ->
  try_except m e h w =
    mkOut (res (h (st (m w)))) (st (h (st (m w))))
          (tr (m w) ++ tr (h (st (m w)))).
Proof.
  unfold try_except; destruct (m w) as [r w1 t1]; simpl; intros ->.
  replace (exn_eqb e e) with true by (destruct e; reflexivity).
  destruct (h w1); reflexivity.
Qed.

Lemma try_except_passes {A} (m h : M A) (e : exn) (w : World) :
  res (m w) <> Raise e -> try_except m e h w = m w.
Proof.
  unfold try_except; destruct (m w) as [[a|e'|] w1 t1]; simpl;
    intros H; try reflexivity.
  destruct (exn_eqb e' e) eqn:He; try reflexivity.
  exfalso; apply H; destruct e', e; try discriminate; reflexivity.
Qed.

Lemma result_eq_raise {A} (r : result A) (e : exn) :
  r = Raise e \/ r <> Raise e.
Proof.
  destruct r as [a|e'|]; try (right; discriminate).
  destruct e, e'; try (left; reflexivity); right; discriminate.
Qed.

Lemma retry_loop_passes {A} (n : nat) (e : exn) (m : M A) (w : World) :
  res (m w) <> Raise e -> retry_loop n e m w = m w.
Proof.
  destruct n as [|n]; simpl; intros H; [reflexivity|].
  apply try_except_passes; exact H.
Qed.

(** Relations between the world before, the trace and the world after
    that hold of nothing done and compose along a sequence hold of every
    compound built with [bind], [try_except] and the retry loop. *)
Section Closure.

Variable R : World -> list event -> World -> Prop.
Hypothesis R_refl : forall w, R w [] w.
Hypothesis R_trans :
  forall a t1 b t2 c, R a t1 b -> R b t2 c -> R a (t1 ++ t2) c.

Lemma respects_ret {A} (a : A) : respects R (ret a).
Proof. intros w; apply R_refl. Qed.

Lemma respects_raise {A} (e : exn) : respects R (@raise A e).
Proof. intros w; apply R_refl. Qed.

Lemma respects_unfinished {A} : respects R (@unfinished A).
Proof. intros w; apply R_refl. Qed.

Lemma respects_get_self : respects R get_self.
Proof. intros w; apply R_refl. Qed.

Lemma respects_getattr {A} (f : PluginBase -> option A) :
  respects R (getattr f).
Proof. intros w; unfold getattr; destruct (f (self w)); apply R_refl. Qed.

Lemma respects_assert (b : bool) : respects R (assert_ b).
Proof. intros w; destruct b; apply R_refl. Qed.

Lemma respects_bind {A B} (m : M A) (f : A -> M B) :
  respects R m -> (forall a, respects R (f a)) -> respects R (bind m f).
Proof.
  intros Hm Hf w. unfold bind.
  pose proof (Hm w) as H1.
  destruct (m w) as [[a|e|] w1 t1]; simpl in *; try exact H1.
  pose proof (Hf a w1) as H2.
  destruct (f a w1) as [r w2 t2]; simpl in *.
  eapply R_trans; eassumption.
Qed.

Lemma respects_try_except {A} (m h : M A) (e : exn) :
  respects R m -> respects R h -> respects R (try_except m e h).
Proof.
  intros Hm Hh w. unfold try_except.
  pose proof (Hm w) as H1.
  destruct (m w) as [[a|e'|] w1 t1]; simpl in *; try exact H1.
  destruct (exn_eqb e' e); simpl; try exact H1.
  pose proof (Hh w1) as H2.
  destruct (h w1) as [r w2 t2]; simpl in *.
  eapply R_trans; eassumption.
Qed.

Lemma respects_retry_loop {A} (n : nat) (e : exn) (m : M A) :
  respects R m -> respects R (retry_loop n e m).
Proof.
  intros Hm; induction n as [|n IH]; simpl; [exact Hm|].
  apply respects_try_except; assumption.
Qed.

End Closure.

(** One step of a proof that a compound respects a relation whose two
    laws are at hand. *)
Ltac respects_step Hr Ht :=
  first
    [ apply (respects_bind _ Ht); [|intros ?]
    | apply (respects_getattr _ Hr)
    | apply (respects_get_self _ Hr)
    | apply (respects_assert _ Hr)
    | apply (respects_ret _ Hr)
    | apply (respects_raise _ Hr)
    | apply (respects_unfinished _ Hr)
    | apply (respects_try_except _ Ht)
    | apply (respects_retry_loop _ Ht)
    | match goal with
      | |- respects _ (if ?b then _ else _) => destruct b
      | |- respects _ (match ?x with _ => _ end) => destruct x
      end ].

(** ** _oa_refresh *)


Lemma refresh_grows_refl (w : World) : refresh_grows w [] w.
Proof. unfold refresh_grows; lia. Qed.

Lemma refresh_grows_trans (a : World) (t1 : list event) (b : World)
    (t2 : list event) (c : World) :
  refresh_grows a t1 b -> refresh_grows b t2 c ->
  refresh_grows a (t1 ++ t2) c.
Proof. unfold refresh_grows; lia. Qed.

Lemma oa_refresh_body_grows (E : Env) (force : bool) :
  respects refresh_grows (_oa_refresh_body E force).
Proof.
  unfold _oa_refresh_body.
  repeat respects_step refresh_grows_refl refresh_grows_trans.
  intros w; unfold refresh_grows, session_refresh_access_information.
  destruct (session (self w)); simpl; [|lia].
  match goal with
  | |- context [refresh_access_information ?e ?k ?t] =>
      destruct (refresh_access_information e k t)
  end; simpl; lia.
Qed.

Lemma oa_refresh_internal_grows (E : Env) (force : bool) :
  respects refresh_grows (_oa_refresh E force).
Proof.
  unfold _oa_refresh, retry.
  apply (respects_retry_loop _ refresh_grows_trans).
  apply oa_refresh_body_grows.
Qed.








(** ** oa_refresh and factory_reddit *)

Lemma ready_for_login_fields (s : PluginBase) :
  ready_for_login s = true ->
  exists tok sess d h k sec,
    OA_REFRESH_TOKEN s = Some tok /\ session s = Some sess /\
    DESCRIPTION s = Some d /\ handler s = Some h /\
    OA_APP_KEY s = Some k /\ OA_APP_SECRET s = Some sec /\
    truthy tok = true /\ truthy d = true /\ truthy k = true /\
    truthy sec = true.
Proof.
  unfold ready_for_login.
  destruct (OA_REFRESH_TOKEN s) as [tok|]; [|discriminate].
  destruct (session s) as [sess|]; [|discriminate].
  destruct (DESCRIPTION s) as [d|]; [|discriminate].
  destruct (handler s) as [h|]; [|discriminate].
  destruct (OA_APP_KEY s) as [k|]; [|discriminate].
  destruct (OA_APP_SECRET s) as [sec|]; [|discriminate].
  intros H. repeat (apply andb_true_iff in H; destruct H as [H ?]).
  exists tok, sess, d, h, k, sec. repeat split; auto.
Qed.

Lemma forced_attempt_fails (E : Env) (w : World) :
  platform_down E -> ready_for_login (self w) = true ->
  _oa_refresh_body E true w =
    mkOut (Raise HTTPException)
      (mkWorld (self w) (n_time w) (S (n_refresh w)) (n_unread w) (n_mark w))
      [EvRefreshFailed HTTPException].
Proof.
  intros Hdown Hready.
  destruct (ready_for_login_fields _ Hready)
    as (tok & sess & d & h & k & sec & Ht & Hs & _ & _ & _ & _ & Htr & _).
  destruct w as [s nt nr nu nm]; simpl in *.
  unfold _oa_refresh_body, bind, getattr, get_self,
    session_refresh_access_information; simpl.
  rewrite Ht; simpl. rewrite Htr, Hs; simpl. rewrite Hs; simpl.
  rewrite (Hdown nr tok); reflexivity.
Qed.

Lemma forced_attempts_fail (E : Env) (n : nat) :
  platform_down E ->
  forall w, ready_for_login (self w) = true ->
  res (retry_loop n HTTPException (_oa_refresh_body E true) w) =
    Raise HTTPException /\
  self (st (retry_loop n HTTPException (_oa_refresh_body E true) w)) =
    self w /\
  n_refresh (st (retry_loop n HTTPException (_oa_refresh_body E true) w)) =
    (n_refresh w + S n)%nat.
Proof.
  intros Hdown. induction n as [|n IH]; intros w Hready; simpl.
  - rewrite (forced_attempt_fails E w Hdown Hready); simpl.
    repeat split; lia.
  - rewrite try_except_caught
      by (rewrite (forced_attempt_fails E w Hdown Hready); reflexivity).
    simpl. rewrite (forced_attempt_fails E w Hdown Hready); simpl.
    destruct (IH (mkWorld (self w) (n_time w) (S (n_refresh w))
                          (n_unread w) (n_mark w)) Hready)
      as [H1 [H2 H3]].
    simpl in *. rewrite H1, H2, H3. repeat split; lia.
Qed.

Lemma factory_reddit_session_ready (E : Env) (w : World) :
  ready_for_login (self w) = true ->
  res (factory_reddit_session w) = Ok tt /\
  ready_for_login (self (st (factory_reddit_session w))) = true /\
  n_refresh (st (factory_reddit_session w)) = n_refresh w.
Proof.
  intros Hready.
  destruct (ready_for_login_fields _ Hready)
    as (tok & sess & d & h & k & sec &
        Ht & Hs & Hd & Hh & Hk & Hsec & Htr & Hdt & Hkt & Hsect).
  destruct w as [s nt nr nu nm]; simpl in *.
  unfold factory_reddit_session, bind, getattr, get_self, set_session,
    set_self, emit; simpl.
  rewrite Hd; simpl. rewrite Hdt, Hh; simpl. rewrite Hk; simpl.
  rewrite Hkt; simpl. rewrite Hsec; simpl. rewrite Hsect; simpl.
  repeat split.
  unfold ready_for_login; simpl.
  rewrite Ht, Hd, Hh, Hk, Hsec, Htr, Hdt, Hkt, Hsect; reflexivity.
Qed.

(** While the platform is down, a forced [oa_refresh] on an object that is
    ready for login is still running at every depth of nesting, having
    made a full round of attempts per level. *)
Lemma oa_refresh_never_returns (E : Env) (fuel : nat) :
  platform_down E ->
  forall w, ready_for_login (self w) = true ->
  res (oa_refresh E fuel true w) = Unfinished /\
  n_refresh (st (oa_refresh E fuel true w)) =
    (n_refresh w + fuel * attempts E)%nat.
Proof.
  intros Hdown. induction fuel as [|fuel IH]; intros w Hready; simpl.
  - split; [reflexivity | lia].
  - pose proof (forced_attempts_fail E (maxAttempts E - 1) Hdown w Hready)
      as HF.
    change (retry_loop (maxAttempts E - 1) HTTPException
              (_oa_refresh_body E true) w)
      with (_oa_refresh E true w) in HF.
    destruct HF as [Hres [Hself Hcount]].
    rewrite (try_except_caught _ _ _ _ Hres).
    set (w1 := st (_oa_refresh E true w)) in *.
    assert (Hready1 : ready_for_login (self w1) = true)
      by (rewrite Hself; exact Hready).
    destruct (factory_reddit_session_ready E w1 Hready1)
      as [Hf [Hready2 Hcount2]].
    rewrite (bind_ok _ _ w1 tt Hf).
    destruct (IH (st (factory_reddit_session w1)) Hready2) as [Hu Hn].
    rewrite (bind_unfinished _ _ _ Hu); simpl.
    split; [reflexivity|].
    rewrite Hn, Hcount2, Hcount. unfold attempts. lia.
Qed.

(** C2: with the platform down, [oa_refresh(force=True)] on a configured
    object does not come back with the failure after one rebuilt session:
    whatever depth of nesting is allowed, the call is still running, and
    the number of refresh attempts made grows with that depth, four per
    level. *)
Theorem oa_refresh_recursion_unbounded (fuel : nat) :
  res (oa_refresh env_down fuel true configured_world) = Unfinished /\
  n_refresh (st (oa_refresh env_down fuel true configured_world)) =
    (fuel * 4)%nat.
Proof.
  assert (Hdown : platform_down env_down) by (intros k token; reflexivity).
  destruct (oa_refresh_never_returns env_down fuel Hdown configured_world
              eq_refl) as [H1 H2].
  split; [exact H1 | exact H2].
Qed.

(** ** get_unread_messages *)

Lemma out_eta {A} (o : out A) : mkOut (res o) (st o) (tr o) = o.
Proof. destruct o; reflexivity. Qed.

Lemma top_level_app (a b : list event) :
  top_level (a ++ b) = top_level a ++ top_level b.
Proof.
  induction a as [|e a IH]; simpl; [reflexivity|].
  destruct e; simpl; rewrite IH; reflexivity.
Qed.

Lemma top_level_plugin (l : list event) : top_level (map EvPlugin l) = [].
Proof. induction l as [|e l IH]; simpl; auto. Qed.

(** One turn of the loop: the message is marked read first, and handed to
    the plugin exactly when marking did not raise. *)
Lemma unread_step_shape (E : Env) (P : PluginContract)
    (m : Message) (w : World) :
  match mark_as_read E (n_mark w) m with
  | Some e =>
      unread_step E m w = mkOut (Raise e) (after_mark w) [EvMarkAsRead m]
  | None =>
      unread_step E m w =
        mkOut (res (on_new_message m (after_mark w)))
              (st (on_new_message m (after_mark w)))
              (EvMarkAsRead m :: EvOnNewMessage m ::
               map EvPlugin (tr (on_new_message m (after_mark w))))
  end.
Proof.
  unfold unread_step, bind, msg_mark_as_read, emit, in_plugin, after_mark.
  destruct (mark_as_read E (n_mark w) m) as [e|]; simpl; [reflexivity|].
  destruct (on_new_message m _) as [r w1 t1]; reflexivity.
Qed.

Lemma unread_step_top_level (E : Env) (P : PluginContract)
    (m : Message) (w : World) :
  (res (unread_step E m w) = Ok tt ->
   top_level (tr (unread_step E m w)) = [EvMarkAsRead m; EvOnNewMessage m]) /\
  exists n, top_level (tr (unread_step E m w)) =
            firstn n [EvMarkAsRead m; EvOnNewMessage m].
Proof.
  pose proof (unread_step_shape E P m w) as H.
  destruct (mark_as_read E (n_mark w) m) as [e|]; rewrite H; simpl.
  - split; [discriminate|]. exists 1%nat; reflexivity.
  - rewrite top_level_plugin. split; [reflexivity|].
    exists 2%nat; reflexivity.
Qed.

(** The loop over [pre ++ post] once the turns of [pre] went through. *)
Lemma message_loop_app (E : Env) (P : PluginContract)
    (pre post : list Message) :
  forall w, res (message_loop E pre w) = Ok tt ->
  message_loop E (pre ++ post) w =
    mkOut (res (message_loop E post (st (message_loop E pre w))))
          (st (message_loop E post (st (message_loop E pre w))))
          (tr (message_loop E pre w) ++
           tr (message_loop E post (st (message_loop E pre w)))).
Proof.
  induction pre as [|a pre IH]; intros w Hok; simpl.
  - rewrite out_eta; reflexivity.
  - simpl in Hok. unfold bind in *.
    destruct (unread_step E a w) as [[[]|e|] w1 t1]; simpl in *;
      try discriminate.
    assert (Hok1 : res (message_loop E pre w1) = Ok tt)
      by (destruct (message_loop E pre w1); exact Hok).
    rewrite (IH w1 Hok1).
    destruct (message_loop E pre w1) as [r2 w2 t2]; simpl.
    rewrite app_assoc; reflexivity.
Qed.

(** Whatever happens in the loop, the framework's own calls are an initial
    part of: mark the first message, hand it over, mark the second, hand it
    over, and so on; all of it when the loop runs to its end. *)
Lemma message_loop_top_level (E : Env) (P : PluginContract)
    (msgs : list Message) :
  forall w,
  (res (message_loop E msgs w) = Ok tt ->
   top_level (tr (message_loop E msgs w)) = marked_then_dispatched msgs) /\
  exists n, top_level (tr (message_loop E msgs w)) =
            firstn n (marked_then_dispatched msgs).
Proof.
  induction msgs as [|m msgs IH]; intros w; simpl.
  - split; [reflexivity|]. exists 0%nat; reflexivity.
  - destruct (unread_step_top_level E P m w) as [Hfull [k Hk]].
    unfold bind.
    destruct (unread_step E m w) as [[[]|e|] w1 t1]; simpl in *.
    + destruct (IH w1) as [IHfull [n IHn]].
      destruct (message_loop E msgs w1) as [r2 w2 t2]; simpl in *.
      rewrite top_level_app, (Hfull eq_refl). simpl. split.
      * intros Hr. rewrite (IHfull Hr). reflexivity.
      * exists (S (S n)). simpl. rewrite IHn. reflexivity.
    + split; [discriminate|].
      destruct k as [|[|k]]; [exists 0%nat|exists 1%nat|exists 2%nat];
        simpl in *; try rewrite firstn_nil in Hk; exact Hk.
    + split; [discriminate|].
      destruct k as [|[|k]]; [exists 0%nat|exists 1%nat|exists 2%nat];
        simpl in *; try rewrite firstn_nil in Hk; exact Hk.
Qed.

(** What [get_unread] answers decides how the [try] block starts. *)
Lemma unread_block_shape (E : Env) (P : PluginContract) (w : World)
    (sess : Session) :
  session (self w) = Some sess ->
  match get_unread E (n_unread w) with
  | inl msgs =>
      unread_block E w =
        mkOut (res (message_loop E msgs (after_fetch w)))
              (st (message_loop E msgs (after_fetch w)))
              (EvGetUnread :: tr (message_loop E msgs (after_fetch w)))
  | inr e => unread_block E w = mkOut (Raise e) (after_fetch w) [EvGetUnread]
  end.
Proof.
  intros Hs. unfold unread_block, bind, session_get_unread, after_fetch.
  rewrite Hs.
  destruct (get_unread E (n_unread w)) as [msgs|e]; [|reflexivity].
  destruct (message_loop E msgs _) as [r w1 t1]; reflexivity.
Qed.

(** An [AssertionError] never leaves the [try] block. *)
Lemma unread_try_never_asserts (E : Env) (P : PluginContract) (w : World) :
  res (unread_try E w) <> Raise AssertionError.
Proof.
  unfold unread_try, try_except, ret.
  destruct (unread_block E w) as [[a|e|] w1 t1]; simpl; try discriminate.
  destruct e; simpl; discriminate.
Qed.

Lemma unread_try_swallows (E : Env) (P : PluginContract) (w : World) :
  res (unread_block E w) = Raise AssertionError ->
  unread_try E w =
    mkOut (Ok tt) (st (unread_block E w)) (tr (unread_block E w)).
Proof.
  intros H. unfold unread_try.
  rewrite (try_except_caught _ _ _ _ H). unfold ret; simpl.
  rewrite app_nil_r; reflexivity.
Qed.

Lemma unread_try_passes (E : Env) (P : PluginContract) (w : World) :
  res (unread_block E w) <> Raise AssertionError ->
  unread_try E w = unread_block E w.
Proof. intros H. unfold unread_try. apply try_except_passes; exact H. Qed.








Lemma unread_step_raises (E : Env) (P : PluginContract)
    (m : Message) (w : World) :
  (mark_as_read E (n_mark w) m = Some AssertionError ->
   res (unread_step E m w) = Raise AssertionError /\
   tr (unread_step E m w) = [EvMarkAsRead m]) /\
  (mark_as_read E (n_mark w) m = None ->
   res (on_new_message m (after_mark w)) = Raise AssertionError ->
   res (unread_step E m w) = Raise AssertionError /\
   top_level (tr (unread_step E m w)) =
     [EvMarkAsRead m; EvOnNewMessage m]).
Proof.
  pose proof (unread_step_shape E P m w) as H.
  split.
  - intros Hm. rewrite Hm in H. rewrite H; simpl. split; reflexivity.
  - intros Hm Hh. rewrite Hm in H. rewrite H; simpl.
    rewrite top_level_plugin. split; [exact Hh | reflexivity].
Qed.

(** The loop stops at the first turn that raises: nothing of the messages
    behind it shows in the trace. *)
Lemma message_loop_stops (E : Env) (P : PluginContract)
    (pre post : list Message) (m : Message) (w : World) (e : exn) :
  res (message_loop E pre w) = Ok tt ->
  res (unread_step E m (st (message_loop E pre w))) = Raise e ->
  res (message_loop E (pre ++ m :: post) w) = Raise e /\
  tr (message_loop E (pre ++ m :: post) w) =
    tr (message_loop E pre w) ++
    tr (unread_step E m (st (message_loop E pre w))) /\
  st (message_loop E (pre ++ m :: post) w) =
    st (unread_step E m (st (message_loop E pre w))).
Proof.
  intros Hpre Hstep.
  rewrite (message_loop_app E P pre (m :: post) w Hpre); simpl.
  rewrite (bind_raise _ _ _ _ Hstep); simpl.
  repeat split; reflexivity.
Qed.

(** ** The retry decorator, attempt by attempt *)

Lemma attempt_start_shift {A} (m : M A) (k : nat) (w : World) :
  attempt_start m k (st (m w)) = attempt_start m (S k) w.
Proof.
  induction k as [|k IH]; [reflexivity|].
  cbn [attempt_start] in *. rewrite IH. reflexivity.
Qed.

Lemma attempts_trace_shift {A} (m : M A) (k : nat) (w : World) :
  tr (m w) ++ attempts_trace m k (st (m w)) = attempts_trace m (S k) w.
Proof.
  induction k as [|k IH].
  - cbn. rewrite app_nil_r. reflexivity.
  - cbn [attempts_trace] in *. rewrite app_assoc, IH.
    rewrite attempt_start_shift. reflexivity.
Qed.

(** After [k] failed attempts the decorated method goes on from where the
    last of them stopped, with the attempts that are left. *)
Lemma retry_loop_after_failures {A} (e : exn) (m : M A) (k : nat) :
  forall n w,
  (k <= n)%nat -> attempts_failed m e k w ->
  retry_loop n e m w =
    mkOut (res (retry_loop (n - k) e m (attempt_start m k w)))
          (st (retry_loop (n - k) e m (attempt_start m k w)))
          (attempts_trace m k w ++
           tr (retry_loop (n - k) e m (attempt_start m k w))).
Proof.
  induction k as [|k IH]; intros n w Hk Hfail.
  - rewrite Nat.sub_0_r. cbn. rewrite out_eta. reflexivity.
  - destruct n as [|n]; [lia|].
    assert (H0 : res (m w) = Raise e) by (apply (Hfail 0%nat); lia).
    cbn [retry_loop]. rewrite (try_except_caught _ _ _ _ H0).
    assert (Hrest : attempts_failed m e k (st (m w))).
    { intros j Hj. rewrite attempt_start_shift. apply Hfail. lia. }
    rewrite (IH n (st (m w)) ltac:(lia) Hrest).
    cbn [res st tr Nat.sub].
    rewrite attempt_start_shift, app_assoc, attempts_trace_shift.
    reflexivity.
Qed.

(** Whatever the decorated method ends in, other than the exception
    retried, is what one of its attempts ended in, all attempts before it
    having failed. *)
Lemma retry_loop_outcome {A} (e : exn) (m : M A) (n : nat) :
  forall w,
  exists k, (k <= n)%nat /\ attempts_failed m e k w /\
            (res (retry_loop n e m w) <> Raise e ->
             retry_loop n e m w =
               mkOut (res (m (attempt_start m k w)))
                     (st (m (attempt_start m k w)))
                     (attempts_trace m k w ++
                      tr (m (attempt_start m k w)))).
Proof.
  induction n as [|n IH]; intros w.
  - exists 0%nat. split; [lia|]. split; [intros j Hj; lia|].
    intros _. cbn. rewrite out_eta. reflexivity.
  - destruct (result_eq_raise (res (m w)) e) as [H0|H0].
    + destruct (IH (st (m w))) as (k & Hk & Hfail & Hout).
      exists (S k). split; [lia|]. split.
      * intros [|j] Hj; [exact H0|].
        rewrite <- attempt_start_shift. apply Hfail. lia.
      * cbn [retry_loop]. rewrite (try_except_caught _ _ _ _ H0).
        cbn [res]. intros Hne. rewrite (Hout Hne). cbn [res st tr].
        rewrite attempt_start_shift, app_assoc, attempts_trace_shift.
        reflexivity.
    + exists 0%nat. split; [lia|]. split; [intros j Hj; lia|].
      intros _. cbn [retry_loop attempt_start attempts_trace app].
      rewrite (try_except_passes _ _ _ _ H0), out_eta. reflexivity.
Qed.

(** The body of [get_unread_messages] ends in an [AssertionError] only
    when the credential refresh, which runs outside the [try], did. *)
Lemma unread_body_asserts_in_refresh (E : Env) (P : PluginContract)
    (fuel : nat) (w : World) :
  res (get_unread_messages_body E fuel w) = Raise AssertionError ->
  res (oa_refresh E fuel false w) = Raise AssertionError.
Proof.
  unfold get_unread_messages_body. intros H.
  destruct (res (oa_refresh E fuel false w)) as [[]|e|] eqn:Hr.
  - rewrite (bind_ok _ _ _ _ Hr) in H. cbn [res] in H.
    destruct (unread_try_never_asserts E P _ H).
  - rewrite (bind_raise _ _ _ _ Hr) in H. exact H.
  - rewrite (bind_unfinished _ _ _ Hr) in H. discriminate H.
Qed.

(** C10: an [AssertionError] raised while fetching the unread messages,
    while marking a message read, or inside the plugin's [on_new_message]
    never leaves [get_unread_messages], at whichever attempt of the
    decorated method it is raised: the method returns normally, and the
    messages behind the one at which it was raised are neither marked nor
    handed over.  When the method does end in an [AssertionError], the
    credential refresh of its last attempt, which runs outside the [try],
    raised it. *)
Theorem assertion_errors_are_swallowed
    (E : Env) (P : PluginContract) (fuel : nat) (w : World) :
  res (unread_try E w) <> Raise AssertionError /\
  (forall k,
     (k <= maxAttempts E - 1)%nat ->
     attempts_failed (get_unread_messages_body E fuel) HTTPException k w ->
     res (oa_refresh E fuel false
            (attempt_start (get_unread_messages_body E fuel) k w)) = Ok tt ->
     res (unread_block E
            (st (oa_refresh E fuel false
                   (attempt_start (get_unread_messages_body E fuel) k w)))) =
       Raise AssertionError ->
     get_unread_messages E fuel w =
       mkOut (Ok tt)
         (st (unread_block E
                (st (oa_refresh E fuel false
                       (attempt_start (get_unread_messages_body E fuel)
                                      k w)))))
         (attempts_trace (get_unread_messages_body E fuel) k w ++
          tr (oa_refresh E fuel false
                (attempt_start (get_unread_messages_body E fuel) k w)) ++
          tr (unread_block E
                (st (oa_refresh E fuel false
                       (attempt_start (get_unread_messages_body E fuel)
                                      k w)))))) /\
  (res (get_unread_messages E fuel w) = Raise AssertionError ->
   exists k,
     (k <= maxAttempts E - 1)%nat /\
     attempts_failed (get_unread_messages_body E fuel) HTTPException k w /\
     res (oa_refresh E fuel false
            (attempt_start (get_unread_messages_body E fuel) k w)) =
       Raise AssertionError) /\
  (res (oa_refresh E fuel false w) = Ok tt ->
   res (unread_block E (st (oa_refresh E fuel false w))) =
     Raise AssertionError ->
   res (get_unread_messages E fuel w) = Ok tt /\
   tr (get_unread_messages E fuel w) =
     tr (oa_refresh E fuel false w) ++
     tr (unread_block E (st (oa_refresh E fuel false w)))) /\
  (forall sess,
     session (self w) = Some sess ->
     get_unread E (n_unread w) = inr AssertionError ->
     res (unread_block E w) = Raise AssertionError /\
     res (unread_try E w) = Ok tt /\
     tr (unread_try E w) = [EvGetUnread]) /\
  (forall sess pre m post,
     session (self w) = Some sess ->
     get_unread E (n_unread w) = inl (pre ++ m :: post) ->
     res (message_loop E pre (after_fetch w)) = Ok tt ->
     (mark_as_read E (n_mark (st (message_loop E pre (after_fetch w)))) m =
        Some AssertionError \/
      (mark_as_read E (n_mark (st (message_loop E pre (after_fetch w)))) m =
         None /\
       res (on_new_message m
              (after_mark (st (message_loop E pre (after_fetch w))))) =
         Raise AssertionError)) ->
     res (unread_block E w) = Raise AssertionError /\
     res (unread_try E w) = Ok tt /\
     top_level (tr (unread_try E w)) =
       EvGetUnread :: marked_then_dispatched pre ++
       match mark_as_read E
               (n_mark (st (message_loop E pre (after_fetch w)))) m with
       | Some _ => [EvMarkAsRead m]
       | None => [EvMarkAsRead m; EvOnNewMessage m]
       end).
Proof.
  assert (Hattempt : forall w',
            res (oa_refresh E fuel false w') = Ok tt ->
            res (unread_block E (st (oa_refresh E fuel false w'))) =
              Raise AssertionError ->
            get_unread_messages_body E fuel w' =
              mkOut (Ok tt)
                (st (unread_block E (st (oa_refresh E fuel false w'))))
                (tr (oa_refresh E fuel false w') ++
                 tr (unread_block E (st (oa_refresh E fuel false w'))))).
  { intros w' Hok Hblock. unfold get_unread_messages_body.
    rewrite (bind_ok _ _ _ _ Hok).
    rewrite (unread_try_swallows E P _ Hblock). reflexivity. }
  split; [apply unread_try_never_asserts|].
  split; [|split; [|split; [|split]]].
  - intros k Hk Hfail Hok Hblock.
    unfold get_unread_messages, retry.
    rewrite (retry_loop_after_failures HTTPException _ k _ w Hk Hfail).
    rewrite retry_loop_passes; rewrite (Hattempt _ Hok Hblock);
      [reflexivity | discriminate].
  - intros Hres. unfold get_unread_messages, retry in Hres.
    destruct (retry_loop_outcome HTTPException
                (get_unread_messages_body E fuel) (maxAttempts E - 1) w)
      as (k & Hk & Hfail & Hout).
    exists k. split; [exact Hk|]. split; [exact Hfail|].
    apply (unread_body_asserts_in_refresh E P).
    rewrite Hout in Hres; [exact Hres|].
    rewrite Hres. discriminate.
  - intros Hok Hblock.
    unfold get_unread_messages, retry.
    rewrite retry_loop_passes; rewrite (Hattempt _ Hok Hblock); simpl.
    + split; reflexivity.
    + discriminate.
  - intros sess Hs Hget.
    pose proof (unread_block_shape E P w sess Hs) as Hblock.
    rewrite Hget in Hblock.
    assert (Hr : res (unread_block E w) = Raise AssertionError)
      by (rewrite Hblock; reflexivity).
    split; [exact Hr|].
    rewrite (unread_try_swallows E P w Hr), Hblock; simpl.
    split; reflexivity.
  - intros sess pre m post Hs Hget Hpre Hcase.
    pose proof (unread_block_shape E P w sess Hs) as Hblock.
    rewrite Hget in Hblock.
    set (w' := st (message_loop E pre (after_fetch w))) in *.
    destruct (unread_step_raises E P m w') as [Hmark Hhandler].
    destruct (message_loop_top_level E P pre (after_fetch w)) as [Hfull _].
    assert (Hstep : res (unread_step E m w') = Raise AssertionError /\
              top_level (tr (unread_step E m w')) =
              match mark_as_read E (n_mark w') m with
              | Some _ => [EvMarkAsRead m]
              | None => [EvMarkAsRead m; EvOnNewMessage m]
              end).
    { destruct Hcase as [Hm|[Hm Hh]].
      - destruct (Hmark Hm) as [H1 H2]. rewrite Hm, H2. split; auto.
      - destruct (Hhandler Hm Hh) as [H1 H2]. rewrite Hm, H2. split; auto. }
    destruct Hstep as [Hstep Hshape].
    destruct (message_loop_stops E P pre post m (after_fetch w)
                AssertionError Hpre Hstep) as [Hres [Htr _]].
    assert (Hr : res (unread_block E w) = Raise AssertionError)
      by (rewrite Hblock; simpl; exact Hres).
    split; [exact Hr|].
    rewrite (unread_try_swallows E P w Hr), Hblock; simpl.
    split; [reflexivity|].
    rewrite Htr, top_level_app, (Hfull Hpre). fold w'.
    rewrite Hshape. reflexivity.
Qed.

Lemma assertion_errors_are_swallowed_witness :
  @get_unread_messages (env_fetch_flaky [msg_reply; msg_alice])
     strict_plugin 1 (authenticated_world 5000) =
    mkOut (Ok tt)
      (mkWorld (authenticated_plugin 5000) 2 0 2 1)
      [EvTime 1000; EvGetUnread;
       EvTime 1001; EvGetUnread;
       EvMarkAsRead msg_reply; EvOnNewMessage msg_reply].
Proof.
  destruct (assertion_errors_are_swallowed
              (env_fetch_flaky [msg_reply; msg_alice]) strict_plugin 1
              (authenticated_world 5000)) as [_ [H _]].
  assert (Hfail : attempts_failed
            (@get_unread_messages_body
               (env_fetch_flaky [msg_reply; msg_alice]) strict_plugin 1)
            HTTPException 1 (authenticated_world 5000)).
  { intros [|j] Hj; [reflexivity | lia]. }
  rewrite (H 1%nat ltac:(cbn; lia) Hfail eq_refl eq_refl).
  reflexivity.
Defined.

(** * Further properties *)

(** ** Text *)

Lemma append_assoc (a b c : string) :
  ((a ++ b) ++ c)%string = (a ++ (b ++ c))%string.
Proof. induction a as [|x a IH]; simpl; [reflexivity|]. rewrite IH; reflexivity. Qed.

Lemma append_empty_r (a : string) : (a ++ EmptyString)%string = a.
Proof. induction a as [|x a IH]; simpl; [reflexivity|]. rewrite IH; reflexivity. Qed.

Lemma lower_append (a b : string) :
  lower (a ++ b) = (lower a ++ lower b)%string.
Proof. induction a as [|x a IH]; simpl; [reflexivity|]. rewrite IH; reflexivity. Qed.

Lemma prefix_empty (s : string) : prefix EmptyString s = true.
Proof. destruct s; reflexivity. Qed.

Lemma prefix_append (p s : string) : prefix p (p ++ s) = true.
Proof.
  induction p as [|x p IH]; simpl; [apply prefix_empty|].
  destruct (ascii_dec x x) as [_|Hn]; [exact IH | contradiction].
Qed.

Lemma prefix_split (p s : string) :
  prefix p s = true -> exists rest, s = (p ++ rest)%string.
Proof.
  revert s. induction p as [|x p IH]; intros s H.
  - exists s; reflexivity.
  - destruct s as [|y s]; [discriminate|]. simpl in H.
    destruct (ascii_dec x y) as [->|_]; [|discriminate].
    destruct (IH s H) as [rest ->]. exists rest; reflexivity.
Qed.

Lemma contains_prefix (n s : string) :
  prefix n s = true -> contains n s = true.
Proof.
  intros H. destruct s.
  - destruct n; [reflexivity | discriminate].
  - cbn [contains]; rewrite H; reflexivity.
Qed.

Lemma contains_append (n pre post : string) :
  contains n (pre ++ (n ++ post)) = true.
Proof.
  induction pre as [|x pre IH]; cbn [append contains].
  - apply contains_prefix, prefix_append.
  - destruct (prefix n (String x (pre ++ (n ++ post)))); [reflexivity|].
    exact IH.
Qed.

Lemma contains_split (n s : string) :
  contains n s = true ->
  exists pre post, s = (pre ++ (n ++ post))%string.
Proof.
  induction s as [|x s IH]; cbn [contains].
  - destruct (prefix n EmptyString) eqn:Hp; [|discriminate].
    intros _. destruct (prefix_split _ _ Hp) as [rest ->].
    exists EmptyString, rest; reflexivity.
  - destruct (prefix n (String x s)) eqn:Hp.
    + intros _. destruct (prefix_split _ _ Hp) as [rest ->].
      exists EmptyString, rest; reflexivity.
    + intros H. destruct (IH H) as (pre & post & ->).
      exists (String x pre), post; reflexivity.
Qed.

Lemma is_word_lower (c : ascii) : is_word (lower_ascii c) = is_word c.
Proof.
  destruct c as [[] [] [] [] [] [] [] []]; reflexivity.
Qed.

Lemma all_word_lower (s : string) : all_word (lower s) = all_word s.
Proof.
  induction s as [|c s IH]; simpl; [reflexivity|].
  rewrite is_word_lower, IH; reflexivity.
Qed.

(** ** The ban pattern, once more *)

Lemma literal_split (p s rest : string) :
  literal p s = Some rest -> s = (p ++ rest)%string.
Proof.
  revert s. induction p as [|a p IH]; intros s H; simpl in *.
  - inversion H; reflexivity.
  - destruct s as [|b s]; [discriminate|].
    destruct (Ascii.eqb a b) eqn:He; [|discriminate].
    apply Ascii.eqb_eq in He; subst b.
    rewrite (IH s H); reflexivity.
Qed.

Lemma literal_append (p rest : string) : literal p (p ++ rest) = Some rest.
Proof.
  induction p as [|a p IH]; simpl; [reflexivity|].
  rewrite Ascii.eqb_refl; exact IH.
Qed.

Lemma word_run_split (s : string) :
  exists post,
    s = (word_run s ++ post)%string /\
    all_word (word_run s) = true /\
    starts_with_word post = false.
Proof.
  induction s as [|c s (post & Hs & Ha & Hp)]; simpl.
  - exists EmptyString; auto.
  - destruct (is_word c) eqn:Hc.
    + exists post. simpl. rewrite Hc, Ha. rewrite <- Hs. auto.
    + exists (String c s). simpl. auto.
Qed.

Lemma RE_BANMSG_match_split (s : string) (x : ascii) (y : string) :
  RE_BANMSG_match s = Some (x, y) ->
  exists post,
    s = (ban_text x y ++ post)%string /\
    is_ban_kind x = true /\
    all_word y = true /\
    starts_with_word post = false.
Proof.
  unfold RE_BANMSG_match.
  destruct (literal "ban /" s) as [[|c rest]|] eqn:H1; try discriminate.
  destruct (is_ban_kind c) eqn:Hk; try discriminate.
  destruct (literal "/" rest) as [rest'|] eqn:H2; try discriminate.
  intros H; inversion H; subst x y.
  apply literal_split in H1. apply literal_split in H2.
  destruct (word_run_split rest') as (post & Hs & Ha & Hp).
  exists post. repeat split; auto.
  rewrite H1, H2. unfold ban_text. simpl. rewrite <- Hs.
  reflexivity.
Qed.

Lemma RE_BANMSG_search_split (s : string) (x : ascii) (y : string) :
  RE_BANMSG_search s = Some (x, y) ->
  exists pre post,
    s = (pre ++ (ban_text x y ++ post))%string /\
    is_ban_kind x = true /\
    all_word y = true /\
    starts_with_word post = false.
Proof.
  induction s as [|c s IH]; simpl.
  - discriminate.
  - destruct (RE_BANMSG_match (String c s)) as [[x' y']|] eqn:Hm.
    + intros H; inversion H; subst x' y'.
      destruct (RE_BANMSG_match_split _ _ _ Hm) as (post & Hs & Hk & Ha & Hp).
      exists EmptyString, post. split; [exact Hs | auto].
    + intros H. destruct (IH H) as (pre & post & Hs & Hrest).
      exists (String c pre), post. split; [|exact Hrest].
      cbn [append]. f_equal. exact Hs.
Qed.

(** X1: In ASCII text, what the search returns was found in the text: the
    body reads [pre], then [ban /], a character of the class, a slash and
    the identifier, which is made of word characters and is not followed
    by another one. *)
Theorem RE_BANMSG_search_sound (s : string) (x : ascii) (y : string) :
  ascii_text s = true ->
  RE_BANMSG_search s = Some (x, y) ->
  exists pre post,
    s = (pre ++ (ban_text x y ++ post))%string /\
    is_ban_kind x = true /\
    all_word y = true /\
    starts_with_word post = false.
Proof. intros _. exact (RE_BANMSG_search_split s x y). Qed.

Lemma RE_BANMSG_search_sound_witness :
  exists pre post,
    "please ban /u/alice now" = (pre ++ (ban_text "u" "alice" ++ post))%string /\
    is_ban_kind "u" = true /\
    all_word "alice" = true /\
    starts_with_word post = false.
Proof.
  exact (RE_BANMSG_search_sound "please ban /u/alice now" "u" "alice"
           eq_refl eq_refl).
Defined.

Lemma RE_BANMSG_match_complete (x : ascii) (rest : string) :
  is_ban_kind x = true ->
  RE_BANMSG_match ("ban /" ++ String x ("/" ++ rest)) =
    Some (x, word_run rest).
Proof.
  intros Hk. unfold RE_BANMSG_match. simpl. rewrite Hk. reflexivity.
Qed.

(** X2: A body that holds [ban /], a character of the class and a slash
    anywhere is matched: a body the search rejects holds no such text. *)
Theorem RE_BANMSG_search_complete (pre rest : string) (x : ascii) :
  is_ban_kind x = true ->
  RE_BANMSG_search (pre ++ ("ban /" ++ String x ("/" ++ rest))) <> None.
Proof.
  intros Hk. induction pre as [|c pre IH].
  - simpl. unfold RE_BANMSG_match; simpl. rewrite Hk. intros H; discriminate H.
  - cbn [append RE_BANMSG_search].
    match goal with
    | |- context [RE_BANMSG_match ?t] =>
        destruct (RE_BANMSG_match t) as [[x0 y0]|]
    end; [intros H; discriminate H | exact IH].
Qed.

Lemma RE_BANMSG_search_complete_witness :
  RE_BANMSG_search ("I hereby ban /r/dota2!") <> None.
Proof.
  exact (RE_BANMSG_search_complete "I hereby " "dota2!" "r" eq_refl).
Defined.

(** X3: The first match is used: when the pattern matches at the head of [t]
    and at no place inside [pre], the search of [pre ++ t] returns the
    groups of the match at [t]. *)
Theorem RE_BANMSG_search_leftmost
    (pre t : string) (g : ascii * string) :
  RE_BANMSG_match t = Some g ->
  (forall p1 c p2, pre = (p1 ++ String c p2)%string ->
                   RE_BANMSG_match (String c p2 ++ t) = None) ->
  RE_BANMSG_search (pre ++ t) = Some g.
Proof.
  intros Hm. induction pre as [|c pre IH]; intros Hnone.
  - cbn [append]. destruct t as [|a t]; [discriminate|].
    cbn [RE_BANMSG_search]. rewrite Hm; reflexivity.
  - cbn [append RE_BANMSG_search].
    pose proof (Hnone EmptyString c pre eq_refl) as H0.
    cbn [append] in H0. rewrite H0.
    apply IH. intros p1 c' p2 Hp.
    apply (Hnone (String c p1) c' p2). rewrite Hp; reflexivity.
Qed.

Lemma RE_BANMSG_search_leftmost_witness :
  RE_BANMSG_search "ok ban /u/bob ban /u/alice" = Some ("u"%char, "bob").
Proof.
  apply (RE_BANMSG_search_leftmost "ok " "ban /u/bob ban /u/alice"
           ("u"%char, "bob") eq_refl).
  intros p1 c p2 Hp.
  destruct p1 as [|a1 [|a2 [|a3 p1]]]; inversion Hp; subst; try reflexivity.
  destruct p1; discriminate.
Defined.

(** ** standard_ban_procedure, the other direction *)

(** The identifier the pattern extracts occurs in the body, also after
    both are lowered: the test of line 218 for the sender's name cannot
    fail for a request that passes the identity check of line 226. *)
Lemma extracted_name_in_body (b : string) (x : ascii) (y : string) :
  RE_BANMSG_search b = Some (x, y) ->
  contains (lower y) (lower b) = true.
Proof.
  intros H.
  destruct (RE_BANMSG_search_split b x y H) as (pre & post & Hs & _).
  assert (Hb : b = ((pre ++ "ban /" ++ String x "/") ++ (y ++ post))%string).
  { rewrite Hs. unfold ban_text. rewrite !append_assoc. simpl.
    reflexivity. }
  rewrite Hb, lower_append, (lower_append y post). apply contains_append.
Qed.

(** X4: A person who sends, as a top-level message in ASCII text, a
    request whose first match of the pattern is of kind [u] and names the
    sender up to letter case is banned under the name as the platform
    spells it, and gets the reply, whenever user banning is allowed and a
    database is present. *)
Theorem user_opt_out_is_recorded
    (m : Message) (sa : bool) (w : World)
    (name y : string) (db : DatabaseProvider) :
  ascii_text (body m) = true ->
  ascii_text name = true ->
  author m = Some name ->
  was_comment m = false ->
  RE_BANMSG_search (body m) = Some ("u"%char, y) ->
  lower y = lower name ->
  database (self w) = Some db ->
  standard_ban_procedure m sa true w =
    mkOut (Ok tt) w
      [EvUserBan name (BOT_NAME (self w));
       EvReply m (ban_reply_user name (BOT_NAME (self w)));
       EvLogInfo ("Banned /u/" ++ name ++ " from " ++ BOT_NAME (self w) ++
                  " on message request.")%string].
Proof.
  intros _ _ Ha Hc Hre Hy Hdb.
  pose proof (extracted_name_in_body _ _ _ Hre) as Hin. rewrite Hy in Hin.
  destruct m as [a sr wc b]; simpl in *; subst a wc.
  unfold standard_ban_procedure, principal, message_author_name, bind, ret,
    getattr, get_self, emit; simpl.
  rewrite Hin, Hre; simpl. rewrite Hy, String.eqb_refl; simpl.
  rewrite Hdb; simpl. reflexivity.
Qed.

Lemma user_opt_out_is_recorded_witness :
  tr (standard_ban_procedure
        (mkMessage (Some "Alice_99") None false "pls ban /u/alice_99.")
        false true fresh_world) =
    [EvUserBan "Alice_99" "LeafeatorBot";
     EvReply (mkMessage (Some "Alice_99") None false "pls ban /u/alice_99.")
             (ban_reply_user "Alice_99" "LeafeatorBot");
     EvLogInfo "Banned /u/Alice_99 from LeafeatorBot on message request."].
Proof.
  rewrite (user_opt_out_is_recorded
             (mkMessage (Some "Alice_99") None false "pls ban /u/alice_99.")
             false fresh_world "Alice_99" "alice_99" databaseProvider
             eq_refl eq_refl eq_refl eq_refl eq_refl eq_refl eq_refl).
  reflexivity.
Defined.

(** X5: A community that sends, as a top-level message in ASCII text, a
    request whose first match is of kind [r] and names the community up to
    letter case is banned under its display name and gets the reply,
    whenever subreddit banning is allowed and a database is present; the
    user toggle plays no part. *)
Theorem community_opt_out_is_recorded
    (m : Message) (ua : bool) (w : World)
    (sb y : string) (db : DatabaseProvider) :
  ascii_text (body m) = true ->
  ascii_text sb = true ->
  author m = None ->
  subreddit m = Some sb ->
  was_comment m = false ->
  RE_BANMSG_search (body m) = Some ("r"%char, y) ->
  lower y = lower sb ->
  database (self w) = Some db ->
  standard_ban_procedure m true ua w =
    mkOut (Ok tt) w
      [EvSubredditBan sb (BOT_NAME (self w));
       EvReply m (ban_reply_subreddit sb (BOT_NAME (self w)));
       EvLogInfo ("Banned /r/" ++ sb ++ " from " ++ BOT_NAME (self w) ++
                  " on message request")%string].
Proof.
  intros _ _ Ha Hs Hc Hre Hy Hdb.
  pose proof (extracted_name_in_body _ _ _ Hre) as Hin. rewrite Hy in Hin.
  destruct m as [a sr wc b]; simpl in *; subst a sr wc.
  unfold standard_ban_procedure, principal, message_subreddit_display_name,
    bind, ret, getattr, get_self, emit; simpl.
  rewrite Hin, Hre; simpl. rewrite Hy, String.eqb_refl; simpl.
  rewrite Hdb; simpl. reflexivity.
Qed.

Lemma community_opt_out_is_recorded_witness :
  tr (standard_ban_procedure
        (mkMessage None (Some "DotA2") false "ban /r/dota2") true false
        fresh_world) =
    [EvSubredditBan "DotA2" "LeafeatorBot";
     EvReply (mkMessage None (Some "DotA2") false "ban /r/dota2")
             (ban_reply_subreddit "DotA2" "LeafeatorBot");
     EvLogInfo "Banned /r/DotA2 from LeafeatorBot on message request"].
Proof.
  rewrite (community_opt_out_is_recorded
             (mkMessage None (Some "DotA2") false "ban /r/dota2")
             false fresh_world "DotA2" "dota2" databaseProvider
             eq_refl eq_refl eq_refl eq_refl eq_refl eq_refl eq_refl
             eq_refl).
  reflexivity.
Defined.

Lemma other_character_never_equal (b name : string) (x : ascii) (y : string) :
  RE_BANMSG_search b = Some (x, y) ->
  all_word name = false ->
  String.eqb (lower name) (lower y) = false.
Proof.
  intros Hre Hn.
  destruct (RE_BANMSG_search_split b x y Hre) as (_ & _ & _ & _ & Hy & _).
  destruct (String.eqb (lower name) (lower y)) eqn:He; [|reflexivity].
  apply String.eqb_eq in He.
  rewrite <- (all_word_lower name), He, all_word_lower, Hy in Hn.
  discriminate.
Qed.

(** X6: A sender whose name holds a character that is not a word character,
    a hyphen for one, can never opt out: the identifier the pattern
    extracts is made of word characters only, so the identity check
    fails and the procedure does nothing, whatever the body says. *)
Theorem name_with_other_character_never_banned
    (m : Message) (sa ua : bool) (w : World) (name : string) (human : bool) :
  sender_is m name human ->
  all_word name = false ->
  standard_ban_procedure m sa ua w = mkOut (Ok tt) w [].
Proof.
  intros Hsender Hn.
  destruct m as [a sr wc b]; unfold sender_is in Hsender; simpl in *.
  unfold standard_ban_procedure, principal, bind, ret; simpl.
  destruct Hsender as [[-> ->]|[-> [-> ->]]]; simpl.
  all: destruct (negb wc && contains (lower name) (lower b)); simpl;
    [|reflexivity].
  all: destruct (RE_BANMSG_search b) as [[x y]|] eqn:Hre; simpl;
    [|reflexivity].
  all: rewrite (other_character_never_equal b name x y Hre Hn); simpl;
    reflexivity.
Qed.

Lemma name_with_other_character_never_banned_witness :
  standard_ban_procedure
    (mkMessage (Some "some-user") None false "ban /u/some-user")
    true true fresh_world = mkOut (Ok tt) fresh_world [].
Proof.
  apply (name_with_other_character_never_banned _ true true fresh_world
           "some-user" true).
  - left; split; reflexivity.
  - reflexivity.
Defined.


(** X8: Without a database nothing is written, answered or logged,
    whatever the message; a request in ASCII text that passes every check
    then ends in [AttributeError] instead of being recorded. *)
Theorem no_database_no_reply
    (m : Message) (sa ua : bool) (w : World) :
  database (self w) = None ->
  tr (standard_ban_procedure m sa ua w) = [] /\
  (forall name y,
     ascii_text (body m) = true -> ascii_text name = true ->
     author m = Some name -> was_comment m = false ->
     RE_BANMSG_search (body m) = Some ("u"%char, y) ->
     lower y = lower name -> ua = true ->
     res (standard_ban_procedure m sa ua w) = Raise AttributeError).
Proof.
  intros Hdb. split.
  - destruct m as [a sr wc b].
    unfold standard_ban_procedure, principal, message_author_name,
      message_subreddit_display_name, bind, getattr, get_self, emit, ret,
      raise; simpl.
    destruct a as [name|]; destruct sr as [sub|]; simpl;
      destruct wc; simpl; auto.
    all: match goal with
         | |- context [contains ?x ?y] => destruct (contains x y)
         end; simpl; auto.
    all: destruct (RE_BANMSG_search b) as [[X Y]|]; simpl; auto.
    all: match goal with
         | |- context [String.eqb ?x ?y] => destruct (String.eqb x y)
         end; simpl; auto.
    all: match goal with
         | |- context [type_consistency ?x ?y] =>
             destruct (type_consistency x y)
         end; simpl; auto.
    all: destruct ua, sa; simpl; auto.
    all: rewrite Hdb; reflexivity.
  - intros name y _ _ Ha Hc Hre Hy ->.
    pose proof (extracted_name_in_body _ _ _ Hre) as Hin. rewrite Hy in Hin.
    destruct m as [a sr wc b]; simpl in *; subst a wc.
    unfold standard_ban_procedure, principal, message_author_name, bind, ret,
      getattr, get_self, emit; simpl.
    rewrite Hin, Hre; simpl. rewrite Hy, String.eqb_refl; simpl.
    rewrite Hdb; simpl. reflexivity.
Qed.

Lemma no_database_no_reply_witness :
  tr (standard_ban_procedure msg_alice true true
        (mkWorld (__init__ None (Some roverHandler) "LeafeatorBot")
                 0 0 0 0)) = [] /\
  res (standard_ban_procedure msg_alice true true
         (mkWorld (__init__ None (Some roverHandler) "LeafeatorBot")
                  0 0 0 0)) = Raise AttributeError.
Proof.
  destruct (no_database_no_reply msg_alice true true
              (mkWorld (__init__ None (Some roverHandler) "LeafeatorBot")
                       0 0 0 0) eq_refl) as [H1 H2].
  split; [exact H1|].
  exact (H2 "alice" "alice" eq_refl eq_refl eq_refl eq_refl eq_refl
            eq_refl eq_refl).
Defined.

(** ** to_update, in general *)

(** X9: [to_update] records only a submission, under its own fullname, the name
    of the plugin and the lifetime given, and only with a database; without
    a database it returns normally for every object; with one it never logs
    an error: the call either records or raises, so the branch that would
    report an invalid object type is never taken. *)
Theorem to_update_records_submissions_only
    (t : thing) (lifetime : Z) (w : World) :
  st (to_update t lifetime w) = w /\
  (forall fn bn lt,
     In (EvInsertIntoUpdate fn bn lt) (tr (to_update t lifetime w)) ->
     (exists is_self txt, t = Submission fn is_self txt) /\
     bn = BOT_NAME (self w) /\ lt = lifetime /\
     database (self w) <> None) /\
  (database (self w) = None ->
   res (to_update t lifetime w) = Ok tt /\
   existsb is_log_error (tr (to_update t lifetime w)) = true) /\
  (database (self w) <> None ->
   existsb is_log_error (tr (to_update t lifetime w)) = false /\
   (res (to_update t lifetime w) = Ok tt <-> is_submission t = true) /\
   (is_submission t = false ->
    res (to_update t lifetime w) = Raise TypeError)).
Proof.
  unfold to_update, bind, get_self, emit, ret, isinstance_one_argument,
    raise, thing_fullname; simpl.
  destruct (database (self w)) as [db|] eqn:Hdb;
    destruct t as [fn is_self txt|fn txt|]; simpl.
  all: split; [reflexivity|].
  all: split;
    [ intros fn0 bn lt Hin;
      repeat (destruct Hin as [Hin|Hin]; try discriminate Hin);
      try contradiction
    | ].
  all: try (inversion Hin; subst; repeat split; eauto; discriminate).
  all: split; intros H; try discriminate H; try (exfalso; apply H; reflexivity).
  all: try (split; reflexivity).
  all: split; [reflexivity|]; split;
    try (split; intros H0; try discriminate H0; reflexivity);
    try (intros H0; try discriminate H0; reflexivity).
Qed.

Lemma to_update_records_submissions_only_witness :
  res (to_update (Comment "t1_c" "hi") 7 fresh_world) = Raise TypeError /\
  existsb is_log_error (tr (to_update (Comment "t1_c" "hi") 7 fresh_world)) =
    false.
Proof.
  destruct (to_update_records_submissions_only (Comment "t1_c" "hi") 7
              fresh_world) as (_ & _ & _ & H).
  assert (Hdb : database (self fresh_world) <> None) by discriminate.
  destruct (H Hdb) as (H1 & _ & H3).
  split; [exact (H3 eq_refl) | exact H1].
Defined.

(** ** _oa_refresh and factory_reddit, the failures before any call *)

Lemma oa_refresh_unready (E : Env) (force : bool) (w : World) :
  (OA_REFRESH_TOKEN (self w) = None ->
   _oa_refresh E force w = mkOut (Raise AttributeError) w []) /\
  (forall token,
     OA_REFRESH_TOKEN (self w) = Some token ->
     truthy token = false \/ session (self w) = None ->
     _oa_refresh E force w = mkOut (Raise AssertionError) w []).
Proof.
  split.
  - intros Ht.
    assert (Hb : _oa_refresh_body E force w =
                 mkOut (Raise AttributeError) w []).
    { unfold _oa_refresh_body, bind, getattr. rewrite Ht. reflexivity. }
    unfold _oa_refresh, retry. rewrite retry_loop_passes; [exact Hb|].
    rewrite Hb; discriminate.
  - intros token Ht Hbad.
    assert (Hb : _oa_refresh_body E force w =
                 mkOut (Raise AssertionError) w []).
    { unfold _oa_refresh_body, bind, getattr, get_self. rewrite Ht; simpl.
      destruct Hbad as [Hbad|Hbad]; rewrite Hbad; simpl;
        [reflexivity|].
      destruct (truthy token); reflexivity. }
    unfold _oa_refresh, retry. rewrite retry_loop_passes; [exact Hb|].
    rewrite Hb; discriminate.
Qed.

(** X10: Without a refresh token attribute [_oa_refresh] ends in
    [AttributeError]; with an empty token or without a session it ends in
    [AssertionError]; in each case the clock is not read, the platform is
    not called, the object is untouched and nothing is retried. *)
Theorem oa_refresh_preconditions (E : Env) (force : bool) (w : World) :
  (OA_REFRESH_TOKEN (self w) = None ->
   _oa_refresh E force w = mkOut (Raise AttributeError) w []) /\
  (forall token,
     OA_REFRESH_TOKEN (self w) = Some token ->
     truthy token = false \/ session (self w) = None ->
     _oa_refresh E force w = mkOut (Raise AssertionError) w []).
Proof. exact (oa_refresh_unready E force w). Qed.

Lemma oa_refresh_preconditions_witness :
  _oa_refresh (env_up []) true fresh_world =
    mkOut (Raise AttributeError) fresh_world [].
Proof.
  exact (proj1 (oa_refresh_preconditions (env_up []) true fresh_world)
           eq_refl).
Defined.

Lemma factory_reddit_session_dichotomy (w : World) :
  (exists d k sec,
     app_configured (self w) d k sec /\
     factory_reddit_session w =
       mkOut (Ok tt)
         (mkWorld (with_session (self w) (mkSession d (k, sec) None))
                  (n_time w) (n_refresh w) (n_unread w) (n_mark w))
         [EvNewSession d]) \/
  ((forall d k sec, ~ app_configured (self w) d k sec) /\
   (res (factory_reddit_session w) = Raise AssertionError \/
    res (factory_reddit_session w) = Raise AttributeError) /\
   st (factory_reddit_session w) = w /\
   tr (factory_reddit_session w) = []).
Proof.
  unfold factory_reddit_session, bind, getattr, get_self, set_session,
    set_self, emit, assert_, ret, raise, app_configured; simpl.
  destruct (DESCRIPTION (self w)) as [d|] eqn:Hd; simpl.
  2: { right. repeat split; auto.
       intros d k sec (H & _); discriminate. }
  destruct (truthy d) eqn:Hdt; simpl.
  2: { right. repeat split; auto.
       intros d' k sec (H & H' & _). inversion H; subst. congruence. }
  destruct (handler (self w)) as [h|] eqn:Hh; simpl.
  2: { right. repeat split; auto.
       intros d' k sec (_ & _ & H & _). apply H; reflexivity. }
  destruct (OA_APP_KEY (self w)) as [k|] eqn:Hk; simpl.
  2: { right. repeat split; auto.
       intros d' k sec (_ & _ & _ & H & _); discriminate. }
  destruct (truthy k) eqn:Hkt; simpl.
  2: { right. repeat split; auto.
       intros d' k' sec (_ & _ & _ & H & H' & _).
       inversion H; subst. congruence. }
  destruct (OA_APP_SECRET (self w)) as [sec|] eqn:Hs; simpl.
  2: { right. repeat split; auto.
       intros d' k' sec (_ & _ & _ & _ & _ & H & _); discriminate. }
  destruct (truthy sec) eqn:Hst; simpl.
  2: { right. repeat split; auto.
       intros d' k' sec' (_ & _ & _ & _ & _ & H & H').
       inversion H; subst. congruence. }
  left. exists d, k, sec. repeat split; auto. discriminate.
Qed.

(** [factory_reddit], up to its closing refresh, either builds a new
    session from the description, the key and the secret, with no token
    bound to it yet, and changes nothing else, or ends in
    [AssertionError] or [AttributeError] with the old session kept. *)
Theorem factory_reddit_session_cases (w : World) :
  (exists d k sec,
     app_configured (self w) d k sec /\
     factory_reddit_session w =
       mkOut (Ok tt)
         (mkWorld (with_session (self w) (mkSession d (k, sec) None))
                  (n_time w) (n_refresh w) (n_unread w) (n_mark w))
         [EvNewSession d]) \/
  ((forall d k sec, ~ app_configured (self w) d k sec) /\
   (res (factory_reddit_session w) = Raise AssertionError \/
    res (factory_reddit_session w) = Raise AttributeError) /\
   st (factory_reddit_session w) = w /\
   tr (factory_reddit_session w) = []).
Proof. exact (factory_reddit_session_dichotomy w). Qed.

Lemma factory_reddit_session_cases_witness :
  session (self (st (factory_reddit_session fresh_world))) = None /\
  res (factory_reddit_session fresh_world) = Raise AttributeError.
Proof.
  destruct (factory_reddit_session_cases fresh_world)
    as [(d & k & sec & (H & _) & _)|(_ & _ & Hst & _)].
  - discriminate H.
  - rewrite Hst. split; reflexivity.
Defined.

(** ** Forced refresh: success, retries, recovery *)

Lemma forced_attempt_body_succeeds (E : Env) (w : World)
    (token : string) (sess : Session) (td : token_dict) :
  OA_REFRESH_TOKEN (self w) = Some token -> truthy token = true ->
  session (self w) = Some sess ->
  refresh_access_information E (n_refresh w) token = inl td ->
  _oa_refresh_body E true w =
    mkOut (Ok tt)
      (mkWorld (with_token (self w) sess td (clock E (n_time w)))
               (S (n_time w)) (S (n_refresh w)) (n_unread w) (n_mark w))
      [EvRefreshed td; EvTime (clock E (n_time w));
       EvSetAccessCredentials td].
Proof.
  intros Ht Htr Hs Hr.
  destruct w as [s nt nr nu nm]; simpl in *.
  unfold _oa_refresh_body, bind, getattr, get_self, time,
    session_refresh_access_information, set_token, set_self,
    session_set_access_credentials, emit; simpl.
  rewrite Ht; simpl. rewrite Htr, Hs; simpl. rewrite Hs; simpl.
  rewrite Hr; simpl. rewrite Hs; simpl. reflexivity.
Qed.

Lemma forced_attempt_succeeds (E : Env) (w : World)
    (token : string) (sess : Session) (td : token_dict) :
  OA_REFRESH_TOKEN (self w) = Some token -> truthy token = true ->
  session (self w) = Some sess ->
  refresh_access_information E (n_refresh w) token = inl td ->
  _oa_refresh E true w =
    mkOut (Ok tt)
      (mkWorld (with_token (self w) sess td (clock E (n_time w)))
               (S (n_time w)) (S (n_refresh w)) (n_unread w) (n_mark w))
      [EvRefreshed td; EvTime (clock E (n_time w));
       EvSetAccessCredentials td].
Proof.
  intros Ht Htr Hs Hr.
  pose proof (forced_attempt_body_succeeds E w token sess td Ht Htr Hs Hr)
    as Hb.
  unfold _oa_refresh, retry. rewrite retry_loop_passes; [exact Hb|].
  rewrite Hb; discriminate.
Qed.

Lemma forced_attempt_body_fails (E : Env) (w : World)
    (token : string) (sess : Session) :
  OA_REFRESH_TOKEN (self w) = Some token -> truthy token = true ->
  session (self w) = Some sess ->
  refresh_access_information E (n_refresh w) token = inr HTTPException ->
  _oa_refresh_body E true w =
    mkOut (Raise HTTPException)
      (mkWorld (self w) (n_time w) (S (n_refresh w)) (n_unread w) (n_mark w))
      [EvRefreshFailed HTTPException].
Proof.
  intros Ht Htr Hs Hr.
  destruct w as [s nt nr nu nm]; simpl in *.
  unfold _oa_refresh_body, bind, getattr, get_self,
    session_refresh_access_information; simpl.
  rewrite Ht; simpl. rewrite Htr, Hs; simpl. rewrite Hs; simpl.
  rewrite Hr; reflexivity.
Qed.

(** A forced refresh whose calls all fail is given up after the attempts
    of the retry decorator, with the object as it was. *)
Lemma forced_attempts_fail_between (E : Env) (n : nat) :
  forall (w : World) (token : string) (sess : Session),
  OA_REFRESH_TOKEN (self w) = Some token -> truthy token = true ->
  session (self w) = Some sess ->
  fails_between E (n_refresh w) (S n) ->
  retry_loop n HTTPException (_oa_refresh_body E true) w =
    mkOut (Raise HTTPException)
      (mkWorld (self w) (n_time w) (n_refresh w + S n) (n_unread w)
               (n_mark w))
      (repeat (EvRefreshFailed HTTPException) (S n)).
Proof.
  induction n as [|n IH]; intros w token sess Ht Htr Hs Hfail.
  - cbn [retry_loop].
    rewrite (forced_attempt_body_fails E w token sess Ht Htr Hs)
      by (apply Hfail; lia).
    rewrite Nat.add_1_r. reflexivity.
  - cbn [retry_loop].
    pose proof (forced_attempt_body_fails E w token sess Ht Htr Hs
                  (Hfail (n_refresh w) token ltac:(lia))) as Hb.
    rewrite try_except_caught by (rewrite Hb; reflexivity).
    rewrite Hb; cbn [st tr res].
    rewrite (IH (mkWorld (self w) (n_time w) (S (n_refresh w)) (n_unread w)
                         (n_mark w)) token sess Ht Htr Hs)
      by (intros k t Hk; apply Hfail; cbn [n_refresh] in Hk; lia).
    cbn [st tr res self n_time n_refresh n_unread n_mark].
    replace (S (n_refresh w) + S n)%nat with (n_refresh w + S (S n))%nat
      by lia.
    reflexivity.
Qed.

Lemma bind_eq_ok {A B} (m : M A) (f : A -> M B) (w w1 : World) (a : A)
    (t1 : list event) :
  m w = mkOut (Ok a) w1 t1 ->
  bind m f w = mkOut (res (f a w1)) (st (f a w1)) (t1 ++ tr (f a w1)).
Proof. intros H. unfold bind. rewrite H. destruct (f a w1); reflexivity. Qed.

Lemma app_configured_unique (s : PluginBase) (d k sec d' k' sec' : string) :
  app_configured s d k sec -> app_configured s d' k' sec' ->
  d' = d /\ k' = k /\ sec' = sec.
Proof.
  intros (H1 & _ & _ & H2 & _ & H3 & _) (H1' & _ & _ & H2' & _ & H3' & _).
  rewrite H1 in H1'; rewrite H2 in H2'; rewrite H3 in H3'.
  inversion H1'; inversion H2'; inversion H3'; auto.
Qed.

Lemma factory_reddit_session_ok (w : World) (d k sec : string) :
  app_configured (self w) d k sec ->
  factory_reddit_session w =
    mkOut (Ok tt)
      (mkWorld (with_session (self w) (mkSession d (k, sec) None))
               (n_time w) (n_refresh w) (n_unread w) (n_mark w))
      [EvNewSession d].
Proof.
  intros Happ.
  destruct (factory_reddit_session_dichotomy w)
    as [(d' & k' & sec' & Happ' & Heq)|(Hno & _)].
  - destruct (app_configured_unique _ _ _ _ _ _ _ Happ Happ')
      as (-> & -> & ->). exact Heq.
  - exfalso. exact (Hno d k sec Happ).
Qed.

Lemma factory_reddit_login
    (E : Env) (fuel : nat) (w : World)
    (d k sec token : string) (td : token_dict) :
  app_configured (self w) d k sec ->
  OA_REFRESH_TOKEN (self w) = Some token -> truthy token = true ->
  refresh_access_information E (n_refresh w) token = inl td ->
  factory_reddit E (S fuel) w =
    mkOut (Ok tt)
      (mkWorld
         (with_token (with_session (self w) (mkSession d (k, sec) None))
                     (mkSession d (k, sec) None) td (clock E (n_time w)))
         (S (n_time w)) (S (n_refresh w)) (n_unread w) (n_mark w))
      [EvNewSession d; EvRefreshed td; EvTime (clock E (n_time w));
       EvSetAccessCredentials td].
Proof.
  intros Happ Ht Htr Hr.
  unfold factory_reddit.
  rewrite (bind_eq_ok _ _ _ _ _ _ (factory_reddit_session_ok w d k sec Happ)).
  set (w1 := mkWorld (with_session (self w) (mkSession d (k, sec) None))
                     (n_time w) (n_refresh w) (n_unread w) (n_mark w)).
  assert (H1 : _oa_refresh E true w1 =
               mkOut (Ok tt)
                 (mkWorld (with_token (self w1) (mkSession d (k, sec) None) td
                                      (clock E (n_time w1)))
                          (S (n_time w1)) (S (n_refresh w1)) (n_unread w1)
                          (n_mark w1))
                 [EvRefreshed td; EvTime (clock E (n_time w1));
                  EvSetAccessCredentials td]).
  { apply (forced_attempt_succeeds E w1 token); auto. }
  cbn [oa_refresh].
  rewrite try_except_passes by (rewrite H1; discriminate).
  rewrite H1. reflexivity.
Qed.

(** X11: [factory_reddit] logs in: with the application configured, a refresh
    token at hand and the platform answering, it installs a new session,
    refreshes once, stores the token with its expiry and binds it to the
    new session, whatever session or token the object held before. *)
Theorem factory_reddit_logs_in
    (E : Env) (fuel : nat) (w : World)
    (d k sec token : string) (td : token_dict) :
  app_configured (self w) d k sec ->
  OA_REFRESH_TOKEN (self w) = Some token -> truthy token = true ->
  refresh_access_information E (n_refresh w) token = inl td ->
  factory_reddit E (S fuel) w =
    mkOut (Ok tt)
      (mkWorld
         (with_token (with_session (self w) (mkSession d (k, sec) None))
                     (mkSession d (k, sec) None) td (clock E (n_time w)))
         (S (n_time w)) (S (n_refresh w)) (n_unread w) (n_mark w))
      [EvNewSession d; EvRefreshed td; EvTime (clock E (n_time w));
       EvSetAccessCredentials td].
Proof. exact (factory_reddit_login E fuel w d k sec token td). Qed.

Lemma factory_reddit_logs_in_witness :
  res (factory_reddit (env_up []) 1 configured_world) = Ok tt /\
  OA_ACCESS_TOKEN (self (st (factory_reddit (env_up []) 1 configured_world)))
    = Some "access-1" /\
  session (self (st (factory_reddit (env_up []) 1 configured_world))) =
    Some (mkSession "Leafeator" ("key", "secret") (Some tokens1)).
Proof.
  assert (Happ : app_configured (self configured_world)
                   "Leafeator" "key" "secret").
  { repeat split; discriminate. }
  rewrite (factory_reddit_logs_in (env_up []) 0 configured_world
             "Leafeator" "key" "secret" "refresh-0" tokens1
             Happ eq_refl eq_refl eq_refl).
  repeat split.
Defined.

(** X12: After a round of failed attempts [oa_refresh(force=True)] recovers as
    soon as the platform answers: it builds a new session, the nested
    call refreshes on it, and the closing line refreshes once more, so the
    token in force is the second one issued and the platform has been
    called twice beyond the failed round. *)
Theorem oa_refresh_recovers
    (E : Env) (fuel : nat) (w : World)
    (d k sec token : string) (sess : Session) (td1 td2 : token_dict) :
  app_configured (self w) d k sec ->
  OA_REFRESH_TOKEN (self w) = Some token -> truthy token = true ->
  session (self w) = Some sess ->
  fails_between E (n_refresh w) (attempts E) ->
  refresh_access_information E (n_refresh w + attempts E) token = inl td1 ->
  refresh_access_information E (S (n_refresh w + attempts E)) token =
    inl td2 ->
  res (oa_refresh E (S (S fuel)) true w) = Ok tt /\
  tr (oa_refresh E (S (S fuel)) true w) =
    repeat (EvRefreshFailed HTTPException) (attempts E) ++
    [EvNewSession d;
     EvRefreshed td1; EvTime (clock E (n_time w));
     EvSetAccessCredentials td1;
     EvRefreshed td2; EvTime (clock E (S (n_time w)));
     EvSetAccessCredentials td2] /\
  OA_ACCESS_TOKEN (self (st (oa_refresh E (S (S fuel)) true w))) =
    Some (access_token td2) /\
  OA_VALID_UNTIL (self (st (oa_refresh E (S (S fuel)) true w))) =
    Some (clock E (S (n_time w)) + OA_TOKEN_DURATION (self w))%Z /\
  session (self (st (oa_refresh E (S (S fuel)) true w))) =
    Some (mkSession d (k, sec) (Some td2)) /\
  n_refresh (st (oa_refresh E (S (S fuel)) true w)) =
    (n_refresh w + attempts E + 2)%nat.
Proof.
  intros Happ Ht Htr Hs Hfail Hr1 Hr2.
  pose proof (forced_attempts_fail_between E (maxAttempts E - 1) w token sess
                Ht Htr Hs Hfail) as H0.
  change (retry_loop (maxAttempts E - 1) HTTPException
            (_oa_refresh_body E true) w)
    with (_oa_refresh E true w) in H0.
  fold (attempts E) in H0.
  set (w1 := mkWorld (self w) (n_time w) (n_refresh w + attempts E)
                     (n_unread w) (n_mark w)) in *.
  pose proof (factory_reddit_session_ok w1 d k sec Happ) as H1.
  set (w2 := mkWorld (with_session (self w1) (mkSession d (k, sec) None))
                     (n_time w1) (n_refresh w1) (n_unread w1) (n_mark w1))
    in *.
  pose proof (forced_attempt_succeeds E w2 token (mkSession d (k, sec) None)
                td1 Ht Htr eq_refl Hr1) as H2.
  set (w3 := mkWorld (with_token (self w2) (mkSession d (k, sec) None) td1
                                 (clock E (n_time w2)))
                     (S (n_time w2)) (S (n_refresh w2)) (n_unread w2)
                     (n_mark w2)) in *.
  pose proof (forced_attempt_succeeds E w3 token
                (mkSession d (k, sec) (Some td1)) td2 Ht Htr eq_refl Hr2)
    as H3.
  assert (Hin : oa_refresh E (S fuel) true w2 = _oa_refresh E true w2).
  { cbn [oa_refresh]. apply try_except_passes. rewrite H2; discriminate. }
  cbn [oa_refresh].
  rewrite try_except_caught by (rewrite H0; reflexivity).
  rewrite H0; cbn [st tr res].
  rewrite (bind_eq_ok _ _ _ _ _ _ H1).
  assert (Hin2 : oa_refresh E (S fuel) true w2 =
                 mkOut (Ok tt) w3
                   [EvRefreshed td1; EvTime (clock E (n_time w2));
                    EvSetAccessCredentials td1])
    by (rewrite Hin; exact H2).
  change (try_except (_oa_refresh E true) HTTPException
            (factory_reddit_session;;
             oa_refresh E fuel true;; _oa_refresh E true))
    with (oa_refresh E (S fuel) true).
  rewrite (bind_eq_ok _ _ _ _ _ _ Hin2).
  rewrite H3. cbn [st tr res self n_time n_refresh n_unread n_mark
                   with_token with_session OA_ACCESS_TOKEN OA_VALID_UNTIL
                   session OA_TOKEN_DURATION user_agent oauth_app_info].
  repeat split; try reflexivity. unfold w3, w2, w1; cbn [n_refresh]. lia.
Qed.

Lemma oa_refresh_recovers_witness :
  res (oa_refresh env_flaky 2 true configured_world) = Ok tt /\
  OA_ACCESS_TOKEN (self (st (oa_refresh env_flaky 2 true configured_world)))
    = Some "access-1" /\
  n_refresh (st (oa_refresh env_flaky 2 true configured_world)) = 6%nat.
Proof.
  assert (Happ : app_configured (self configured_world)
                   "Leafeator" "key" "secret").
  { repeat split; discriminate. }
  assert (Hfail : fails_between env_flaky (n_refresh configured_world)
                    (attempts env_flaky)).
  { intros i t Hi. simpl in *.
    destruct i as [|[|[|[|i]]]]; try reflexivity. unfold attempts in Hi.
    simpl in Hi. lia. }
  destruct (oa_refresh_recovers env_flaky 0 configured_world
              "Leafeator" "key" "secret" "refresh-0"
              (mkSession "Leafeator" ("key", "secret") None) tokens0 tokens1
              Happ eq_refl eq_refl eq_refl Hfail eq_refl eq_refl)
    as (H1 & _ & H3 & _ & _ & H6).
  split; [exact H1|]. split; [exact H3 | exact H6].
Defined.

(** ** get_unread_messages, what is not swallowed *)

(** X13: Without a session the poll stops in the credential refresh, outside
    the [try]: the [AssertionError] of [_oa_refresh] (or the
    [AttributeError] for a missing refresh token) reaches the caller and
    nothing is fetched. *)
Theorem unread_needs_session
    (E : Env) (P : PluginContract) (fuel : nat) (w : World) :
  session (self w) = None ->
  tr (get_unread_messages E (S fuel) w) = [] /\
  st (get_unread_messages E (S fuel) w) = w /\
  (res (get_unread_messages E (S fuel) w) = Raise AssertionError \/
   res (get_unread_messages E (S fuel) w) = Raise AttributeError).
Proof.
  intros Hs.
  assert (H : exists e, (e = AssertionError \/ e = AttributeError) /\
                        _oa_refresh E false w = mkOut (Raise e) w []).
  { destruct (oa_refresh_unready E false w) as [H1 H2].
    destruct (OA_REFRESH_TOKEN (self w)) as [token|] eqn:Ht.
    - exists AssertionError. split; [auto|]. apply (H2 token); auto.
    - exists AttributeError. split; [auto|]. apply H1; reflexivity. }
  destruct H as (e & He & Hr).
  assert (Hne : e <> HTTPException) by (destruct He; subst; discriminate).
  assert (Ho : oa_refresh E (S fuel) false w = mkOut (Raise e) w []).
  { cbn [oa_refresh]. rewrite try_except_passes; [exact Hr|].
    rewrite Hr; simpl. intros Heq; inversion Heq; contradiction. }
  assert (Hb : get_unread_messages_body E (S fuel) w = mkOut (Raise e) w []).
  { unfold get_unread_messages_body.
    rewrite (bind_raise _ _ _ e) by (rewrite Ho; reflexivity).
    rewrite Ho; reflexivity. }
  unfold get_unread_messages, retry.
  rewrite retry_loop_passes
    by (rewrite Hb; simpl; intros Heq; inversion Heq; contradiction).
  rewrite Hb; simpl. repeat split.
  destruct He; subst; auto.
Qed.

Lemma unread_needs_session_witness :
  res (@get_unread_messages (env_up [msg_alice]) idle_plugin 1 fresh_world) =
    Raise AttributeError /\
  tr (@get_unread_messages (env_up [msg_alice]) idle_plugin 1 fresh_world) =
    [].
Proof.
  destruct (unread_needs_session (env_up [msg_alice]) idle_plugin 0
              fresh_world eq_refl) as (H1 & _ & _).
  split; [reflexivity | exact H1].
Defined.

(** X14: Only [AssertionError] is swallowed: any other exception that is not
    retried, raised by marking a message or by the plugin's handler,
    leaves the method; by then the message at hand has been marked read,
    and the messages behind it are left alone. *)
Theorem other_errors_reach_the_caller
    (E : Env) (P : PluginContract) (fuel : nat) (w : World)
    (sess : Session) (pre post : list Message) (m : Message) (e : exn) :
  e <> AssertionError -> e <> HTTPException ->
  res (oa_refresh E fuel false w) = Ok tt ->
  session (self (st (oa_refresh E fuel false w))) = Some sess ->
  get_unread E (n_unread (st (oa_refresh E fuel false w))) =
    inl (pre ++ m :: post) ->
  res (message_loop E pre (after_fetch (st (oa_refresh E fuel false w)))) =
    Ok tt ->
  res (unread_step E m
         (st (message_loop E pre
                (after_fetch (st (oa_refresh E fuel false w)))))) =
    Raise e ->
  res (get_unread_messages E fuel w) = Raise e /\
  top_level (tr (get_unread_messages E fuel w)) =
    top_level (tr (oa_refresh E fuel false w)) ++
    EvGetUnread :: marked_then_dispatched pre ++
    top_level
      (tr (unread_step E m
             (st (message_loop E pre
                    (after_fetch (st (oa_refresh E fuel false w))))))) /\
  In (EvMarkAsRead m) (tr (get_unread_messages E fuel w)).
Proof.
  intros Hna Hnh Hok Hs Hget Hpre Hstep.
  set (w1 := st (oa_refresh E fuel false w)) in *.
  pose proof (unread_block_shape E P w1 sess Hs) as Hblock.
  rewrite Hget in Hblock.
  destruct (message_loop_stops E P pre post m (after_fetch w1) e Hpre Hstep)
    as (Hres & Htr & _).
  destruct (message_loop_top_level E P pre (after_fetch w1)) as [Hfull _].
  assert (Hbr : res (unread_block E w1) = Raise e)
    by (rewrite Hblock; exact Hres).
  assert (Htry : unread_try E w1 = unread_block E w1).
  { apply unread_try_passes. rewrite Hbr. intros Heq; inversion Heq.
    contradiction. }
  assert (Hbody : res (get_unread_messages_body E fuel w) = Raise e /\
                  tr (get_unread_messages_body E fuel w) =
                  tr (oa_refresh E fuel false w) ++
                  EvGetUnread :: tr (message_loop E pre (after_fetch w1)) ++
                  tr (unread_step E m
                        (st (message_loop E pre (after_fetch w1))))).
  { unfold get_unread_messages_body.
    rewrite (bind_ok _ _ _ _ Hok); simpl. fold w1.
    rewrite Htry, Hblock; simpl. rewrite Hres, Htr. auto. }
  destruct Hbody as [Hb1 Hb2].
  assert (Heq : get_unread_messages E fuel w =
                get_unread_messages_body E fuel w).
  { unfold get_unread_messages, retry. apply retry_loop_passes.
    rewrite Hb1. intros H; inversion H; contradiction. }
  rewrite Heq. split; [exact Hb1|]. split.
  - rewrite Hb2, top_level_app. simpl.
    rewrite top_level_app, (Hfull Hpre). reflexivity.
  - rewrite Hb2. apply in_or_app. right. right. apply in_or_app. right.
    pose proof (unread_step_shape E P m
                  (st (message_loop E pre (after_fetch w1)))) as Hshape.
    destruct (mark_as_read E _ m); rewrite Hshape; left; reflexivity.
Qed.

Lemma other_errors_reach_the_caller_witness :
  res (@get_unread_messages (env_up [msg_reply; msg_alice]) broken_plugin 1
         (authenticated_world 5000)) = Raise AttributeError /\
  In (EvMarkAsRead msg_reply)
     (tr (@get_unread_messages (env_up [msg_reply; msg_alice]) broken_plugin
            1 (authenticated_world 5000))).
Proof.
  assert (Ha : AttributeError <> AssertionError) by discriminate.
  assert (Hh : AttributeError <> HTTPException) by discriminate.
  destruct (other_errors_reach_the_caller
              (env_up [msg_reply; msg_alice]) broken_plugin 1
              (authenticated_world 5000)
              (mkSession "Leafeator" ("key", "secret") None)
              [] [msg_alice] msg_reply AttributeError
              Ha Hh eq_refl eq_refl eq_refl eq_refl eq_refl)
    as (H1 & _ & H3).
  split; [exact H1 | exact H3].
Defined.

(** ** The authorization code of _get_keys_manually *)

Lemma drop_append_length (p rest : string) :
  drop (String.length p) (p ++ rest) = rest.
Proof. induction p as [|c p IH]; simpl; [reflexivity | exact IH]. Qed.

Lemma contains_empty_hay (a : ascii) (sep : string) :
  contains (String a sep) EmptyString = false.
Proof. reflexivity. Qed.

(** The pieces of a text: there is always one; the last one holds no
    separator; a single piece is the whole text, and with more pieces the
    text ends in a separator followed by the last piece. *)
Lemma split_from_last (a : ascii) (sep' : string) :
  forall (s : string) (skip : nat),
  let sep := String a sep' in
  let pieces := split_from sep skip s in
  pieces <> [] /\
  contains sep (last pieces EmptyString) = false /\
  ((pieces = [drop skip s]) \/
   (exists pre, (2 <= List.length pieces)%nat /\
                drop skip s =
                  (pre ++ (sep ++ last pieces EmptyString))%string)).
Proof.
  intros s. induction s as [|c s IH]; intros skip sep pieces.
  - subst pieces. cbn [split_from]. split; [discriminate|].
    split; [reflexivity|]. left. destruct skip; reflexivity.
  - destruct skip as [|k].
    + subst pieces. cbn [split_from drop].
      destruct (prefix sep (String c s)) eqn:Hp.
      * destruct (IH (String.length sep - 1)%nat) as (Hne & Hc & Hshape).
        fold sep in Hne, Hc, Hshape.
        set (rest := split_from sep (String.length sep - 1) s) in *.
        assert (Hlast : last (EmptyString :: rest) EmptyString =
                        last rest EmptyString).
        { destruct rest; [contradiction | reflexivity]. }
        rewrite Hlast. split; [discriminate|]. split; [exact Hc|].
        right.
        destruct (prefix_split _ _ Hp) as [tail Htail].
        assert (Hs : s = (sep' ++ tail)%string).
        { unfold sep in Htail. cbn [append] in Htail.
          inversion Htail; reflexivity. }
        assert (Hdrop : drop (String.length sep - 1) s = tail).
        { unfold sep. cbn [String.length]. rewrite Nat.sub_1_r.
          cbn [Nat.pred]. rewrite Hs. apply drop_append_length. }
        rewrite Hdrop in Hshape.
        destruct Hshape as [Hone|(pre & Hlen & Hmore)].
        -- exists EmptyString. split.
           ++ destruct rest; [contradiction | simpl; lia].
           ++ rewrite Hone. cbn [last append]. exact Htail.
        -- exists (sep ++ pre)%string. split.
           ++ simpl. lia.
           ++ rewrite Htail, Hmore, append_assoc. reflexivity.
      * destruct (IH 0%nat) as (Hne & Hc & Hshape).
        fold sep in Hne, Hc, Hshape. cbn [drop] in Hshape.
        destruct (split_from sep 0 s) as [|piece rest] eqn:Hsplit;
          [contradiction|].
        split; [discriminate|].
        destruct rest as [|piece2 rest].
        -- destruct Hshape as [Hone|(pre & Hlen & _)];
             [|simpl in Hlen; lia].
           inversion Hone; subst piece.
           cbn [last] in *. split.
           ++ cbn [contains]. rewrite Hp. exact Hc.
           ++ left. reflexivity.
        -- assert (Hlast : last (String c piece :: piece2 :: rest)
                             EmptyString =
                           last (piece :: piece2 :: rest) EmptyString)
             by reflexivity.
           rewrite Hlast. split; [exact Hc|]. right.
           destruct Hshape as [Hone|(pre & Hlen & Hmore)];
             [discriminate Hone|].
           exists (String c pre). split; [simpl; lia|].
           cbn [append]. rewrite Hmore. reflexivity.
    + subst pieces. cbn [split_from drop]. apply IH.
Qed.

Lemma authorization_code_tail (return_url : string) :
  contains "code=" (authorization_code return_url) = false /\
  (return_url = authorization_code return_url \/
   exists pre,
     return_url = (pre ++ ("code=" ++ authorization_code return_url))%string)
  /\
  (contains "code=" return_url = false ->
   authorization_code return_url = return_url).
Proof.
  destruct (split_from_last "c" "ode=" return_url 0)
    as (Hne & Hc & Hshape).
  cbn [drop] in Hshape.
  fold (split return_url "code=") in Hne, Hc, Hshape.
  fold (authorization_code return_url) in Hc, Hshape.
  assert (Hcases : return_url = authorization_code return_url \/
                   exists pre,
                     return_url =
                       (pre ++ ("code=" ++ authorization_code return_url))
                       %string).
  { destruct Hshape as [Hone|(pre & _ & Hmore)].
    - left. unfold authorization_code. rewrite Hone. reflexivity.
    - right. exists pre. exact Hmore. }
  split; [exact Hc|]. split; [exact Hcases|].
  intros Hno. destruct Hcases as [Heq|(pre & Heq)].
  - symmetry; exact Heq.
  - rewrite Heq, contains_append in Hno. discriminate.
Qed.

(** X15: The code taken from the redirect holds no [code=]; it is the whole
    input when the input holds no [code=], and otherwise the input ends in
    [code=] followed by it: the code is what follows the last [code=],
    with whatever parameters come after it. *)
Theorem authorization_code_is_the_tail (return_url : string) :
  contains "code=" (authorization_code return_url) = false /\
  (return_url = authorization_code return_url \/
   exists pre,
     return_url = (pre ++ ("code=" ++ authorization_code return_url))%string)
  /\
  (contains "code=" return_url = false ->
   authorization_code return_url = return_url).
Proof. exact (authorization_code_tail return_url). Qed.

Lemma authorization_code_is_the_tail_witness :
  authorization_code "4fXq-no-marker" = "4fXq-no-marker".
Proof.
  exact (proj2 (proj2 (authorization_code_is_the_tail "4fXq-no-marker"))
           eq_refl).
Defined.

Lemma append_eq_cases (a x b y : string) :
  (a ++ x)%string = (b ++ y)%string ->
  (exists z, b = (a ++ z)%string /\ x = (z ++ y)%string) \/
  (exists z, a = (b ++ z)%string /\ y = (z ++ x)%string).
Proof.
  revert b. induction a as [|c a IH]; intros b H.
  - left. exists b. split; [reflexivity | exact H].
  - destruct b as [|c' b].
    + right. exists (String c a). split; [reflexivity|]. symmetry; exact H.
    + cbn [append] in H. inversion H; subst c'.
      destruct (IH b H2) as [(z & Hb & Hx)|(z & Ha & Hy)].
      * left. exists z. split; [cbn [append]; rewrite Hb; reflexivity|].
        exact Hx.
      * right. exists z. split; [cbn [append]; rewrite Ha; reflexivity|].
        exact Hy.
Qed.

Lemma length_append (a b : string) :
  String.length (a ++ b) = (String.length a + String.length b)%nat.
Proof. induction a as [|c a IH]; simpl; [reflexivity | rewrite IH; reflexivity]. Qed.

(** No proper start of [code=] is also an end of it. *)
Lemma code_marker_has_no_border (u z v : string) :
  "code=" = (u ++ z)%string -> "code=" = (v ++ u)%string ->
  u = EmptyString \/ z = EmptyString.
Proof.
  intros H1 H2.
  destruct u as [|a1 [|a2 [|a3 [|a4 [|a5 [|a6 u]]]]]];
    cbn [append] in H1; inversion H1; subst; auto.
  all: exfalso.
  all: destruct v as [|b1 [|b2 [|b3 [|b4 [|b5 [|b6 v]]]]]];
    cbn [append] in H2; inversion H2.
  all: match goal with
       | H : EmptyString = (_ ++ String _ _)%string |- _ =>
           destruct v; discriminate H
       end.
Qed.

Lemma code_tail_shorter (p1 p2 z y : string) :
  (p2 ++ "code=")%string = ((p1 ++ "code=") ++ z)%string ->
  contains "code=" (z ++ y) = false ->
  z = EmptyString.
Proof.
  intros Heq Hno.
  destruct (append_eq_cases _ _ _ _ Heq) as [(u & Hq & Hsep)|(u & _ & Hz)].
  - destruct z as [|cz z]; [reflexivity|]. exfalso.
    destruct u as [|cu u].
    + cbn [append] in Hsep. rewrite <- Hsep in Hno.
      change ("code=" ++ y)%string
        with (EmptyString ++ ("code=" ++ y))%string in Hno.
      rewrite contains_append in Hno. discriminate.
    + destruct (append_eq_cases _ _ _ _ Hq) as [(v & _ & Hsep2)|(v & _ & Hu)].
      * destruct (code_marker_has_no_border _ _ _ Hsep Hsep2); discriminate.
      * apply (f_equal String.length) in Hsep.
        rewrite Hu, !length_append in Hsep. simpl in Hsep. lia.
  - rewrite Hz, append_assoc, contains_append in Hno. discriminate.
Qed.

(** X16: What follows the last [code=] is what is taken: for an input that
    reads [pre], [code=] and a text free of [code=], the code is that
    text. *)
Theorem authorization_code_after_last_marker (pre code : string) :
  contains "code=" code = false ->
  authorization_code (pre ++ ("code=" ++ code)) = code.
Proof.
  intros Hno.
  destruct (authorization_code_tail (pre ++ ("code=" ++ code)))
    as (Hr & Hcases & _).
  set (r := authorization_code (pre ++ ("code=" ++ code))) in *.
  destruct Hcases as [Heq|(pre' & Heq)].
  - rewrite <- Heq, contains_append in Hr. discriminate.
  - rewrite <- !append_assoc in Heq.
    destruct (append_eq_cases _ _ _ _ Heq) as [(z & Hp & Hx)|(z & Hp & Hy)].
    + rewrite Hx in Hno.
      rewrite (code_tail_shorter pre pre' z r Hp Hno) in Hx.
      symmetry; exact Hx.
    + rewrite Hy in Hr.
      rewrite (code_tail_shorter pre' pre z code Hp Hr) in Hy.
      exact Hy.
Qed.

Lemma authorization_code_after_last_marker_witness :
  authorization_code
    "http://127.0.0.1:65010/authorize_callback?state=LeafeatorBot&code=q7_Zx"
  = "q7_Zx".
Proof.
  exact (authorization_code_after_last_marker
           "http://127.0.0.1:65010/authorize_callback?state=LeafeatorBot&"
           "q7_Zx" eq_refl).
Defined.

(** ** Construction from the configuration *)

Lemma in_options_of_get (cfg : list (string * string)) (x v : string) :
  Setup.config_get cfg x = Some v ->
  Setup.in_options x (Setup.options_of cfg) = true.
Proof.
  induction cfg as [|[o v'] cfg IH]; simpl; [discriminate|].
  rewrite (String.eqb_sym x o).
  destruct (String.eqb o x); [reflexivity | exact IH].
Qed.

Lemma get_of_in_options (cfg : list (string * string)) (x : string) :
  Setup.in_options x (Setup.options_of cfg) = false ->
  Setup.config_get cfg x = None.
Proof.
  induction cfg as [|[o v'] cfg IH]; simpl; [reflexivity|].
  rewrite (String.eqb_sym x o).
  destruct (String.eqb o x); [discriminate | exact IH].
Qed.

Lemma sbind_silent {A B} (m : Setup.MS A) (f : A -> Setup.MS B)
    (p p1 : Setup.Plugin) (a : A) :
  m p = Setup.mkSout (Setup.SOk a) p1 [] ->
  Setup.sbind m f p = f a p1.
Proof.
  intros H. unfold Setup.sbind. rewrite H.
  destruct (f a p1); reflexivity.
Qed.

Lemma sbind_ok {A B} (m : Setup.MS A) (f : A -> Setup.MS B)
    (p p1 : Setup.Plugin) (a : A) (t1 : list Setup.setup_event) :
  m p = Setup.mkSout (Setup.SOk a) p1 t1 ->
  Setup.sbind m f p =
    Setup.mkSout (Setup.sres (f a p1)) (Setup.sst (f a p1))
                 (t1 ++ Setup.str (f a p1)).
Proof.
  intros H. unfold Setup.sbind. rewrite H.
  destruct (f a p1); reflexivity.
Qed.

Lemma sbind_raise {A B} (m : Setup.MS A) (f : A -> Setup.MS B)
    (p p1 : Setup.Plugin) (e : Setup.setup_exn)
    (t1 : list Setup.setup_event) :
  m p = Setup.mkSout (Setup.SRaise e) p1 t1 ->
  Setup.sbind m f p = Setup.mkSout (Setup.SRaise e) p1 t1.
Proof. intros H. unfold Setup.sbind. rewrite H. reflexivity. Qed.

Lemma setup_get_ok (p : Setup.Plugin) (cfg : list (string * string))
    (x v : string) :
  Setup.config p = Some cfg -> Setup.config_get cfg x = Some v ->
  Setup.get x p = Setup.mkSout (Setup.SOk v) p [].
Proof.
  intros Hc Hv. unfold Setup.get, Setup.sbind, Setup.sgetattr.
  rewrite Hc, Hv. reflexivity.
Qed.

Lemma setup_getboolean_ok (p : Setup.Plugin) (cfg : list (string * string))
    (x v : string) (b : bool) :
  Setup.config p = Some cfg -> Setup.config_get cfg x = Some v ->
  Setup.boolean_word v = Some b ->
  Setup.getboolean x p = Setup.mkSout (Setup.SOk b) p [].
Proof.
  intros Hc Hv Hb. unfold Setup.getboolean.
  rewrite (sbind_silent _ _ _ _ _ (setup_get_ok p cfg x v Hc Hv)).
  rewrite Hb. reflexivity.
Qed.

(** One silent step of the constructor: an assignment, or a read of the
    section that the hypotheses answer. *)
Ltac setup_step :=
  first
    [ erewrite sbind_silent
        by (eapply setup_get_ok; [reflexivity | eassumption])
    | erewrite sbind_silent
        by (eapply setup_getboolean_ok;
            [reflexivity | eassumption | eassumption])
    | rewrite (sbind_silent _ _ _ _ _ eq_refl) ].

(** X17: A plugin that needs a login and whose section lacks one of [app_key],
    [app_secret], [self_ignore] and [username] is not constructed: the
    constructor raises [AttributeError] before any session is built or
    any call made. *)
Theorem init_incomplete_config
    (E : Env) (O : Setup.Operator) (fuel : nat)
    (db : option DatabaseProvider) (h : option RedditRoverHandler)
    (bot_name : string) (cfg : list (string * string)) (d v : string) :
  Setup.config_get cfg "description" = Some d ->
  Setup.config_get cfg "is_logged_in" = Some v ->
  Setup.boolean_word v = Some true ->
  forallb (fun value => Setup.in_options value (Setup.options_of cfg))
          Setup.check_values = false ->
  Setup.sres (Setup.__init__ E O fuel db h bot_name cfg) =
    Setup.SRaise (Setup.Base AttributeError) /\
  Setup.str (Setup.__init__ E O fuel db h bot_name cfg) = [] /\
  session (self (Setup.base
                   (Setup.sst (Setup.__init__ E O fuel db h bot_name cfg)))) =
    None /\
  n_refresh (Setup.base
               (Setup.sst (Setup.__init__ E O fuel db h bot_name cfg))) =
    0%nat.
Proof.
  intros Hd Hl Hb Hmiss.
  unfold Setup.__init__, Setup.setup_from_config.
  do 5 setup_step. rewrite Hmiss.
  repeat split.
Qed.

Lemma init_incomplete_config_witness :
  Setup.sres (Setup.__init__ (env_up []) operator0 1
                (Some databaseProvider) (Some roverHandler) "LeafeatorBot"
                cfg_incomplete) =
    Setup.SRaise (Setup.Base AttributeError).
Proof.
  exact (proj1 (init_incomplete_config (env_up []) operator0 1
                  (Some databaseProvider) (Some roverHandler) "LeafeatorBot"
                  cfg_incomplete "Leafeator" "1"
                  eq_refl eq_refl eq_refl eq_refl)).
Defined.

(** ** integrity_check *)

(** The case of a check that ends in an exception: the result is not
    [True], and the conditions are refuted by the attributes at hand. *)
Ltac integrity_fails :=
  split;
  [ split;
    [ intros Hres; discriminate Hres
    | intros Hc; exfalso;
      destruct Hc as
        (Hd & [(Hl & n & s & t & Hu & Hn' & Hs & Hcr' & Ha)
              | (Hl & Hu & Hs & Hf)]);
      cbn in *; congruence ]
  | repeat split; discriminate ].

(** X18: [integrity_check] returns [True] exactly for an object that has a
    description and either is declared logged in, with a username that is
    not empty and a session with a token bound whose account is the
    username up to letter case, or is declared not logged in, with
    [USERNAME] and [session] both holding [False].  It never returns
    [False]: every other object ends in an exception; and it changes
    nothing. *)
Theorem integrity_check_passes_exactly
    (O : Setup.Operator) (p : Setup.Plugin) :
  (Setup.sres (Setup.integrity_check O p) = Setup.SOk true <->
   (DESCRIPTION (self (Setup.base p)) <> None /\
    ((Setup.IS_LOGGED_IN p = Some true /\
      exists name sess td,
        Setup.USERNAME p = Some (Setup.UName name) /\
        truthy name = true /\
        session (self (Setup.base p)) = Some sess /\
        access_credentials sess = Some td /\
        lower (Setup.account O) = lower name) \/
     (Setup.IS_LOGGED_IN p = Some false /\
      Setup.USERNAME p = Some Setup.UFalse /\
      session (self (Setup.base p)) = None /\
      Setup.session_holds_False p = true)))) /\
  Setup.sres (Setup.integrity_check O p) <> Setup.SOk false /\
  Setup.sst (Setup.integrity_check O p) = p /\
  Setup.str (Setup.integrity_check O p) = [].
Proof.
  destruct p as [[[dur sn dbs bn hd ds ak asec rt at_ vu] nt nr nu nm]
                 c li si u sf].
  unfold Setup.integrity_check, Setup.sbind, Setup.sget, Setup.sassert,
    Setup.sgetattr, Setup.sret, Setup.sraise, Setup.session_user_name,
    Setup.session_is_False; cbn.
  destruct ds as [d|]; cbn; [|integrity_fails].
  destruct li as [[|]|]; cbn; [| |integrity_fails].
  - destruct u as [[|name]|]; cbn; [integrity_fails| |integrity_fails].
    destruct (truthy name) eqn:Hn; cbn; [|integrity_fails].
    destruct sn as [sess|]; cbn; [|integrity_fails].
    destruct (access_credentials sess) as [td|] eqn:Hcr; cbn;
      [|integrity_fails].
    destruct (String.eqb (lower (Setup.account O)) (lower name)) eqn:He;
      cbn.
    + apply String.eqb_eq in He.
      split; [|repeat split; discriminate].
      split; [intros _|reflexivity].
      split; [discriminate|]. left. split; [reflexivity|].
      exists name, sess, td. auto.
    + apply String.eqb_neq in He. integrity_fails.
  - destruct u as [[|name]|]; cbn; [|integrity_fails|integrity_fails].
    destruct sn as [sess|]; cbn; [integrity_fails|].
    destruct sf; cbn; [|integrity_fails].
    split; [|repeat split; discriminate].
    split; [intros _|reflexivity].
    split; [discriminate|]. right. repeat split.
Qed.

Lemma integrity_check_passes_exactly_witness :
  Setup.sres (Setup.integrity_check operator0 anonymous_object) =
    Setup.SOk true /\
  Setup.sres (Setup.integrity_check operator0
                (Setup.mkFull fresh_world None (Some false) None
                   (Some Setup.UFalse))) =
    Setup.SRaise (Setup.Base AssertionError).
Proof.
  split.
  - apply (proj1 (integrity_check_passes_exactly operator0
                    anonymous_object)).
    split; [discriminate|]. right. repeat split.
  - reflexivity.
Defined.

(** X19: A plugin whose section says that it is not logged in is constructed
    without a session and without any call, and does not pass the
    integrity check: [__init__] sets no [USERNAME] for it, which the check
    asserts to exist. *)
Theorem init_anonymous_fails_integrity_check
    (E : Env) (O : Setup.Operator) (fuel : nat)
    (db : option DatabaseProvider) (h : option RedditRoverHandler)
    (bot_name : string) (cfg : list (string * string)) (d v : string) :
  Setup.config_get cfg "description" = Some d ->
  Setup.config_get cfg "is_logged_in" = Some v ->
  Setup.boolean_word v = Some false ->
  Setup.sres (Setup.__init__ E O fuel db h bot_name cfg) = Setup.SOk tt /\
  Setup.str (Setup.__init__ E O fuel db h bot_name cfg) = [] /\
  session (self (Setup.base
                   (Setup.sst (Setup.__init__ E O fuel db h bot_name cfg)))) =
    None /\
  Setup.USERNAME (Setup.sst (Setup.__init__ E O fuel db h bot_name cfg)) =
    None /\
  Setup.sres (Setup.integrity_check O
                (Setup.sst (Setup.__init__ E O fuel db h bot_name cfg))) =
    Setup.SRaise (Setup.Base AssertionError).
Proof.
  intros Hd Hl Hb.
  unfold Setup.__init__, Setup.setup_from_config.
  do 5 setup_step.
  repeat split.
Qed.

Lemma init_anonymous_fails_integrity_check_witness :
  Setup.sres (Setup.integrity_check operator0
                (Setup.sst (Setup.__init__ (env_up []) operator0 1
                              (Some databaseProvider) (Some roverHandler)
                              "LeafeatorBot" cfg_anonymous))) =
    Setup.SRaise (Setup.Base AssertionError).
Proof.
  destruct (init_anonymous_fails_integrity_check (env_up []) operator0 1
              (Some databaseProvider) (Some roverHandler) "LeafeatorBot"
              cfg_anonymous "Leafeator" "off" eq_refl eq_refl eq_refl)
    as (_ & _ & _ & _ & H).
  exact H.
Defined.

Lemma lift_eq {A} (m : M A) (p : Setup.Plugin) (r : result A) (w1 : World)
    (t1 : list event) :
  m (Setup.base p) = mkOut r w1 t1 ->
  Setup.lift m p =
    Setup.mkSout (Setup.lift_result r)
      (Setup.mkObject w1 (Setup.config p) (Setup.IS_LOGGED_IN p)
                      (Setup.SELF_IGNORE p) (Setup.USERNAME p)
                      (Setup.session_holds_False p))
      (map Setup.SetupBase t1).
Proof. intros H. unfold Setup.lift. rewrite H. reflexivity. Qed.

Lemma check_values_present (cfg : list (string * string))
    (vs u k sec : string) :
  Setup.config_get cfg "self_ignore" = Some vs ->
  Setup.config_get cfg "username" = Some u ->
  Setup.config_get cfg "app_key" = Some k ->
  Setup.config_get cfg "app_secret" = Some sec ->
  forallb (fun value => Setup.in_options value (Setup.options_of cfg))
          Setup.check_values = true.
Proof.
  intros H1 H2 H3 H4. unfold Setup.check_values. cbn [forallb].
  rewrite (in_options_of_get _ _ _ H1), (in_options_of_get _ _ _ H2),
    (in_options_of_get _ _ _ H3), (in_options_of_get _ _ _ H4).
  reflexivity.
Qed.

(** X20: A plugin that needs a login and whose section is complete and holds a
    refresh token is constructed logged in: one session is built, the
    platform is asked once, with the token of the section, and the answer
    is stored and bound to the session.  The object then passes the
    integrity check exactly when the account of that token is the
    configured username up to letter case. *)
Theorem init_logs_in
    (E : Env) (O : Setup.Operator) (fuel : nat)
    (db : option DatabaseProvider) (hd : RedditRoverHandler)
    (bot_name : string) (cfg : list (string * string))
    (d vl vs u k sec t : string) (si : bool) (td : token_dict) :
  Setup.config_get cfg "description" = Some d ->
  Setup.config_get cfg "is_logged_in" = Some vl ->
  Setup.boolean_word vl = Some true ->
  Setup.config_get cfg "self_ignore" = Some vs ->
  Setup.boolean_word vs = Some si ->
  Setup.config_get cfg "username" = Some u ->
  Setup.config_get cfg "app_key" = Some k ->
  Setup.config_get cfg "app_secret" = Some sec ->
  Setup.config_get cfg "refresh_token" = Some t ->
  truthy d = true -> truthy k = true -> truthy sec = true ->
  truthy t = true -> truthy u = true ->
  refresh_access_information E 0 t = inl td ->
  Setup.sres (Setup.__init__ E O (S fuel) db (Some hd) bot_name cfg) =
    Setup.SOk tt /\
  Setup.str (Setup.__init__ E O (S fuel) db (Some hd) bot_name cfg) =
    map Setup.SetupBase
      [EvNewSession d; EvRefreshed td; EvTime (clock E 0);
       EvSetAccessCredentials td] /\
  session (self (Setup.base (Setup.sst
    (Setup.__init__ E O (S fuel) db (Some hd) bot_name cfg)))) =
    Some (mkSession d (k, sec) (Some td)) /\
  credentials (self (Setup.base (Setup.sst
    (Setup.__init__ E O (S fuel) db (Some hd) bot_name cfg)))) =
    (Some (access_token td), Some (clock E 0 + 3540)%Z) /\
  Setup.sres (Setup.integrity_check O (Setup.sst
    (Setup.__init__ E O (S fuel) db (Some hd) bot_name cfg))) =
    (if String.eqb (lower (Setup.account O)) (lower u)
     then Setup.SOk true
     else Setup.SRaise (Setup.Base AssertionError)).
Proof.
  intros Hd Hl Hlb Hs Hsb Hu Hk Hsec Ht Hdt Hkt Hst Htt Hut Hr.
  unfold Setup.__init__, Setup.setup_from_config.
  do 5 setup_step.
  rewrite (check_values_present cfg vs u k sec Hs Hu Hk Hsec).
  do 8 setup_step.
  rewrite (in_options_of_get _ _ _ Ht).
  erewrite sbind_silent.
  2: { erewrite sbind_silent
         by (eapply setup_get_ok; [reflexivity | eassumption]).
       reflexivity. }
  erewrite lift_eq.
  2: { apply (factory_reddit_login E fuel _ d k sec t td); auto.
       cbn. repeat split; auto. discriminate. }
  cbn. rewrite Hut. cbn.
  destruct (String.eqb (lower (Setup.account O)) (lower u)); cbn;
    repeat split.
Qed.

Lemma init_logs_in_witness :
  Setup.sres (Setup.__init__ (env_up []) operator0 1
                (Some databaseProvider) (Some roverHandler) "LeafeatorBot"
                cfg_login) = Setup.SOk tt /\
  Setup.sres (Setup.integrity_check operator0
                (Setup.sst (Setup.__init__ (env_up []) operator0 1
                              (Some databaseProvider) (Some roverHandler)
                              "LeafeatorBot" cfg_login))) =
    Setup.SOk true.
Proof.
  destruct (init_logs_in (env_up []) operator0 0 (Some databaseProvider)
              roverHandler "LeafeatorBot" cfg_login
              "Leafeator" "True" "yes" "LeafeatorBot" "key" "secret"
              "refresh-0" true tokens1
              eq_refl eq_refl eq_refl eq_refl eq_refl eq_refl eq_refl
              eq_refl eq_refl eq_refl eq_refl eq_refl eq_refl eq_refl
              eq_refl) as (H1 & _ & _ & _ & H5).
  split; [exact H1 | exact H5].
Defined.

(** ** _get_keys_manually *)

Lemma oa_refresh_forced_ok (E : Env) (fuel : nat) (w : World)
    (token : string) (sess : Session) (td : token_dict) :
  OA_REFRESH_TOKEN (self w) = Some token -> truthy token = true ->
  session (self w) = Some sess ->
  refresh_access_information E (n_refresh w) token = inl td ->
  oa_refresh E (S fuel) true w =
    mkOut (Ok tt)
      (mkWorld (with_token (self w) sess td (clock E (n_time w)))
               (S (n_time w)) (S (n_refresh w)) (n_unread w) (n_mark w))
      [EvRefreshed td; EvTime (clock E (n_time w));
       EvSetAccessCredentials td].
Proof.
  intros Ht Htr Hs Hr.
  pose proof (forced_attempt_succeeds E w token sess td Ht Htr Hs Hr) as H.
  cbn [oa_refresh]. rewrite try_except_passes; [exact H|].
  rewrite H; discriminate.
Qed.

Lemma config_get_set (cfg : list (string * string)) (x v : string) :
  Setup.config_get (Setup.config_set cfg x v) x = Some v.
Proof.
  induction cfg as [|[o v'] cfg IH]; simpl.
  - rewrite String.eqb_refl. reflexivity.
  - destruct (String.eqb o x) eqn:He; simpl; rewrite He; auto.
Qed.

Lemma config_get_set_other (cfg : list (string * string)) (x y v : string) :
  x <> y ->
  Setup.config_get (Setup.config_set cfg x v) y = Setup.config_get cfg y.
Proof.
  intros Hxy. induction cfg as [|[o v'] cfg IH]; simpl.
  - apply String.eqb_neq in Hxy. rewrite Hxy. reflexivity.
  - destruct (String.eqb o x) eqn:He; simpl.
    + apply String.eqb_eq in He; subst o.
      apply String.eqb_neq in Hxy. rewrite Hxy. reflexivity.
    + rewrite IH. reflexivity.
Qed.

(** X21: The bootstrap asks nothing of the operator unless the application key
    and secret are set and not empty: otherwise it ends in
    [AttributeError] or [AssertionError] with nothing logged, no session
    built and the object as it was. *)
Theorem get_keys_needs_key_and_secret
    (E : Env) (O : Setup.Operator) (fuel : nat) (p : Setup.Plugin) :
  (forall k sec,
     OA_APP_KEY (self (Setup.base p)) = Some k -> truthy k = true ->
     OA_APP_SECRET (self (Setup.base p)) = Some sec -> truthy sec = false) ->
  Setup.sst (Setup._get_keys_manually E O fuel p) = p /\
  Setup.str (Setup._get_keys_manually E O fuel p) = [] /\
  (Setup.sres (Setup._get_keys_manually E O fuel p) =
     Setup.SRaise (Setup.Base AttributeError) \/
   Setup.sres (Setup._get_keys_manually E O fuel p) =
     Setup.SRaise (Setup.Base AssertionError)).
Proof.
  intros Hbad.
  unfold Setup._get_keys_manually, Setup.sbind, Setup.sgetattr,
    Setup.sassert, Setup.sret, Setup.sraise.
  destruct (OA_APP_KEY (self (Setup.base p))) as [k|] eqn:Hk; cbn; auto.
  destruct (truthy k) eqn:Hkt; cbn; auto.
  destruct (OA_APP_SECRET (self (Setup.base p))) as [sec|] eqn:Hs; cbn; auto.
  rewrite (Hbad k sec eq_refl Hkt eq_refl). cbn. auto.
Qed.

Lemma get_keys_needs_key_and_secret_witness :
  Setup.str (Setup._get_keys_manually (env_up []) operator0 1
               (Setup.mkFull fresh_world (Some cfg_bootstrap) None None None))
    = [].
Proof.
  assert (H : forall k sec,
             OA_APP_KEY (self fresh_world) = Some k -> truthy k = true ->
             OA_APP_SECRET (self fresh_world) = Some sec ->
             truthy sec = false)
    by (intros k sec Hk; discriminate Hk).
  exact (proj1 (proj2 (get_keys_needs_key_and_secret (env_up []) operator0 1
                         (Setup.mkFull fresh_world (Some cfg_bootstrap)
                                       None None None) H))).
Defined.

(** X22: The bootstrap, when the operator's code is accepted: the code sent is
    what follows the last [code=] of the address typed in; the refresh
    token of the answer is stored in the object and in the section, the
    section is written, and the closing forced refresh uses that new
    token on the session built for the exchange. *)
Theorem get_keys_stores_refresh_token
    (E : Env) (O : Setup.Operator) (fuel : nat) (p : Setup.Plugin)
    (d k sec : string) (cfg : list (string * string))
    (ai td : token_dict) :
  OA_APP_KEY (self (Setup.base p)) = Some k -> truthy k = true ->
  OA_APP_SECRET (self (Setup.base p)) = Some sec -> truthy sec = true ->
  DESCRIPTION (self (Setup.base p)) = Some d ->
  Setup.config p = Some cfg ->
  Setup.get_access_information O (authorization_code (Setup.typed_url O)) =
    inl ai ->
  truthy (refresh_token ai) = true ->
  refresh_access_information E (n_refresh (Setup.base p)) (refresh_token ai)
    = inl td ->
  Setup.sres (Setup._get_keys_manually E O (S fuel) p) = Setup.SOk tt /\
  OA_REFRESH_TOKEN (self (Setup.base
    (Setup.sst (Setup._get_keys_manually E O (S fuel) p)))) =
    Some (refresh_token ai) /\
  Setup.config (Setup.sst (Setup._get_keys_manually E O (S fuel) p)) =
    Some (Setup.config_set cfg "refresh_token" (refresh_token ai)) /\
  session (self (Setup.base
    (Setup.sst (Setup._get_keys_manually E O (S fuel) p)))) =
    Some (mkSession d (k, sec) (Some td)) /\
  OA_ACCESS_TOKEN (self (Setup.base
    (Setup.sst (Setup._get_keys_manually E O (S fuel) p)))) =
    Some (access_token td) /\
  filter (fun e => match e with
                   | Setup.SetupBase (EvLogInfo _) => false
                   | _ => true
                   end)
         (Setup.str (Setup._get_keys_manually E O (S fuel) p)) =
    [Setup.SetupBase (EvNewSession d);
     Setup.SetupAuthorizeUrl (BOT_NAME (self (Setup.base p)));
     Setup.SetupInput;
     Setup.SetupAccessInformation (authorization_code (Setup.typed_url O));
     Setup.SetupConfigSet "refresh_token" (refresh_token ai);
     Setup.SetupConfigWrite;
     Setup.SetupBase (EvRefreshed td);
     Setup.SetupBase (EvTime (clock E (n_time (Setup.base p))));
     Setup.SetupBase (EvSetAccessCredentials td)].
Proof.
  intros Hk Hkt Hs Hst Hd Hc Hai Hrt Hr.
  destruct p as [[[dur sn dbs bn hd ds ak asec rt at_ vu] nt nr nu nm]
                 c li si u].
  cbn in Hk, Hs, Hd, Hc, Hr. subst ak asec ds c.
  unfold Setup._get_keys_manually, Setup.sbind, Setup.sgetattr,
    Setup.sassert, Setup.sret, Setup.sraise, Setup.semit, Setup.sget,
    Setup.sput, Setup.assign, Setup.lift, set_session, set_self.
  cbn -[oa_refresh authorization_code]. rewrite Hkt.
  cbn -[oa_refresh authorization_code]. rewrite Hst.
  cbn -[oa_refresh authorization_code]. rewrite Hai.
  cbn -[oa_refresh authorization_code].
  erewrite (oa_refresh_forced_ok E fuel _ (refresh_token ai)
              (mkSession d (k, sec) None) td);
    [| reflexivity | exact Hrt | reflexivity | exact Hr].
  cbn -[authorization_code]. repeat split.
Qed.

Lemma get_keys_stores_refresh_token_witness :
  Setup.config
    (Setup.sst (Setup._get_keys_manually (env_up []) operator0 1
                  (Setup.mkFull configured_world (Some cfg_bootstrap)
                                (Some true) (Some true) None))) =
    Some (cfg_bootstrap ++ [("refresh_token", "refresh-q7")]).
Proof.
  destruct (get_keys_stores_refresh_token (env_up []) operator0 0
              (Setup.mkFull configured_world (Some cfg_bootstrap)
                            (Some true) (Some true) None)
              "Leafeator" "key" "secret" cfg_bootstrap
              (mkTokens "access-b" "refresh-q7" "identity") tokens1
              eq_refl eq_refl eq_refl eq_refl eq_refl eq_refl eq_refl
              eq_refl eq_refl) as (_ & _ & H & _).
  rewrite H. reflexivity.
Defined.

(** X23: The bootstrap, when the platform rejects the code: the exception
    reaches the caller; the refresh token and the section are as before
    and nothing is written; the session the object held is gone, replaced
    by the one built for the exchange, with no token bound. *)
Theorem get_keys_exchange_rejected
    (E : Env) (O : Setup.Operator) (fuel : nat) (p : Setup.Plugin)
    (d k sec : string) (e : exn) :
  OA_APP_KEY (self (Setup.base p)) = Some k -> truthy k = true ->
  OA_APP_SECRET (self (Setup.base p)) = Some sec -> truthy sec = true ->
  DESCRIPTION (self (Setup.base p)) = Some d ->
  Setup.get_access_information O (authorization_code (Setup.typed_url O)) =
    inr e ->
  Setup.sres (Setup._get_keys_manually E O fuel p) =
    Setup.SRaise (Setup.Base e) /\
  OA_REFRESH_TOKEN (self (Setup.base
    (Setup.sst (Setup._get_keys_manually E O fuel p)))) =
    OA_REFRESH_TOKEN (self (Setup.base p)) /\
  Setup.config (Setup.sst (Setup._get_keys_manually E O fuel p)) =
    Setup.config p /\
  session (self (Setup.base
    (Setup.sst (Setup._get_keys_manually E O fuel p)))) =
    Some (mkSession d (k, sec) None) /\
  ~ In Setup.SetupConfigWrite
       (Setup.str (Setup._get_keys_manually E O fuel p)) /\
  n_refresh (Setup.base (Setup.sst (Setup._get_keys_manually E O fuel p))) =
    n_refresh (Setup.base p).
Proof.
  intros Hk Hkt Hs Hst Hd Hai.
  destruct p as [[[dur sn dbs bn hd ds ak asec rt at_ vu] nt nr nu nm]
                 c li si u].
  cbn in Hk, Hs, Hd. subst ak asec ds.
  unfold Setup._get_keys_manually, Setup.sbind, Setup.sgetattr,
    Setup.sassert, Setup.sret, Setup.sraise, Setup.semit, Setup.sget,
    Setup.sput, Setup.assign, Setup.lift, set_session, set_self.
  cbn -[oa_refresh authorization_code]. rewrite Hkt.
  cbn -[oa_refresh authorization_code]. rewrite Hst.
  cbn -[oa_refresh authorization_code]. rewrite Hai.
  cbn -[authorization_code]. repeat split.
  intros H. repeat (destruct H as [H|H]; try discriminate H). exact H.
Qed.

Lemma get_keys_exchange_rejected_witness :
  Setup.sres (Setup._get_keys_manually (env_up []) operator_rejected 1
                (Setup.mkFull configured_world (Some cfg_bootstrap)
                              (Some true) (Some true) None)) =
    Setup.SRaise (Setup.Base HTTPException).
Proof.
  exact (proj1 (get_keys_exchange_rejected (env_up []) operator_rejected 1
                  (Setup.mkFull configured_world (Some cfg_bootstrap)
                                (Some true) (Some true) None)
                  "Leafeator" "key" "secret" HTTPException
                  eq_refl eq_refl eq_refl eq_refl eq_refl eq_refl)).
Defined.

(** X24: A plugin that needs a login and whose section holds no refresh token
    goes through the bootstrap and then through [factory_reddit]: two
    sessions are built, the second replacing the first, and the platform is
    asked for an access token twice, both times with the refresh token of
    the exchange, which by then is in the section; the token in force is
    the second one. *)
Theorem init_bootstraps_and_logs_in_twice
    (E : Env) (O : Setup.Operator) (fuel : nat)
    (db : option DatabaseProvider) (hd : RedditRoverHandler)
    (bot_name : string) (cfg : list (string * string))
    (d vl vs u k sec : string) (si : bool) (ai td1 td2 : token_dict) :
  Setup.config_get cfg "description" = Some d ->
  Setup.config_get cfg "is_logged_in" = Some vl ->
  Setup.boolean_word vl = Some true ->
  Setup.config_get cfg "self_ignore" = Some vs ->
  Setup.boolean_word vs = Some si ->
  Setup.config_get cfg "username" = Some u ->
  Setup.config_get cfg "app_key" = Some k ->
  Setup.config_get cfg "app_secret" = Some sec ->
  Setup.in_options "refresh_token" (Setup.options_of cfg) = false ->
  truthy d = true -> truthy k = true -> truthy sec = true ->
  Setup.get_access_information O (authorization_code (Setup.typed_url O)) =
    inl ai ->
  truthy (refresh_token ai) = true ->
  refresh_access_information E 0 (refresh_token ai) = inl td1 ->
  refresh_access_information E 1 (refresh_token ai) = inl td2 ->
  Setup.sres (Setup.__init__ E O (S fuel) db (Some hd) bot_name cfg) =
    Setup.SOk tt /\
  n_refresh (Setup.base (Setup.sst
    (Setup.__init__ E O (S fuel) db (Some hd) bot_name cfg))) = 2%nat /\
  List.length (filter is_new_session (Setup.str
    (Setup.__init__ E O (S fuel) db (Some hd) bot_name cfg))) = 2%nat /\
  session (self (Setup.base (Setup.sst
    (Setup.__init__ E O (S fuel) db (Some hd) bot_name cfg)))) =
    Some (mkSession d (k, sec) (Some td2)) /\
  credentials (self (Setup.base (Setup.sst
    (Setup.__init__ E O (S fuel) db (Some hd) bot_name cfg)))) =
    (Some (access_token td2), Some (clock E 1 + 3540)%Z) /\
  OA_REFRESH_TOKEN (self (Setup.base (Setup.sst
    (Setup.__init__ E O (S fuel) db (Some hd) bot_name cfg)))) =
    Some (refresh_token ai) /\
  Setup.config (Setup.sst
    (Setup.__init__ E O (S fuel) db (Some hd) bot_name cfg)) =
    Some (Setup.config_set cfg "refresh_token" (refresh_token ai)).
Proof.
  intros Hd Hl Hlb Hs Hsb Hu Hk Hsec Hno Hdt Hkt Hst Hai Hrt Hr1 Hr2.
  unfold Setup.__init__, Setup.setup_from_config.
  do 5 setup_step.
  rewrite (check_values_present cfg vs u k sec Hs Hu Hk Hsec).
  do 8 setup_step.
  rewrite Hno.
  unfold Setup._get_keys_manually, Setup.sbind, Setup.sgetattr,
    Setup.sassert, Setup.sret, Setup.sraise, Setup.semit, Setup.sget,
    Setup.sput, Setup.assign, Setup.lift, set_session, set_self.
  cbn -[oa_refresh factory_reddit authorization_code]. rewrite Hkt.
  cbn -[oa_refresh factory_reddit authorization_code]. rewrite Hst.
  cbn -[oa_refresh factory_reddit authorization_code]. rewrite Hai.
  cbn -[oa_refresh factory_reddit authorization_code].
  erewrite (oa_refresh_forced_ok E fuel _ (refresh_token ai)
              (mkSession d (k, sec) None) td1);
    [| reflexivity | exact Hrt | reflexivity | exact Hr1].
  cbn -[factory_reddit authorization_code].
  erewrite (factory_reddit_login E fuel _ d k sec (refresh_token ai) td2);
    [| cbn; repeat split; auto; discriminate
     | reflexivity | exact Hrt | exact Hr2].
  cbn -[authorization_code]. repeat split.
Qed.

Lemma init_bootstraps_and_logs_in_twice_witness :
  n_refresh (Setup.base (Setup.sst
    (Setup.__init__ (env_up []) operator0 1 (Some databaseProvider)
       (Some roverHandler) "LeafeatorBot" cfg_bootstrap))) = 2%nat.
Proof.
  destruct (init_bootstraps_and_logs_in_twice (env_up []) operator0 0
              (Some databaseProvider) roverHandler "LeafeatorBot"
              cfg_bootstrap "Leafeator" "True" "yes" "LeafeatorBot" "key"
              "secret" true (mkTokens "access-b" "refresh-q7" "identity")
              tokens1 tokens1
              eq_refl eq_refl eq_refl eq_refl eq_refl eq_refl eq_refl
              eq_refl eq_refl eq_refl eq_refl eq_refl eq_refl eq_refl
              eq_refl eq_refl) as (_ & H & _).
  exact H.
Defined.

(** ** LeafeatorBot *)

Lemma lit_ci_sound (p s rest : string) :
  LeafeatorBot.lit_ci p s = Some rest ->
  exists x, s = (x ++ rest)%string /\ lower x = lower p.
Proof.
  revert s. induction p as [|a p IH]; intros s H.
  - injection H as <-. exists EmptyString; split; reflexivity.
  - destruct s as [|b s]; [discriminate|]. cbn [LeafeatorBot.lit_ci] in H.
    destruct (Ascii.eqb (lower_ascii a) (lower_ascii b)) eqn:Hab;
      [|discriminate].
    apply Ascii.eqb_eq in Hab.
    destruct (IH s H) as (x & -> & Hx).
    exists (String b x); split; [reflexivity|].
    cbn [lower]. rewrite Hx, Hab; reflexivity.
Qed.

Lemma lit_ci_complete (p x rest : string) :
  lower x = lower p -> LeafeatorBot.lit_ci p (x ++ rest) = Some rest.
Proof.
  revert x. induction p as [|a p IH]; intros x H.
  - destruct x; [reflexivity | discriminate].
  - destruct x as [|b x]; [discriminate|].
    cbn [lower] in H. injection H as Hb Hx.
    cbn [append LeafeatorBot.lit_ci]. rewrite Hb, Ascii.eqb_refl.
    apply IH, Hx.
Qed.

Lemma contains_lower_shift (p pre s : string) :
  contains p (lower s) = true -> contains p (lower (pre ++ s)) = true.
Proof.
  intros H. destruct (contains_split _ _ H) as (a & b & Hs).
  rewrite lower_append, Hs, <- append_assoc. apply contains_append.
Qed.

Lemma lit_ci_contains (p s rest : string) :
  lower p = p -> LeafeatorBot.lit_ci p s = Some rest ->
  contains p (lower s) = true.
Proof.
  intros Hp H. destruct (lit_ci_sound _ _ _ H) as (x & -> & Hx).
  rewrite lower_append, Hx, Hp.
  apply (contains_append p EmptyString (lower rest)).
Qed.

Lemma lit_ci_of_prefix (p t : string) :
  lower p = p -> prefix p (lower t) = true ->
  exists rest, LeafeatorBot.lit_ci p t = Some rest.
Proof.
  revert t. induction p as [|a p IH]; intros t Hp H.
  - exists t; reflexivity.
  - destruct t as [|b t]; [discriminate|].
    cbn [lower] in Hp. injection Hp as Ha Hp.
    cbn [lower prefix] in H.
    destruct (ascii_dec a (lower_ascii b)) as [Hab|_]; [|discriminate].
    cbn [LeafeatorBot.lit_ci]. rewrite Ha, Hab, Ascii.eqb_refl.
    apply IH; assumption.
Qed.

Lemma contains_lower_position (p s : string) :
  contains p (lower s) = true ->
  exists pre t, s = (pre ++ t)%string /\ prefix p (lower t) = true.
Proof.
  induction s as [|c s IH]; cbn [lower contains].
  - destruct (prefix p EmptyString) eqn:Hp; [|discriminate].
    intros _. exists EmptyString, EmptyString; split; [reflexivity | exact Hp].
  - destruct (prefix p (String (lower_ascii c) (lower s))) eqn:Hp.
    + intros _. exists EmptyString, (String c s); split; [reflexivity|exact Hp].
    + intros H. destruct (IH H) as (pre & t & -> & Ht).
      exists (String c pre), t; split; [reflexivity | exact Ht].
Qed.

Lemma dotstar_sound (s : string) (k : string -> bool) :
  LeafeatorBot.dotstar s k = true ->
  exists a b, s = (a ++ b)%string /\ k b = true.
Proof.
  induction s as [|c s IH]; cbn [LeafeatorBot.dotstar]; intros H.
  - rewrite orb_false_r in H. exists EmptyString, EmptyString; auto.
  - apply orb_true_iff in H. destruct H as [H|H].
    + exists EmptyString, (String c s); auto.
    + destruct (LeafeatorBot.is_newline c); [discriminate|].
      destruct (IH H) as (a & b & -> & Hk).
      exists (String c a), b; auto.
Qed.

Lemma dotstar_complete (a b : string) (k : string -> bool) :
  one_line a = true -> k b = true ->
  LeafeatorBot.dotstar (a ++ b) k = true.
Proof.
  intros Ha Hk. induction a as [|c a IH].
  - destruct b; cbn [append LeafeatorBot.dotstar]; rewrite Hk; reflexivity.
  - cbn [one_line] in Ha. apply andb_true_iff in Ha. destruct Ha as [Hc Ha].
    cbn [append LeafeatorBot.dotstar].
    apply negb_true_iff in Hc. rewrite Hc, (IH Ha). apply orb_true_r.
Qed.

Lemma search_sound (r : LeafeatorBot.regex) (s : string) :
  LeafeatorBot.search r s = true ->
  exists pre t, s = (pre ++ t)%string /\
    LeafeatorBot.matches r t (fun _ => true) = true.
Proof.
  induction s as [|c s IH]; cbn [LeafeatorBot.search]; intros H.
  - rewrite orb_false_r in H. exists EmptyString, EmptyString; auto.
  - apply orb_true_iff in H. destruct H as [H|H].
    + exists EmptyString, (String c s); auto.
    + destruct (IH H) as (pre & t & -> & Ht).
      exists (String c pre), t; auto.
Qed.

Lemma search_complete (r : LeafeatorBot.regex) (pre t : string) :
  LeafeatorBot.matches r t (fun _ => true) = true ->
  LeafeatorBot.search r (pre ++ t) = true.
Proof.
  intros H. induction pre as [|c pre IH].
  - destruct t; cbn [append LeafeatorBot.search]; rewrite H; reflexivity.
  - cbn [append LeafeatorBot.search]. rewrite IH. apply orb_true_r.
Qed.

(** A run of any characters and then the literal [p] matches only in a
    text that holds [p]. *)
Lemma dotstar_lit_contains (p s : string) (k : string -> bool) :
  lower p = p ->
  LeafeatorBot.dotstar s
    (fun rest => LeafeatorBot.matches (LeafeatorBot.Lit p) rest k) = true ->
  contains p (lower s) = true.
Proof.
  intros Hp H. destruct (dotstar_sound _ _ H) as (a & b & -> & Hk).
  cbn [LeafeatorBot.matches] in Hk.
  destruct (LeafeatorBot.lit_ci p b) as [rest|] eqn:Hl; [|discriminate].
  apply contains_lower_shift. exact (lit_ci_contains _ _ _ Hp Hl).
Qed.

(** X25: On ASCII text the pattern is a necessary test for the two
    heroes or the bot's name. *)
Lemma REGEX_needs_both_words_or_the_name (body : string) :
  ascii_text body = true ->
  LeafeatorBot.search LeafeatorBot.REGEX body = true ->
  contains "leafeator-bot" (lower body) = true \/
  (contains "ancient" (lower body) = true /\
   contains "necro" (lower body) = true).
Proof.
  intros _ H. destruct (search_sound _ _ H) as (pre & t & -> & Hm).
  unfold LeafeatorBot.REGEX in Hm. cbn [LeafeatorBot.matches] in Hm.
  apply orb_true_iff in Hm. destruct Hm as [Hm|Hm];
    [|apply orb_true_iff in Hm; destruct Hm as [Hm|Hm]].
  - right.
    destruct (LeafeatorBot.lit_ci "ancient" t) as [t1|] eqn:Ha;
      [|discriminate].
    apply andb_true_iff in Hm. destruct Hm as [_ Hm].
    split; apply contains_lower_shift.
    + exact (lit_ci_contains _ _ _ eq_refl Ha).
    + destruct (lit_ci_sound _ _ _ Ha) as (x & -> & _).
      apply contains_lower_shift.
      destruct (dotstar_sound _ _ Hm) as (a & b & -> & Hk).
      destruct (LeafeatorBot.lit_ci "necro" b) as [t2|] eqn:Hn;
        [|discriminate].
      apply contains_lower_shift. exact (lit_ci_contains _ _ _ eq_refl Hn).
  - right.
    destruct (LeafeatorBot.lit_ci "necro" t) as [t1|] eqn:Hn;
      [|discriminate].
    split; apply contains_lower_shift.
    + destruct (lit_ci_sound _ _ _ Hn) as (x & -> & _).
      apply contains_lower_shift.
      destruct (dotstar_sound _ _ Hm) as (a & b & -> & Hk).
      destruct (LeafeatorBot.lit_ci "ancient" b) as [t2|] eqn:Ha;
        [|discriminate].
      apply contains_lower_shift. exact (lit_ci_contains _ _ _ eq_refl Ha).
    + exact (lit_ci_contains _ _ _ eq_refl Hn).
  - left.
    destruct (LeafeatorBot.lit_ci "leafeator-bot" t) as [t1|] eqn:Hl;
      [|discriminate].
    apply contains_lower_shift. exact (lit_ci_contains _ _ _ eq_refl Hl).
Qed.

Lemma REGEX_needs_both_words_or_the_name_witness :
  contains "ancient" (lower "Ancient NECROlyte") = true /\
  contains "necro" (lower "Ancient NECROlyte") = true.
Proof.
  destruct (REGEX_needs_both_words_or_the_name "Ancient NECROlyte"
              eq_refl eq_refl)
    as [H|H]; [discriminate H | exact H].
Defined.

(** X26: The bot's own name always matches. *)
Lemma REGEX_matches_the_name (body : string) :
  contains "leafeator-bot" (lower body) = true ->
  LeafeatorBot.search LeafeatorBot.REGEX body = true.
Proof.
  intros H. destruct (contains_lower_position _ _ H) as (pre & t & -> & Hp).
  apply search_complete.
  destruct (lit_ci_of_prefix "leafeator-bot" t eq_refl Hp) as (rest & Hl).
  unfold LeafeatorBot.REGEX. cbn [LeafeatorBot.matches]. rewrite Hl.
  rewrite !orb_true_r. reflexivity.
Qed.

Lemma REGEX_matches_the_name_witness :
  LeafeatorBot.search LeafeatorBot.REGEX "thanks, Leafeator-Bot!" = true.
Proof. apply REGEX_matches_the_name. reflexivity. Defined.

(** X27: In ASCII text: necro, then ancient on the same line, and no
    apparition after it. *)
Lemma REGEX_matches_necro_before_ancient
    (pre n mid a post : string) :
  ascii_text (pre ++ n ++ mid ++ a ++ post) = true ->
  lower n = "necro" -> lower a = "ancient" ->
  one_line mid = true ->
  contains "apparition" (lower post) = false ->
  LeafeatorBot.search LeafeatorBot.REGEX
    (pre ++ n ++ mid ++ a ++ post)%string = true.
Proof.
  intros _ Hn Ha Hmid Hpost. apply search_complete.
  unfold LeafeatorBot.REGEX. cbn [LeafeatorBot.matches].
  rewrite (lit_ci_complete "necro" n _ Hn).
  rewrite (dotstar_complete mid (a ++ post)); [apply orb_true_r | exact Hmid |].
  rewrite (lit_ci_complete "ancient" a _ Ha).
  rewrite andb_true_r. apply negb_true_iff.
  destruct (LeafeatorBot.dotstar post _) eqn:Hd; [|reflexivity].
  rewrite (dotstar_lit_contains "apparition" post _ eq_refl Hd) in Hpost.
  discriminate Hpost.
Qed.

Lemma REGEX_matches_necro_before_ancient_witness :
  LeafeatorBot.search LeafeatorBot.REGEX
    "so NECRO beats Ancient golems" = true.
Proof.
  apply (REGEX_matches_necro_before_ancient "so " "NECRO" " beats "
           "Ancient" " golems"); reflexivity.
Defined.

(** X28: An author whose name holds leafeator is skipped in every
    community: the membership test compares the method
    [display_name.lower] itself, which is in no list of names. *)
Lemma leafeator_author_skipped_everywhere
    (C : LeafeatorBot.Collaborators) (body : string)
    (thing : LeafeatorBot.Thing) (is_comment : bool) (author_name : string) :
  LeafeatorBot.author thing = Some author_name ->
  contains "leafeator" (lower author_name) = true ->
  LeafeatorBot.general_action C body thing is_comment =
    LeafeatorBot.mkLout (Ok false) [].
Proof.
  intros Ha Hl. unfold LeafeatorBot.general_action. rewrite Ha, Hl.
  reflexivity.
Qed.

Lemma leafeator_author_skipped_everywhere_witness :
  LeafeatorBot.execute_comment leaf_collaborators
    (leaf_comment (Some "Leafeator_fan") "ancient necro") =
    LeafeatorBot.mkLout (Ok false) [].
Proof.
  apply (leafeator_author_skipped_everywhere leaf_collaborators
           "ancient necro" (leaf_comment (Some "Leafeator_fan")
                              "ancient necro") true "Leafeator_fan");
    reflexivity.
Defined.

(** X29: A reply is posted only to the thing at hand, with the configured
    response, for an author who is present and not a leafeator, on a
    matching text, in a thread the database does not know, after a
    refresh that went through. *)
Lemma reply_only_when_due
    (C : LeafeatorBot.Collaborators) (body : string)
    (thing : LeafeatorBot.Thing) (is_comment : bool)
    (target response : string) :
  In (LeafeatorBot.AddComment target response)
     (LeafeatorBot.ltr
        (LeafeatorBot.general_action C body thing is_comment)) ->
  target = LeafeatorBot.name thing /\
  response = LeafeatorBot.RESPONSE C /\
  (exists author_name,
     LeafeatorBot.author thing = Some author_name /\
     contains "leafeator" (lower author_name) = false) /\
  LeafeatorBot.search LeafeatorBot.REGEX body = true /\
  LeafeatorBot.retrieve_thing C (thread_of thing is_comment)
    LeafeatorBot.BOT_NAME = false /\
  LeafeatorBot.oauth_refresh C = None.
Proof.
  unfold LeafeatorBot.general_action, thread_of.
  destruct (LeafeatorBot.author thing) as [a|]; [|intros []].
  destruct (contains "leafeator" (lower a)) eqn:Hl.
  { cbn. intros []. }
  cbn [andb].
  destruct (LeafeatorBot.search LeafeatorBot.REGEX body); [|intros []].
  destruct is_comment; cbn [negb];
    match goal with
    | |- context [LeafeatorBot.retrieve_thing C ?t ?b] =>
        destruct (LeafeatorBot.retrieve_thing C t b)
    end;
    destruct (LeafeatorBot.oauth_refresh C);
    destruct (LeafeatorBot.add_comment C);
    cbn [LeafeatorBot.ltr In]; intros H;
    repeat match type of H with
           | _ \/ _ => destruct H as [H|H]
           | False => destruct H
           end;
    try discriminate H;
    injection H as <- <-;
    (repeat split; try reflexivity; exists a; split; [reflexivity | exact Hl]).
Qed.

Lemma reply_only_when_due_witness :
  LeafeatorBot.retrieve_thing leaf_collaborators "t3_s1"
    LeafeatorBot.BOT_NAME = false.
Proof.
  destruct (reply_only_when_due leaf_collaborators "ancient necro"
              (leaf_comment (Some "bob") "ancient necro") true
              "t1_c1" "Did someone say necro?")
    as (_ & _ & _ & _ & H & _).
  - cbn. right. right. left. reflexivity.
  - exact H.
Defined.

(** X30: The thread is filed exactly when the call returns [True], and
    then the four calls are made in this order, the reply on the thing
    and the record on its thread. *)
Lemma thread_filed_exactly_on_success
    (C : LeafeatorBot.Collaborators) (body : string)
    (thing : LeafeatorBot.Thing) (is_comment : bool) :
  (LeafeatorBot.lres (LeafeatorBot.general_action C body thing is_comment) =
     Ok true <->
   exists t b, In (LeafeatorBot.InsertIntoStorage t b)
     (LeafeatorBot.ltr
        (LeafeatorBot.general_action C body thing is_comment))) /\
  (LeafeatorBot.lres (LeafeatorBot.general_action C body thing is_comment) =
     Ok true ->
   LeafeatorBot.ltr (LeafeatorBot.general_action C body thing is_comment) =
     [LeafeatorBot.RetrieveThing (thread_of thing is_comment)
        LeafeatorBot.BOT_NAME;
      LeafeatorBot.OauthRefresh;
      LeafeatorBot.AddComment (LeafeatorBot.name thing)
        (LeafeatorBot.RESPONSE C);
      LeafeatorBot.InsertIntoStorage (thread_of thing is_comment)
        LeafeatorBot.BOT_NAME]).
Proof.
  unfold LeafeatorBot.general_action, thread_of.
  destruct (LeafeatorBot.author thing) as [a|];
    [destruct (contains "leafeator" (lower a)); cbn [andb];
     [cbn | destruct (LeafeatorBot.search LeafeatorBot.REGEX body);
            [destruct is_comment; cbn [negb];
             match goal with
             | |- context [LeafeatorBot.retrieve_thing C ?t ?b] =>
                 destruct (LeafeatorBot.retrieve_thing C t b)
             end;
             destruct (LeafeatorBot.oauth_refresh C);
             destruct (LeafeatorBot.add_comment C)|]]|];
    cbn [LeafeatorBot.lres LeafeatorBot.ltr In];
    (split; [split|]);
    try (intros H; discriminate H);
    try (intros (t & b & H);
         repeat match type of H with
                | _ \/ _ => destruct H as [H|H]
                | False => destruct H
                end; discriminate H);
    try reflexivity;
    try (intros _; eexists; eexists; do 3 right; left; reflexivity).
Qed.

(** * The credential invariant *)

Lemma map_bare_plugin (l : list event) :
  map bare (map EvPlugin l) = map bare l.
Proof. rewrite map_map. reflexivity. Qed.

Lemma refreshed_in_app (a b : list event) :
  refreshed_in a \/ refreshed_in b -> refreshed_in (a ++ b).
Proof.
  unfold refreshed_in. intros [[td H]|[td H]]; exists td;
    rewrite map_app; apply in_or_app; auto.
Qed.

(** What was issued stays issued when the history goes on. *)
Lemma issued_later (hist t' : list event) (td : token_dict) (t : Z) :
  issued hist td t -> issued (hist ++ t') td t.
Proof.
  intros (before & after & H). exists before, (after ++ map bare t').
  rewrite map_app, H, <- app_assoc. reflexivity.
Qed.

(** Only the calls behind the events count. *)
Lemma credential_invariant_bare (h h' : list event) (s : PluginBase) :
  map bare h = map bare h' ->
  credential_invariant h s -> credential_invariant h' s.
Proof.
  intros Hb Hinv tok Htok.
  destruct (Hinv tok Htok) as (td & t & (before & after & Hi) & Ht & Hu).
  exists td, t. split; [|split; assumption].
  exists before, after. rewrite <- Hb. exact Hi.
Qed.

Lemma credential_invariant_later (hist t : list event) (s s' : PluginBase) :
  credentials s' = credentials s ->
  OA_TOKEN_DURATION s' = OA_TOKEN_DURATION s ->
  credential_invariant hist s -> credential_invariant (hist ++ t) s'.
Proof.
  unfold credentials. intros Hc Hd Hinv tok Htok.
  inversion Hc as [[H1 H2]]. rewrite H1 in Htok.
  destruct (Hinv tok Htok) as (td & t0 & Hi & Ht & Hu).
  exists td, t0. split; [apply issued_later; exact Hi|].
  rewrite H2, Hd. auto.
Qed.

Lemma keeps_refl (w : World) : keeps_credentials w [] w.
Proof.
  split; [reflexivity|]. split; [|left; reflexivity].
  intros hist Hinv. rewrite app_nil_r. exact Hinv.
Qed.

Lemma keeps_trans (a : World) (t1 : list event) (b : World)
    (t2 : list event) (c : World) :
  keeps_credentials a t1 b -> keeps_credentials b t2 c ->
  keeps_credentials a (t1 ++ t2) c.
Proof.
  intros (Hd1 & Hi1 & Hc1) (Hd2 & Hi2 & Hc2).
  split; [congruence|]. split.
  - intros hist Hinv. rewrite app_assoc. auto.
  - destruct Hc1 as [Hc1|Hr].
    + destruct Hc2 as [Hc2|Hr].
      * left; congruence.
      * right; apply refreshed_in_app; auto.
    + right; apply refreshed_in_app; auto.
Qed.

(** A step that leaves the credentials alone, whatever it emits. *)
Lemma keeps_of_state (w : World) (t : list event) (w' : World) :
  credentials (self w') = credentials (self w) ->
  OA_TOKEN_DURATION (self w') = OA_TOKEN_DURATION (self w) ->
  keeps_credentials w t w'.
Proof.
  intros Hc Hd. split; [exact Hd|]. split; [|left; exact Hc].
  intros hist Hinv. eapply credential_invariant_later; eassumption.
Qed.

(** A method that does not touch the credentials does to them what the
    base class does. *)
Lemma keeps_of_leaves {A} (m : M A) :
  leaves_credentials m -> respects keeps_credentials m.
Proof.
  intros Hm w. destruct (Hm w) as (Hc & Hd).
  apply keeps_of_state; assumption.
Qed.

Lemma plugin_leaves_keeps (P : PluginContract) :
  plugin_leaves_credentials P -> plugin_keeps_credentials P.
Proof.
  intros (H1 & H2 & H3 & H4 & H5).
  split; [|split; [|split; [|split]]]; intros x; apply keeps_of_leaves; auto.
Qed.

Lemma keeps_emit (e : event) : respects keeps_credentials (emit e).
Proof. intros w. apply keeps_of_state; reflexivity. Qed.

Lemma keeps_time (E : Env) : respects keeps_credentials (time E).
Proof. intros w. apply keeps_of_state; reflexivity. Qed.

Lemma keeps_set_session (sess : Session) :
  respects keeps_credentials (set_session sess).
Proof. intros w. apply keeps_of_state; reflexivity. Qed.

(** What a method of the plugin does counts as if the framework had done
    it. *)
Lemma keeps_in_plugin {A} (m : M A) :
  respects keeps_credentials m -> respects keeps_credentials (in_plugin m).
Proof.
  intros Hm w. unfold in_plugin. destruct (Hm w) as (Hd & Hi & Hc).
  destruct (m w) as [r w1 t1]; simpl in *.
  split; [exact Hd|]. split.
  - intros hist Hinv.
    apply (credential_invariant_bare (hist ++ t1)); [|auto].
    rewrite !map_app, map_bare_plugin. reflexivity.
  - destruct Hc as [Hc|[td Hin]]; [left; exact Hc|].
    right. exists td. rewrite map_bare_plugin. exact Hin.
Qed.

Lemma keeps_session_get_unread (E : Env) :
  respects keeps_credentials (session_get_unread E).
Proof.
  intros w. unfold session_get_unread.
  destruct (session (self w)); [|apply keeps_refl].
  destruct (get_unread E (n_unread w)); apply keeps_of_state; reflexivity.
Qed.

Lemma keeps_msg_mark_as_read (E : Env) (m : Message) :
  respects keeps_credentials (msg_mark_as_read E m).
Proof.
  intros w. unfold msg_mark_as_read.
  destruct (mark_as_read E (n_mark w) m); apply keeps_of_state; reflexivity.
Qed.

(** Lines 175-178: a failed call changes nothing; a call that returns is
    followed by the clock reading and by the assignments of token and
    expiry, so the invariant holds again when the block is left. *)
Lemma keeps_refresh_and_store (E : Env) (token : string) :
  respects keeps_credentials
    (td <- session_refresh_access_information E token ;;
     now <- time E ;;
     s <- get_self ;;
     set_token (access_token td) (now + OA_TOKEN_DURATION s) ;;
     session_set_access_credentials td).
Proof.
  intros w.
  unfold bind, session_refresh_access_information, time, get_self,
    set_token, set_self, session_set_access_credentials, emit.
  destruct (session (self w)) as [sess|] eqn:Hs; simpl; [|apply keeps_refl].
  destruct (refresh_access_information E (n_refresh w) token) as [td|e];
    simpl.
  - rewrite Hs; simpl.
    split; [reflexivity|]. split.
    + intros hist _ tok Htok. simpl in *.
      exists td, (clock E (n_time w)). inversion Htok.
      split; [|split; reflexivity].
      exists (map bare hist), [EvSetAccessCredentials td].
      rewrite map_app. reflexivity.
    + right. exists td. left; reflexivity.
  - apply keeps_of_state; reflexivity.
Qed.

(** A step of such a proof for [keeps_credentials], leaves included. *)
Ltac keeps_step :=
  first
    [ apply keeps_time
    | apply keeps_set_session
    | apply keeps_session_get_unread
    | apply keeps_msg_mark_as_read
    | apply keeps_emit
    | respects_step keeps_refl keeps_trans ].

Lemma keeps_oa_refresh_body (E : Env) (force : bool) :
  respects keeps_credentials (_oa_refresh_body E force).
Proof.
  unfold _oa_refresh_body.
  apply (respects_bind _ keeps_trans); [keeps_step|intros token].
  apply (respects_bind _ keeps_trans); [keeps_step|intros s].
  apply (respects_bind _ keeps_trans); [keeps_step|intros _].
  apply (respects_bind _ keeps_trans).
  - destruct force; repeat keeps_step.
  - intros [|]; [apply keeps_refresh_and_store | keeps_step].
Qed.

Lemma keeps_oa_refresh_internal (E : Env) (force : bool) :
  respects keeps_credentials (_oa_refresh E force).
Proof.
  unfold _oa_refresh, retry.
  apply (respects_retry_loop _ keeps_trans), keeps_oa_refresh_body.
Qed.

Lemma keeps_factory_reddit_session :
  respects keeps_credentials factory_reddit_session.
Proof. unfold factory_reddit_session. repeat keeps_step. Qed.

Lemma keeps_oa_refresh (E : Env) (fuel : nat) :
  forall force, respects keeps_credentials (oa_refresh E fuel force).
Proof.
  induction fuel as [|fuel IH]; intros force; simpl.
  - keeps_step.
  - apply (respects_try_except _ keeps_trans);
      [apply keeps_oa_refresh_internal|].
    apply (respects_bind _ keeps_trans);
      [apply keeps_factory_reddit_session|intros _].
    apply (respects_bind _ keeps_trans); [apply IH|intros _].
    apply keeps_oa_refresh_internal.
Qed.

Lemma keeps_factory_reddit (E : Env) (fuel : nat) :
  respects keeps_credentials (factory_reddit E fuel).
Proof.
  unfold factory_reddit.
  apply (respects_bind _ keeps_trans);
    [apply keeps_factory_reddit_session|intros _].
  apply keeps_oa_refresh.
Qed.

Lemma keeps_message_loop (E : Env) (P : PluginContract)
    (msgs : list Message) :
  plugin_keeps_credentials P ->
  respects keeps_credentials (message_loop E msgs).
Proof.
  intros (Hmsg & _). induction msgs as [|m msgs IH]; simpl.
  - keeps_step.
  - apply (respects_bind _ keeps_trans); [|intros _; exact IH].
    unfold unread_step.
    apply (respects_bind _ keeps_trans); [keeps_step|intros _].
    apply (respects_bind _ keeps_trans); [keeps_step|intros _].
    apply keeps_in_plugin, Hmsg.
Qed.

Lemma keeps_get_unread_messages (E : Env) (P : PluginContract) (fuel : nat) :
  plugin_keeps_credentials P ->
  respects keeps_credentials (get_unread_messages E fuel).
Proof.
  intros HP. unfold get_unread_messages, retry.
  apply (respects_retry_loop _ keeps_trans).
  unfold get_unread_messages_body.
  apply (respects_bind _ keeps_trans); [apply keeps_oa_refresh|intros _].
  unfold unread_try.
  apply (respects_try_except _ keeps_trans); [|keeps_step].
  unfold unread_block.
  apply (respects_bind _ keeps_trans); [keeps_step|intros msgs].
  apply keeps_message_loop, HP.
Qed.

Lemma keeps_standard_ban_procedure (m : Message) (sa ua : bool) :
  respects keeps_credentials (standard_ban_procedure m sa ua).
Proof.
  unfold standard_ban_procedure, principal, message_author_name,
    message_subreddit_display_name.
  repeat keeps_step.
Qed.

Lemma keeps_to_update (t : thing) (lifetime : Z) :
  respects keeps_credentials (to_update t lifetime).
Proof.
  unfold to_update, isinstance_one_argument, thing_fullname.
  repeat keeps_step.
Qed.

Lemma keeps_test_single_thing (E : Env) (P : PluginContract)
    (thing_id : string) :
  plugin_keeps_credentials P ->
  respects keeps_credentials (__test_single_thing E thing_id).
Proof.
  intros (_ & Hsub & Htitle & Hlink & Hcomment).
  unfold __test_single_thing.
  apply (respects_bind _ keeps_trans); [keeps_step|intros _].
  destruct (get_info E thing_id) as [fn [|] [|c txt]|fn txt|]; simpl;
    (apply (respects_bind _ keeps_trans); [keeps_step|intros _]);
    apply keeps_in_plugin; auto.
Qed.

Lemma keeps_run (E : Env) (P : PluginContract) (fuel : nat)
    (op : operation) :
  plugin_keeps_credentials P ->
  respects keeps_credentials (run E P fuel op).
Proof.
  intros HP. destruct op; simpl.
  - apply keeps_oa_refresh_internal.
  - apply keeps_oa_refresh.
  - apply keeps_factory_reddit.
  - apply keeps_get_unread_messages, HP.
  - apply keeps_standard_ban_procedure.
  - apply keeps_to_update.
  - apply keeps_test_single_thing, HP.
  - apply keeps_test_single_thing, HP.
  - apply keeps_test_single_thing, HP.
Qed.

(** The plugin that refreshes in its message handler is within what is
    asked of a plugin. *)
Lemma refreshing_plugin_keeps (E : Env) :
  plugin_keeps_credentials (refreshing_plugin E).
Proof.
  unfold plugin_keeps_credentials.
  split; [|split; [|split; [|split]]];
    try (intros t; apply (respects_ret _ keeps_refl)).
  intros m. cbn [on_new_message refreshing_plugin].
  apply (respects_bind _ keeps_trans); [apply keeps_oa_refresh|intros _].
  apply keeps_standard_ban_procedure.
Qed.

(** ** The larger state *)

Lemma base_events_app (a b : list Setup.setup_event) :
  base_events (a ++ b) = base_events a ++ base_events b.
Proof. unfold base_events. apply flat_map_app. Qed.

Lemma base_events_lift (t : list event) :
  base_events (map Setup.SetupBase t) = t.
Proof.
  induction t as [|e t IH]; simpl; [reflexivity|]. rewrite IH; reflexivity.
Qed.

Lemma okc_ret {A} (a : A) : object_keeps_credentials (Setup.sret a).
Proof. intros p. apply keeps_refl. Qed.

Lemma okc_raise {A} (e : Setup.setup_exn) :
  object_keeps_credentials (@Setup.sraise A e).
Proof. intros p. apply keeps_refl. Qed.

Lemma okc_get : object_keeps_credentials Setup.sget.
Proof. intros p. apply keeps_refl. Qed.

Lemma okc_getattr {A} (f : Setup.Plugin -> option A) :
  object_keeps_credentials (Setup.sgetattr f).
Proof.
  intros p. unfold Setup.sgetattr. destruct (f p); apply keeps_refl.
Qed.

Lemma okc_assert (b : bool) : object_keeps_credentials (Setup.sassert b).
Proof. intros p. destruct b; apply keeps_refl. Qed.

Lemma okc_emit (e : Setup.setup_event) :
  object_keeps_credentials (Setup.semit e).
Proof. intros p. apply keeps_of_state; reflexivity. Qed.

Lemma okc_put (f : Setup.Plugin -> Setup.Plugin) :
  (forall p, Setup.base (f p) = Setup.base p) ->
  object_keeps_credentials (Setup.sput f).
Proof. intros Hf p. cbn. rewrite Hf. apply keeps_refl. Qed.

Lemma okc_lift {A} (m : M A) :
  respects keeps_credentials m -> object_keeps_credentials (Setup.lift m).
Proof.
  intros Hm p. unfold Setup.lift. pose proof (Hm (Setup.base p)) as H.
  destruct (m (Setup.base p)) as [r w1 t1]. cbn in *.
  rewrite base_events_lift. exact H.
Qed.

Lemma okc_assign (f : PluginBase -> PluginBase) :
  (forall s, credentials (f s) = credentials s /\
             OA_TOKEN_DURATION (f s) = OA_TOKEN_DURATION s) ->
  object_keeps_credentials (Setup.assign f).
Proof.
  intros Hf. apply okc_lift. intros w.
  destruct (Hf (self w)) as [Hc Hd]. apply keeps_of_state; auto.
Qed.

Lemma okc_bind {A B} (m : Setup.MS A) (f : A -> Setup.MS B) :
  object_keeps_credentials m ->
  (forall a, object_keeps_credentials (f a)) ->
  object_keeps_credentials (Setup.sbind m f).
Proof.
  intros Hm Hf p. unfold Setup.sbind.
  pose proof (Hm p) as H1.
  destruct (m p) as [[a|e|] p1 t1]; cbn in *; try exact H1.
  pose proof (Hf a p1) as H2.
  destruct (f a p1) as [r p2 t2]; cbn in *.
  rewrite base_events_app. eapply keeps_trans; eassumption.
Qed.

Lemma okc_config_get (x : string) : object_keeps_credentials (Setup.get x).
Proof.
  unfold Setup.get. apply okc_bind; [apply okc_getattr|intros cfg].
  destruct (Setup.config_get cfg x); [apply okc_ret | apply okc_raise].
Qed.

Lemma okc_getboolean (x : string) :
  object_keeps_credentials (Setup.getboolean x).
Proof.
  unfold Setup.getboolean. apply okc_bind; [apply okc_config_get|intros v].
  destruct (Setup.boolean_word v); [apply okc_ret | apply okc_raise].
Qed.

(** A step of a proof that a method on the larger state keeps the
    credentials. *)
Ltac okc_step :=
  first
    [ apply okc_bind; [|intros ?]
    | apply okc_ret
    | apply okc_raise
    | apply okc_get
    | apply okc_getattr
    | apply okc_assert
    | apply okc_config_get
    | apply okc_getboolean
    | apply okc_emit
    | apply okc_put; intros ?; reflexivity
    | apply okc_assign; intros ?; split; reflexivity
    | apply okc_lift; first [ apply keeps_set_session
                            | apply keeps_oa_refresh
                            | apply keeps_factory_reddit ]
    | match goal with
      | |- object_keeps_credentials (if ?b then _ else _) => destruct b
      | |- object_keeps_credentials (match ?x with _ => _ end) => destruct x
      end ].

Lemma okc_get_keys_manually (E : Env) (O : Setup.Operator) (fuel : nat) :
  object_keeps_credentials (Setup._get_keys_manually E O fuel).
Proof. unfold Setup._get_keys_manually. repeat okc_step. Qed.

Lemma okc_setup_from_config (E : Env) (O : Setup.Operator) (fuel : nat)
    (cfg : list (string * string)) :
  object_keeps_credentials (Setup.setup_from_config E O fuel cfg).
Proof.
  unfold Setup.setup_from_config.
  repeat first [ apply okc_get_keys_manually | okc_step ].
Qed.

Lemma okc_integrity_check (O : Setup.Operator) :
  object_keeps_credentials (Setup.integrity_check O).
Proof.
  unfold Setup.integrity_check, Setup.session_user_name.
  repeat okc_step.
Qed.

Lemma okc_run_object (E : Env) (O : Setup.Operator) (P : PluginContract)
    (fuel : nat) (op : object_operation) :
  plugin_keeps_credentials P ->
  object_keeps_credentials (run_object E O P fuel op).
Proof.
  intros HP. destruct op as [op| |]; cbn [run_object].
  - apply okc_lift, keeps_run, HP.
  - apply okc_get_keys_manually.
  - apply okc_bind; [apply okc_integrity_check | intros _; apply okc_ret].
Qed.

Lemma then_run_keeps (E : Env) (O : Setup.Operator) (P : PluginContract)
    (fuel : nat) (ops : list object_operation) :
  plugin_keeps_credentials P ->
  forall p,
    keeps_credentials (Setup.base p)
      (base_events (snd (then_run E O P fuel ops p)))
      (Setup.base (fst (then_run E O P fuel ops p))).
Proof.
  intros HP. induction ops as [|op ops IH]; intros p; cbn [then_run].
  - apply keeps_refl.
  - cbn [fst snd]. rewrite base_events_app.
    eapply keeps_trans; [apply (okc_run_object E O P fuel op HP)|apply IH].
Qed.

(** C8: a fresh object holds no token and has a validity duration of 3540
    seconds.  Every operation of the class on an object that exists, the
    bootstrap of the refresh token and the integrity check included, keeps
    the invariant that a token that is set was issued by a successful
    refresh of the history and that the expiry is the clock reading taken
    right after that refresh plus the validity duration; the duration is
    never changed, and the pair of token and expiry changes only in a run
    whose trace holds a successful refresh.  The methods of the plugin
    that the operations call may do anything that leaves the three
    attributes alone and may themselves call the operations of the base
    class, a refresh included: all that is asked of them is that they
    change the credentials no other way.  The constructor, with the
    configuration read, establishes the invariant with whatever refresh it
    made, and it holds at every point of the life of an object. *)
Theorem credential_invariant_preserved :
  (forall db h name,
     OA_TOKEN_DURATION (__init__ db h name) = 3540%Z /\
     OA_ACCESS_TOKEN (__init__ db h name) = None /\
     credential_invariant [] (__init__ db h name)) /\
  (forall P : PluginContract,
     plugin_leaves_credentials P -> plugin_keeps_credentials P) /\
  (forall E : Env, plugin_keeps_credentials (refreshing_plugin E)) /\
  (forall (E : Env) (P : PluginContract) (fuel : nat) (op : operation)
          (hist : list event) (w : World),
     plugin_keeps_credentials P ->
     credential_invariant hist (self w) ->
     credential_invariant (hist ++ tr (run E P fuel op w))
                          (self (st (run E P fuel op w))) /\
     OA_TOKEN_DURATION (self (st (run E P fuel op w))) =
       OA_TOKEN_DURATION (self w) /\
     (credentials (self (st (run E P fuel op w))) = credentials (self w) \/
      refreshed_in (tr (run E P fuel op w)))) /\
  (forall (E : Env) (O : Setup.Operator) (P : PluginContract) (fuel : nat)
          (op : object_operation) (hist : list event) (p : Setup.Plugin),
     plugin_keeps_credentials P ->
     credential_invariant hist (self (Setup.base p)) ->
     credential_invariant
       (hist ++ base_events (Setup.str (run_object E O P fuel op p)))
       (self (Setup.base (Setup.sst (run_object E O P fuel op p)))) /\
     OA_TOKEN_DURATION
       (self (Setup.base (Setup.sst (run_object E O P fuel op p)))) =
       OA_TOKEN_DURATION (self (Setup.base p)) /\
     (credentials
        (self (Setup.base (Setup.sst (run_object E O P fuel op p)))) =
        credentials (self (Setup.base p)) \/
      refreshed_in (base_events (Setup.str (run_object E O P fuel op p))))) /\
  (forall (E : Env) (O : Setup.Operator) (fuel : nat) db h name cfg,
     credential_invariant
       (base_events (Setup.str (Setup.__init__ E O fuel db h name cfg)))
       (self (Setup.base
                (Setup.sst (Setup.__init__ E O fuel db h name cfg)))) /\
     OA_TOKEN_DURATION
       (self (Setup.base
                (Setup.sst (Setup.__init__ E O fuel db h name cfg)))) =
       3540%Z /\
     (OA_ACCESS_TOKEN
        (self (Setup.base
                 (Setup.sst (Setup.__init__ E O fuel db h name cfg)))) =
        None \/
      refreshed_in
        (base_events
           (Setup.str (Setup.__init__ E O fuel db h name cfg))))) /\
  (forall (E : Env) (O : Setup.Operator) (P : PluginContract) (fuel : nat)
          db h name cfg (ops : list object_operation),
     plugin_keeps_credentials P ->
     credential_invariant
       (base_events (snd (life E O P fuel db h name cfg ops)))
       (self (Setup.base (fst (life E O P fuel db h name cfg ops)))) /\
     OA_TOKEN_DURATION
       (self (Setup.base (fst (life E O P fuel db h name cfg ops)))) =
       3540%Z).
Proof.
  assert (Hfresh : forall db h name,
            credential_invariant [] (__init__ db h name)).
  { intros db h name tok Htok. discriminate Htok. }
  assert (Hinit : forall (E : Env) (O : Setup.Operator) (fuel : nat)
                         db h name cfg,
            keeps_credentials (mkWorld (__init__ db h name) 0 0 0 0)
              (base_events
                 (Setup.str (Setup.__init__ E O fuel db h name cfg)))
              (Setup.base
                 (Setup.sst (Setup.__init__ E O fuel db h name cfg)))).
  { intros E O fuel db h name cfg.
    exact (okc_setup_from_config E O fuel cfg
             (Setup.mkFull (mkWorld (__init__ db h name) 0 0 0 0)
                           None None None None)). }
  split; [|split; [|split; [|split; [|split; [|split]]]]].
  - intros db h name. repeat split. apply Hfresh.
  - apply plugin_leaves_keeps.
  - apply refreshing_plugin_keeps.
  - intros E P fuel op hist w HP Hinv.
    destruct (keeps_run E P fuel op HP w) as (Hd & Hi & Hc).
    split; [|split; assumption].
    apply Hi. exact Hinv.
  - intros E O P fuel op hist p HP Hinv.
    destruct (okc_run_object E O P fuel op HP p) as (Hd & Hi & Hc).
    split; [|split; assumption].
    apply Hi. exact Hinv.
  - intros E O fuel db h name cfg.
    destruct (Hinit E O fuel db h name cfg) as (Hd & Hi & Hc).
    split; [|split].
    + apply (Hi []). apply (Hfresh db h name).
    + rewrite Hd. reflexivity.
    + destruct Hc as [Hc|Hr]; [left|right; exact Hr].
      inversion Hc as [[Ht Hu]]. rewrite Ht. reflexivity.
  - intros E O P fuel db h name cfg ops HP. unfold life. cbn [fst snd].
    pose proof (Hinit E O fuel db h name cfg) as H1.
    pose proof (then_run_keeps E O P fuel ops HP
                  (Setup.sst (Setup.__init__ E O fuel db h name cfg)))
      as H2.
    rewrite base_events_app.
    destruct (keeps_trans _ _ _ _ _ H1 H2) as (Hd & Hi & _).
    split.
    + apply (Hi []). apply (Hfresh db h name).
    + rewrite Hd. reflexivity.
Qed.

Lemma credential_invariant_preserved_witness :
  credential_invariant
    ([EvRefreshed tokens0; EvTime 1460] ++
     tr (run (env_up [msg_alice]) (refreshing_plugin (env_up [msg_alice])) 1
           call_get_unread_messages (authenticated_world 5000)))
    (self (st (run (env_up [msg_alice])
                 (refreshing_plugin (env_up [msg_alice])) 1
                 call_get_unread_messages (authenticated_world 5000)))) /\
  credentials
    (self (st (run (env_up [msg_alice])
                 (refreshing_plugin (env_up [msg_alice])) 1
                 call_get_unread_messages (authenticated_world 5000)))) =
    (Some "access-1", Some 4541%Z) /\
  In (EvPlugin (EvRefreshed tokens1))
     (tr (run (env_up [msg_alice]) (refreshing_plugin (env_up [msg_alice])) 1
            call_get_unread_messages (authenticated_world 5000))).
Proof.
  assert (Hinv : credential_invariant [EvRefreshed tokens0; EvTime 1460]
                   (self (authenticated_world 5000))).
  { intros tok Htok. exists tokens0, 1460%Z.
    inversion Htok. split; [|split; reflexivity].
    exists [], []. reflexivity. }
  destruct (proj1 (proj2 (proj2 (proj2 credential_invariant_preserved)))
              (env_up [msg_alice]) (refreshing_plugin (env_up [msg_alice]))
              1%nat call_get_unread_messages
              [EvRefreshed tokens0; EvTime 1460]
              (authenticated_world 5000)
              (refreshing_plugin_keeps (env_up [msg_alice])) Hinv)
    as [H _].
  split; [exact H|]. split; [reflexivity|].
  vm_compute. do 4 right. left. reflexivity.
Defined.
